(** * The kube-nova operator: a shallow embedding of its reconciliation engine

    The development follows [internal/controller/kubenova_controller.go]
    (the reconciler, its diff engine, its retry-safe status writer, its
    status aggregator and its deletion lifecycle), the helper methods of the
    [api/v1] types, the validator and the RBAC and web builders.

    Conventions.
    - Go structs are records, one module per struct so that the fields keep
      their Go names ([Container.Image], [PodSpec.Volumes], ...).  Only the
      fields the modelled code reads or writes are kept, together with a few
      neighbours that show what the code leaves alone.
    - [int32]/[int64] fields are [Z]; the modelled code only compares them
      and prints them, so no wrap-around arises.
    - A Go map is a [gmap]; where the code distinguishes a nil map from an
      empty one (through [reflect.DeepEqual]) the map is an [option].
    - A nil-able pointer is an [option].
    - Calls on the API client thread an explicit [World]; a nil-pointer
      dereference ends the run in [Panic]. *)

From Stdlib Require Import ZArith.
From stdpp Require Import base option list gmap strings pretty.

Open Scope string_scope.
Open Scope list_scope.
Open Scope Z_scope.

(** ** Kubernetes object model *)

(** [metav1.OwnerReference]. *)
Module OwnerReference.
Record t := mk {
  Kind : string;
  Name : string;
  Controller : bool;
  BlockOwnerDeletion : bool
}.
End OwnerReference.

#[global] Instance OwnerReference_eq_dec : EqDecision OwnerReference.t.
Proof. solve_decision. Defined.

(** [metav1.ObjectMeta].  The version token [ResourceVersion] is an opaque
    string in Kubernetes; the store hands out increasing numbers. *)
Module ObjectMeta.
Record t := mk {
  Name : string;
  Namespace : string;
  Labels : gmap string string;
  Annotations : gmap string string;
  ResourceVersion : nat;
  Generation : Z;
  DeletionTimestamp : option Z;
  Finalizers : list string;
  OwnerReferences : list OwnerReference.t
}.
Definition named (ns name : string) (labels : gmap string string) : t :=
  mk name ns labels ∅ 0%nat 0 None [] [].
Definition withLabels (v : gmap string string) (m : t) : t :=
  mk (Name m) (Namespace m) v (Annotations m) (ResourceVersion m)
     (Generation m) (DeletionTimestamp m) (Finalizers m) (OwnerReferences m).
Definition withResourceVersion (v : nat) (m : t) : t :=
  mk (Name m) (Namespace m) (Labels m) (Annotations m) v
     (Generation m) (DeletionTimestamp m) (Finalizers m) (OwnerReferences m).
Definition withGeneration (v : Z) (m : t) : t :=
  mk (Name m) (Namespace m) (Labels m) (Annotations m) (ResourceVersion m)
     v (DeletionTimestamp m) (Finalizers m) (OwnerReferences m).
Definition withDeletionTimestamp (v : option Z) (m : t) : t :=
  mk (Name m) (Namespace m) (Labels m) (Annotations m) (ResourceVersion m)
     (Generation m) v (Finalizers m) (OwnerReferences m).
Definition withFinalizers (v : list string) (m : t) : t :=
  mk (Name m) (Namespace m) (Labels m) (Annotations m) (ResourceVersion m)
     (Generation m) (DeletionTimestamp m) v (OwnerReferences m).
Definition withOwnerReferences (v : list OwnerReference.t) (m : t) : t :=
  mk (Name m) (Namespace m) (Labels m) (Annotations m) (ResourceVersion m)
     (Generation m) (DeletionTimestamp m) (Finalizers m) v.
End ObjectMeta.

(** [resource.Quantity], kept in its textual form ("128Mi", "500m");
    [reflect.DeepEqual] on two quantities is equality of that form. *)
Definition Quantity := string.

(** [corev1.ResourceList]: a nil-able map from resource name to quantity. *)
Definition ResourceList := option (gmap string Quantity).

Module ResourceRequirements.
Record t := mk {
  Limits : ResourceList;
  Requests : ResourceList
}.
End ResourceRequirements.

(** [corev1.EnvVarSource]: where a reference-sourced variable comes from. *)
Inductive EnvVarSource :=
| FieldRef (fieldPath : string)
| SecretKeyRef (name key : string)
| ConfigMapKeyRef (name key : string).

Module EnvVar.
Record t := mk {
  Name : string;
  Value : string;
  ValueFrom : option EnvVarSource
}.
End EnvVar.

Module VolumeMount.
Record t := mk {
  Name : string;
  ReadOnly : bool;
  MountPath : string;
  SubPath : string
}.
End VolumeMount.

(** [corev1.KeyToPath] as a pair (key, path). *)
Definition KeyToPath := (string * string)%type.

(** [corev1.VolumeSource], the three sources the builders use. *)
Inductive VolumeSource :=
| ConfigMapVolumeSource (name : string) (items : list KeyToPath)
| EmptyDirVolumeSource (sizeLimit : option Z)
| SecretVolumeSource (secretName : string) (optional : option bool)
    (items : list KeyToPath).

Module Volume.
Record t := mk {
  Name : string;
  Source : VolumeSource
}.
End Volume.

Module ContainerPort.
Record t := mk {
  Name : string;
  Port : Z;
  Protocol : string
}.
End ContainerPort.

(** [corev1.Container] (probes, [EnvFrom] and the security context are not
    modelled: no modelled function reads them). *)
Module Container.
Record t := mk {
  Name : string;
  Image : string;
  ImagePullPolicy : string;
  Ports : list ContainerPort.t;
  Env : list EnvVar.t;
  Resources : ResourceRequirements.t;
  VolumeMounts : list VolumeMount.t
}.
End Container.

(** [corev1.PodSpec]; [ImagePullSecrets] holds the referenced names. *)
Module PodSpec.
Record t := mk {
  Volumes : list Volume.t;
  Containers : list Container.t;
  RestartPolicy : string;
  TerminationGracePeriodSeconds : option Z;
  DNSPolicy : string;
  ServiceAccountName : string;
  ImagePullSecrets : list string
}.
Definition withVolumes (v : list Volume.t) (p : t) : t :=
  mk v (Containers p) (RestartPolicy p) (TerminationGracePeriodSeconds p)
     (DNSPolicy p) (ServiceAccountName p) (ImagePullSecrets p).
Definition withContainers (v : list Container.t) (p : t) : t :=
  mk (Volumes p) v (RestartPolicy p) (TerminationGracePeriodSeconds p)
     (DNSPolicy p) (ServiceAccountName p) (ImagePullSecrets p).
Definition withServiceAccountName (v : string) (p : t) : t :=
  mk (Volumes p) (Containers p) (RestartPolicy p)
     (TerminationGracePeriodSeconds p) (DNSPolicy p) v (ImagePullSecrets p).
Definition withImagePullSecrets (v : list string) (p : t) : t :=
  mk (Volumes p) (Containers p) (RestartPolicy p)
     (TerminationGracePeriodSeconds p) (DNSPolicy p) (ServiceAccountName p) v.
End PodSpec.

(** [corev1.PodTemplateSpec]: the template's own labels and annotations, and
    the pod spec. *)
Module PodTemplateSpec.
Record t := mk {
  Labels : gmap string string;
  Annotations : gmap string string;
  Spec : PodSpec.t
}.
Definition withSpec (v : PodSpec.t) (p : t) : t :=
  mk (Labels p) (Annotations p) v.
Definition withLabels (v : gmap string string) (p : t) : t :=
  mk v (Annotations p) (Spec p).
End PodTemplateSpec.

(** [appsv1.DeploymentSpec]; [Selector] holds the match labels and
    [Strategy] the strategy type. *)
Module DeploymentSpec.
Record t := mk {
  Replicas : option Z;
  Selector : gmap string string;
  Template : PodTemplateSpec.t;
  Strategy : string
}.
Definition withReplicas (v : option Z) (s : t) : t :=
  mk v (Selector s) (Template s) (Strategy s).
Definition withTemplate (v : PodTemplateSpec.t) (s : t) : t :=
  mk (Replicas s) (Selector s) v (Strategy s).
(** Assignment to [Spec.Template.Spec]. *)
Definition withPodSpec (v : PodSpec.t) (s : t) : t :=
  withTemplate (PodTemplateSpec.withSpec v (Template s)) s.
Definition podSpec (s : t) : PodSpec.t := PodTemplateSpec.Spec (Template s).
End DeploymentSpec.

Module DeploymentStatus.
Record t := mk {
  ObservedGeneration : Z;
  Replicas : Z;
  ReadyReplicas : Z;
  AvailableReplicas : Z
}.
Definition zero : t := mk 0 0 0 0.
End DeploymentStatus.

Module Deployment.
Record t := mk {
  Meta : ObjectMeta.t;
  Spec : DeploymentSpec.t;
  Status : DeploymentStatus.t
}.
Definition withMeta (v : ObjectMeta.t) (d : t) : t := mk v (Spec d) (Status d).
Definition withSpec (v : DeploymentSpec.t) (d : t) : t := mk (Meta d) v (Status d).
End Deployment.

Module ServicePort.
Record t := mk {
  Name : string;
  Protocol : string;
  Port : Z;
  TargetPort : Z;
  NodePort : Z
}.
End ServicePort.

Module ServiceSpec.
Record t := mk {
  Ports : list ServicePort.t;
  Selector : gmap string string;
  ClusterIP : string;
  Type_ : string
}.
End ServiceSpec.

Module Service.
Record t := mk {
  Meta : ObjectMeta.t;
  Spec : ServiceSpec.t
}.
Definition withMeta (v : ObjectMeta.t) (s : t) : t := mk v (Spec s).
End Service.

(** [corev1.ConfigMap]; [Data] is nil-able. *)
Module ConfigMap.
Record t := mk {
  Meta : ObjectMeta.t;
  Data : option (gmap string string)
}.
Definition withMeta (v : ObjectMeta.t) (c : t) : t := mk v (Data c).
Definition withData (v : option (gmap string string)) (c : t) : t := mk (Meta c) v.
End ConfigMap.

(** [corev1.Secret]; the byte payloads are kept as strings. *)
Module Secret.
Record t := mk {
  Meta : ObjectMeta.t;
  Data : option (gmap string string)
}.
Definition withMeta (v : ObjectMeta.t) (c : t) : t := mk v (Data c).
Definition withData (v : option (gmap string string)) (c : t) : t := mk (Meta c) v.
End Secret.

Module ServiceAccount.
Record t := mk { Meta : ObjectMeta.t }.
Definition withMeta (v : ObjectMeta.t) (c : t) : t := mk v.
End ServiceAccount.

Module Subject.
Record t := mk {
  Kind : string;
  Name : string;
  Namespace : string
}.
End Subject.

Module RoleRef.
Record t := mk {
  APIGroup : string;
  Kind : string;
  Name : string
}.
End RoleRef.

Module ClusterRoleBinding.
Record t := mk {
  Meta : ObjectMeta.t;
  Subjects : list Subject.t;
  Ref : RoleRef.t
}.
Definition withMeta (v : ObjectMeta.t) (c : t) : t := mk v (Subjects c) (Ref c).
End ClusterRoleBinding.

Module Namespace.
Record t := mk { Meta : ObjectMeta.t }.
Definition withMeta (v : ObjectMeta.t) (c : t) : t := mk v.
End Namespace.

(** [networkingv1.Ingress], reduced to class, host and TLS secret. *)
Module Ingress.
Record t := mk {
  Meta : ObjectMeta.t;
  ClassName : string;
  Host : string;
  TLSSecretName : option string
}.
Definition withMeta (v : ObjectMeta.t) (c : t) : t :=
  mk v (ClassName c) (Host c) (TLSSecretName c).
End Ingress.

Module NodeCondition.
Record t := mk {
  Type_ : string;
  Status : string
}.
End NodeCondition.

Module NodeAddress.
Record t := mk {
  Type_ : string;
  Address : string
}.
End NodeAddress.

(** [corev1.Node], with the part of its status that [getNodeIP] reads. *)
Module Node.
Record t := mk {
  Name : string;
  Conditions : list NodeCondition.t;
  Addresses : list NodeAddress.t
}.
End Node.

Definition NodeReady : string := "Ready".
Definition ConditionTrue : string := "True".
Definition ConditionFalse : string := "False".
Definition NodeExternalIP : string := "ExternalIP".
Definition NodeInternalIP : string := "InternalIP".
Definition NodeHostName : string := "Hostname".

(** ** Errors

    A Go [error] value is either an API status error, classified by its
    reason ([errors.IsNotFound], [errors.IsConflict]), or a value built by
    [fmt.Errorf], which may wrap another error through [%w].  A nil error is
    [None] of [option error]. *)

Inductive error :=
| StatusError (reason message : string)
| Errorf (message : string)
| Wrapped (message : string) (cause : error).

Definition Error (e : error) : string :=
  match e with
  | StatusError _ m => m
  | Errorf m => m
  | Wrapped m _ => m
  end.

(** [fmt.Errorf] with a prefix and [%w]. *)
Definition wrapf (prefix : string) (e : error) : error :=
  Wrapped (prefix +:+ Error e) e.

(** [errors.ReasonForError]: the reason of the first status error on the
    chain of wrapped errors. *)
Fixpoint ReasonForError (e : error) : string :=
  match e with
  | StatusError r _ => r
  | Errorf _ => ""
  | Wrapped _ e' => ReasonForError e'
  end.

Definition StatusReasonNotFound : string := "NotFound".
Definition StatusReasonConflict : string := "Conflict".
Definition StatusReasonAlreadyExists : string := "AlreadyExists".

Definition IsNotFound (e : error) : bool :=
  bool_decide (ReasonForError e = StatusReasonNotFound).
Definition IsConflict (e : error) : bool :=
  bool_decide (ReasonForError e = StatusReasonConflict).

Definition NewNotFound (kind name : string) : error :=
  StatusError StatusReasonNotFound (kind +:+ " " +:+ name +:+ " not found").
Definition NewConflict (kind name : string) : error :=
  StatusError StatusReasonConflict
    ("Operation cannot be fulfilled on " +:+ kind +:+ " " +:+ name
     +:+ ": the object has been modified").
Definition NewAlreadyExists (kind name : string) : error :=
  StatusError StatusReasonAlreadyExists
    (kind +:+ " " +:+ name +:+ " already exists").

(** ** The [api/v1] types of the root entity *)

Module ImageRegistryConfig.
Record t := mk {
  Registry : string;
  Organization : string;
  Tag : string;
  PullPolicy : string;
  PullSecrets : list string
}.
End ImageRegistryConfig.

Module DatabaseConfig.
Record t := mk {
  Host : string;
  Port : Z;
  Database : string;
  User : string;
  Password : string
}.
End DatabaseConfig.

Module CacheConfig.
Record t := mk {
  Host : string;
  Port : Z;
  Type_ : string;
  Password : string
}.
End CacheConfig.

Module MinIOTLSConfig.
Record t := mk {
  Enabled : bool;
  SecretName : string
}.
End MinIOTLSConfig.

Module StorageConfig.
Record t := mk {
  Endpoint : string;
  AccessKey : string;
  SecretKey : string;
  Bucket : string;
  TLS : option MinIOTLSConfig.t
}.
End StorageConfig.

Module TelemetryConfig.
Record t := mk {
  Enabled : bool;
  JaegerEndpoint : string
}.
End TelemetryConfig.

Module JWTConfig.
Record t := mk {
  AccessSecret : string;
  RefreshSecret : string
}.
End JWTConfig.

(** [ServicesConfig]: the validator and the controller read only [JWT]; the
    per-service settings feed the backend builders. *)
Module ServicesConfig.
Record t := mk {
  GlobalTimeout : Z;
  JWT : JWTConfig.t
}.
End ServicesConfig.

Module IngressTLSConfig.
Record t := mk {
  Enabled : bool;
  SecretName : string
}.
End IngressTLSConfig.

Module IngressConfig.
Record t := mk {
  ClassName : string;
  Host : string;
  TLS : option IngressTLSConfig.t
}.
End IngressConfig.

Module NodePortHTTPSConfig.
Record t := mk {
  Enabled : bool;
  Port : Z;
  SecretName : string
}.
End NodePortHTTPSConfig.

Module NodePortConfig.
Record t := mk {
  HTTPPort : Z;
  HTTPS : option NodePortHTTPSConfig.t
}.
End NodePortConfig.

Module WebConfig.
Record t := mk {
  Replicas : Z;
  Image : string;
  Resources : option ResourceRequirements.t;
  ExposeType : string;
  Ingress : option IngressConfig.t;
  NodePort : option NodePortConfig.t;
  CustomNginxConfigMap : string
}.
End WebConfig.

Module KubeNovaSpec.
Record t := mk {
  ImageRegistry : option ImageRegistryConfig.t;
  Database : DatabaseConfig.t;
  Cache : CacheConfig.t;
  Storage : StorageConfig.t;
  Telemetry : option TelemetryConfig.t;
  Services : ServicesConfig.t;
  Web : WebConfig.t
}.
End KubeNovaSpec.

(** [DeploymentPhase] and [ComponentState] are string types. *)
Definition DeploymentPhase := string.
Definition PhaseValidating : DeploymentPhase := "验证中".
Definition PhasePending : DeploymentPhase := "等待中".
Definition PhaseCreating : DeploymentPhase := "创建中".
Definition PhaseReady : DeploymentPhase := "就绪".
Definition PhaseUpdating : DeploymentPhase := "更新中".
Definition PhaseFailed : DeploymentPhase := "失败".
Definition PhaseDeleting : DeploymentPhase := "删除中".

Definition ComponentState := string.
Definition ComponentStatePending : ComponentState := "等待中".
Definition ComponentStateCreating : ComponentState := "创建中".
Definition ComponentStateRunning : ComponentState := "运行中".
Definition ComponentStateReady : ComponentState := "就绪".
Definition ComponentStateFailed : ComponentState := "失败".
Definition ComponentStateUpdating : ComponentState := "更新中".

Definition ConditionTypeReady : string := "Ready".
Definition ConditionTypeValidated : string := "Validated".

(** [metav1.Time], a reading of the clock. *)
Definition Time := Z.

(** [metav1.Condition]. *)
Module Condition.
Record t := mk {
  Type_ : string;
  Status : string;
  ObservedGeneration : Z;
  LastTransitionTime : Time;
  Reason : string;
  Message : string
}.
End Condition.

Module ComponentStatus.
Record t := mk {
  State : ComponentState;
  ReadyReplicas : Z;
  DesiredReplicas : Z;
  Message : string;
  LastTransitionTime : Time
}.
End ComponentStatus.

(** [ComponentStatusMap]: the controller writes [Services] (a nil-able map
    of pointers) and [Web]; the database, cache, storage and telemetry
    entries are never touched by it. *)
Module ComponentStatusMap.
Record t := mk {
  Services : option (gmap string ComponentStatus.t);
  Web : option ComponentStatus.t
}.
Definition withServices (v : option (gmap string ComponentStatus.t)) (c : t) : t :=
  mk v (Web c).
Definition withWeb (v : option ComponentStatus.t) (c : t) : t :=
  mk (Services c) v.
End ComponentStatusMap.

Module AccessInfo.
Record t := mk {
  WebURL : string;
  DatabaseEndpoint : string;
  CacheEndpoint : string;
  StorageEndpoint : string;
  StorageConsoleURL : string;
  JaegerUIURL : string;
  ServiceEndpoints : option (gmap string string)
}.
Definition zero : t := mk "" "" "" "" "" "" None.
Definition withWebURL (v : string) (a : t) : t :=
  mk v (DatabaseEndpoint a) (CacheEndpoint a) (StorageEndpoint a)
     (StorageConsoleURL a) (JaegerUIURL a) (ServiceEndpoints a).
Definition withDatabaseEndpoint (v : string) (a : t) : t :=
  mk (WebURL a) v (CacheEndpoint a) (StorageEndpoint a)
     (StorageConsoleURL a) (JaegerUIURL a) (ServiceEndpoints a).
Definition withCacheEndpoint (v : string) (a : t) : t :=
  mk (WebURL a) (DatabaseEndpoint a) v (StorageEndpoint a)
     (StorageConsoleURL a) (JaegerUIURL a) (ServiceEndpoints a).
Definition withStorageEndpoint (v : string) (a : t) : t :=
  mk (WebURL a) (DatabaseEndpoint a) (CacheEndpoint a) v
     (StorageConsoleURL a) (JaegerUIURL a) (ServiceEndpoints a).
Definition withJaegerUIURL (v : string) (a : t) : t :=
  mk (WebURL a) (DatabaseEndpoint a) (CacheEndpoint a) (StorageEndpoint a)
     (StorageConsoleURL a) v (ServiceEndpoints a).
Definition withServiceEndpoints (v : option (gmap string string)) (a : t) : t :=
  mk (WebURL a) (DatabaseEndpoint a) (CacheEndpoint a) (StorageEndpoint a)
     (StorageConsoleURL a) (JaegerUIURL a) v.
End AccessInfo.

Module KubeNovaStatus.
Record t := mk {
  Phase : DeploymentPhase;
  Conditions : list Condition.t;
  ComponentStatus : ComponentStatusMap.t;
  AccessInfo : option AccessInfo.t;
  Message : string;
  LastUpdateTime : Time;
  ObservedGeneration : Z
}.
Definition zero : t :=
  mk "" [] (ComponentStatusMap.mk None None) None "" 0 0.
Definition withConditions (v : list Condition.t) (s : t) : t :=
  mk (Phase s) v (ComponentStatus s) (AccessInfo s) (Message s)
     (LastUpdateTime s) (ObservedGeneration s).
Definition withComponentStatus (v : ComponentStatusMap.t) (s : t) : t :=
  mk (Phase s) (Conditions s) v (AccessInfo s) (Message s)
     (LastUpdateTime s) (ObservedGeneration s).
Definition withAccessInfo (v : option AccessInfo.t) (s : t) : t :=
  mk (Phase s) (Conditions s) (ComponentStatus s) v (Message s)
     (LastUpdateTime s) (ObservedGeneration s).
End KubeNovaStatus.

(** The root entity. *)
Module KubeNova.
Record t := mk {
  Meta : ObjectMeta.t;
  Spec : KubeNovaSpec.t;
  Status : KubeNovaStatus.t
}.
Definition withMeta (v : ObjectMeta.t) (k : t) : t := mk v (Spec k) (Status k).
Definition withStatus (v : KubeNovaStatus.t) (k : t) : t := mk (Meta k) (Spec k) v.
Definition Name (k : t) : string := ObjectMeta.Name (Meta k).
Definition Namespace (k : t) : string := ObjectMeta.Namespace (Meta k).
Definition Generation (k : t) : Z := ObjectMeta.Generation (Meta k).
Definition ResourceVersion (k : t) : nat := ObjectMeta.ResourceVersion (Meta k).
End KubeNova.

(** *** Helper methods of the [api/v1] types *)

(** [KubeNova.GetImageRegistry]. *)
Definition GetImageRegistry (k : KubeNova.t) : ImageRegistryConfig.t :=
  match KubeNovaSpec.ImageRegistry (KubeNova.Spec k) with
  | Some r => r
  | None =>
      ImageRegistryConfig.mk "registry.cn-hangzhou.aliyuncs.com" "kube-nova"
        "latest" "Always" []
  end.

(** [KubeNova.IsTelemetryEnabled]. *)
Definition IsTelemetryEnabled (k : KubeNova.t) : bool :=
  match KubeNovaSpec.Telemetry (KubeNova.Spec k) with
  | Some t => TelemetryConfig.Enabled t
  | None => false
  end.

(** [TelemetryConfig.ValidateTelemetryConfig]. *)
Definition ValidateTelemetryConfig (t : TelemetryConfig.t) : option error :=
  if negb (TelemetryConfig.Enabled t) then None
  else if bool_decide (TelemetryConfig.JaegerEndpoint t = "") then
    Some (Errorf "链路追踪已启用但未配置 Jaeger 端点地址")
  else None.

(** [MinIOTLSConfig.ValidateMinIOTLS]. *)
Definition ValidateMinIOTLS (tls : MinIOTLSConfig.t) : option error :=
  if negb (MinIOTLSConfig.Enabled tls) then None
  else if bool_decide (MinIOTLSConfig.SecretName tls = "") then
    Some (Errorf "MinIO TLS 已启用但未指定证书 Secret 名称")
  else None.

(** [WebConfig.ValidateWebConfig]. *)
Definition ValidateWebConfig (w : WebConfig.t) : option error :=
  if bool_decide (WebConfig.ExposeType w = "ingress") then
    match WebConfig.Ingress w with
    | None => Some (Errorf "暴露方式为 ingress 但未配置 Ingress")
    | Some ing =>
        if bool_decide (IngressConfig.Host ing = "") then
          Some (Errorf "ingress 配置缺少域名")
        else
          match IngressConfig.TLS ing with
          | Some tls =>
              if IngressTLSConfig.Enabled tls
                 && bool_decide (IngressTLSConfig.SecretName tls = "")
              then Some (Errorf "ingress TLS 已启用但未指定证书 Secret 名称")
              else None
          | None => None
          end
    end
  else if bool_decide (WebConfig.ExposeType w = "nodeport") then
    match WebConfig.NodePort w with
    | Some np =>
        match NodePortConfig.HTTPS np with
        | Some https =>
            if NodePortHTTPSConfig.Enabled https
               && bool_decide (NodePortHTTPSConfig.SecretName https = "")
            then Some (Errorf "NodePort HTTPS 已启用但未指定证书 Secret 名称")
            else None
        | None => None
        end
    | None => None
    end
  else Some (Errorf ("不支持的暴露方式: " +:+ WebConfig.ExposeType w)).

(** [StorageConfig.GetStorageEndpoint]. *)
Definition GetStorageEndpoint (s : StorageConfig.t) : string :=
  match StorageConfig.TLS s with
  | Some tls =>
      if MinIOTLSConfig.Enabled tls then "https://" +:+ StorageConfig.Endpoint s
      else "http://" +:+ StorageConfig.Endpoint s
  | None => "http://" +:+ StorageConfig.Endpoint s
  end.

(** [CacheConfig.GetCacheEndpoint]: [fmt.Sprintf("%s:%d", Host, Port)]. *)
Definition GetCacheEndpoint (c : CacheConfig.t) : string :=
  CacheConfig.Host c +:+ ":" +:+ pretty (CacheConfig.Port c).

(** [DatabaseConfig.GetDatabaseEndpoint]. *)
Definition GetDatabaseEndpoint (d : DatabaseConfig.t) : string :=
  DatabaseConfig.Host d +:+ ":" +:+ pretty (DatabaseConfig.Port d).

(** [WebConfig.GetWebReplicas]. *)
Definition GetWebReplicas (w : WebConfig.t) : Z :=
  if bool_decide (WebConfig.Replicas w <= 0) then 3 else WebConfig.Replicas w.

(** ** The validator *)

Definition validateDatabase (db : DatabaseConfig.t) : option error :=
  if bool_decide (DatabaseConfig.Host db = "") then
    Some (Errorf "数据库主机地址不能为空")
  else if bool_decide (DatabaseConfig.Database db = "") then
    Some (Errorf "数据库名称不能为空")
  else if bool_decide (DatabaseConfig.User db = "") then
    Some (Errorf "数据库用户名不能为空")
  else if bool_decide (DatabaseConfig.Password db = "") then
    Some (Errorf "数据库密码不能为空")
  else if bool_decide (DatabaseConfig.Port db <= 0)
          || bool_decide (DatabaseConfig.Port db > 65535) then
    Some (Errorf ("数据库端口无效: " +:+ pretty (DatabaseConfig.Port db)))
  else None.

Definition validateCache (cache : CacheConfig.t) : option error :=
  if bool_decide (CacheConfig.Host cache = "") then
    Some (Errorf "redis 主机地址不能为空")
  else if bool_decide (CacheConfig.Port cache <= 0)
          || bool_decide (CacheConfig.Port cache > 65535) then
    Some (Errorf ("redis 端口无效: " +:+ pretty (CacheConfig.Port cache)))
  else if bool_decide (CacheConfig.Type_ cache ≠ "node")
          && bool_decide (CacheConfig.Type_ cache ≠ "cluster") then
    Some (Errorf ("redis 类型必须是 node 或 cluster，当前值: "
                  +:+ CacheConfig.Type_ cache))
  else None.

Definition validateStorage (storage : StorageConfig.t) : option error :=
  if bool_decide (StorageConfig.Endpoint storage = "") then
    Some (Errorf "存储端点地址不能为空")
  else if bool_decide (StorageConfig.AccessKey storage = "") then
    Some (Errorf "存储访问密钥不能为空")
  else if bool_decide (StorageConfig.SecretKey storage = "") then
    Some (Errorf "存储密钥不能为空")
  else if bool_decide (StorageConfig.Bucket storage = "") then
    Some (Errorf "存储桶名称不能为空")
  else
    match StorageConfig.TLS storage with
    | Some tls =>
        if MinIOTLSConfig.Enabled tls then
          match ValidateMinIOTLS tls with
          | Some err => Some (wrapf "MinIO TLS 配置错误: " err)
          | None => None
          end
        else None
    | None => None
    end.

Definition validateJWT (jwt : JWTConfig.t) : option error :=
  if bool_decide (JWTConfig.AccessSecret jwt = "") then
    Some (Errorf "访问令牌密钥不能为空")
  else if bool_decide (String.length (JWTConfig.AccessSecret jwt) < 32)%nat then
    Some (Errorf ("访问令牌密钥长度至少需要 32 个字符，当前长度: "
                  +:+ pretty (String.length (JWTConfig.AccessSecret jwt))))
  else if bool_decide (JWTConfig.RefreshSecret jwt = "") then
    Some (Errorf "刷新令牌密钥不能为空")
  else if bool_decide (String.length (JWTConfig.RefreshSecret jwt) < 32)%nat then
    Some (Errorf ("刷新令牌密钥长度至少需要 32 个字符，当前长度: "
                  +:+ pretty (String.length (JWTConfig.RefreshSecret jwt))))
  else None.

(** [validator.ValidateKubeNova]. *)
Definition ValidateKubeNova (kn : KubeNova.t) : option error :=
  let spec := KubeNova.Spec kn in
  match validateDatabase (KubeNovaSpec.Database spec) with
  | Some err => Some (wrapf "数据库配置错误: " err)
  | None =>
  match validateCache (KubeNovaSpec.Cache spec) with
  | Some err => Some (wrapf "缓存配置错误: " err)
  | None =>
  match validateStorage (KubeNovaSpec.Storage spec) with
  | Some err => Some (wrapf "存储配置错误: " err)
  | None =>
  match (if IsTelemetryEnabled kn then
           match KubeNovaSpec.Telemetry spec with
           | Some t => ValidateTelemetryConfig t
           | None => None
           end
         else None) with
  | Some err => Some (wrapf "链路追踪配置错误: " err)
  | None =>
  match validateJWT (ServicesConfig.JWT (KubeNovaSpec.Services spec)) with
  | Some err => Some (wrapf "JWT 配置错误: " err)
  | None =>
  match ValidateWebConfig (KubeNovaSpec.Web spec) with
  | Some err => Some (wrapf "web 配置错误: " err)
  | None => None
  end end end end end end.

(** ** Builders

    The RBAC builders and the web workload builder are embedded from their
    sources; of the web deployment the modelled fields are filled exactly as
    [buildWebDeployment] fills them (affinity, probes and the update
    strategy's parameters have no counterpart in the object model). *)

(** [builder.ServiceAccountName]. *)
Definition ServiceAccountName : string := "kube-nova-sa".

Definition rbacLabels (kn : KubeNova.t) (namespace : string) : gmap string string :=
  list_to_map
    [("app.kubernetes.io/name", "kube-nova");
     ("app.kubernetes.io/instance", KubeNova.Name kn);
     ("app.kubernetes.io/managed-by", "kube-nova-operator");
     ("app.kubernetes.io/namespace", namespace);
     ("app.kubernetes.io/component", "rbac")].

(** [builder.BuildServiceAccount]. *)
Definition BuildServiceAccount (kn : KubeNova.t) (namespace : string)
  : ServiceAccount.t :=
  ServiceAccount.mk
    (ObjectMeta.named namespace ServiceAccountName (rbacLabels kn namespace)).

(** [builder.BuildClusterRoleBinding]; the binding is cluster-scoped, so its
    metadata carries no namespace. *)
Definition BuildClusterRoleBinding (kn : KubeNova.t) (namespace : string)
  : ClusterRoleBinding.t :=
  ClusterRoleBinding.mk
    (ObjectMeta.named ""
       ("kube-nova-" +:+ namespace +:+ "-" +:+ KubeNova.Name kn +:+ "-cluster-admin")
       (rbacLabels kn namespace))
    [Subject.mk "ServiceAccount" ServiceAccountName namespace]
    (RoleRef.mk "rbac.authorization.k8s.io" "ClusterRole" "cluster-admin").

(** The condition under which the web tier serves HTTPS on a node port with
    a certificate secret (shared by [getWebVolumeMounts] and
    [getWebVolumes]). *)
Definition nodePortHTTPS (kn : KubeNova.t) : option NodePortHTTPSConfig.t :=
  let web := KubeNovaSpec.Web (KubeNova.Spec kn) in
  if bool_decide (WebConfig.ExposeType web = "nodeport") then
    match WebConfig.NodePort web with
    | Some np =>
        match NodePortConfig.HTTPS np with
        | Some https =>
            if NodePortHTTPSConfig.Enabled https then Some https else None
        | None => None
        end
    | None => None
    end
  else None.

(** [getWebPorts]. *)
Definition getWebPorts (kn : KubeNova.t) : list ContainerPort.t :=
  let ports := [ContainerPort.mk "http" 80 "TCP"] in
  match nodePortHTTPS kn with
  | Some _ => ports ++ [ContainerPort.mk "https" 443 "TCP"]
  | None => ports
  end.

(** [getWebResourceRequirements]. *)
Definition getWebResourceRequirements (kn : KubeNova.t) : ResourceRequirements.t :=
  match WebConfig.Resources (KubeNovaSpec.Web (KubeNova.Spec kn)) with
  | Some r => r
  | None =>
      ResourceRequirements.mk
        (Some (list_to_map [("memory", "512Mi"); ("cpu", "500m")]))
        (Some (list_to_map [("memory", "128Mi"); ("cpu", "100m")]))
  end.

(** [getWebVolumeMounts]: the configuration volume is mounted twice, once
    per file. *)
Definition getWebVolumeMounts (kn : KubeNova.t) : list VolumeMount.t :=
  let mounts :=
    [VolumeMount.mk "cache" false "/var/cache/nginx" "";
     VolumeMount.mk "logs" false "/var/log/nginx" "";
     VolumeMount.mk "run" false "/var/run" ""] in
  let mounts :=
    mounts ++
    [VolumeMount.mk "nginx-config" false "/etc/nginx/nginx.conf" "nginx.conf";
     VolumeMount.mk "nginx-config" false "/etc/nginx/conf.d/default.conf"
       "default.conf"] in
  match nodePortHTTPS kn with
  | Some https =>
      if bool_decide (NodePortHTTPSConfig.SecretName https ≠ "") then
        mounts ++ [VolumeMount.mk "tls-certs" true "/etc/nginx/certs" ""]
      else mounts
  | None => mounts
  end.

(** [getWebVolumes]. *)
Definition getWebVolumes (kn : KubeNova.t) (namespace : string) : list Volume.t :=
  let custom := WebConfig.CustomNginxConfigMap (KubeNovaSpec.Web (KubeNova.Spec kn)) in
  let configMapName :=
    if bool_decide (custom ≠ "") then custom else "frontend-nginx-config" in
  let volumes :=
    [Volume.mk "nginx-config"
       (ConfigMapVolumeSource configMapName
          [("nginx.conf", "nginx.conf"); ("default.conf", "default.conf")]);
     Volume.mk "cache" (EmptyDirVolumeSource (Some (1 * 1024 * 1024 * 1024)));
     Volume.mk "logs" (EmptyDirVolumeSource (Some (500 * 1024 * 1024)));
     Volume.mk "run" (EmptyDirVolumeSource (Some (10 * 1024 * 1024)))] in
  match nodePortHTTPS kn with
  | Some https =>
      if bool_decide (NodePortHTTPSConfig.SecretName https ≠ "") then
        volumes ++
        [Volume.mk "tls-certs"
           (SecretVolumeSource (NodePortHTTPSConfig.SecretName https)
              (Some false) [])]
      else volumes
  | None => volumes
  end.

Definition webLabels (kn : KubeNova.t) : gmap string string :=
  list_to_map
    [("app", "kube-nova-web");
     ("tier", "frontend");
     ("app.kubernetes.io/name", "kube-nova");
     ("app.kubernetes.io/instance", KubeNova.Name kn);
     ("app.kubernetes.io/component", "web");
     ("app.kubernetes.io/managed-by", "kube-nova-operator")].

(** [buildWebDeployment].  No service account is named for the web tier. *)
Definition buildWebDeployment (kn : KubeNova.t) (namespace : string)
  : Deployment.t :=
  let registry := GetImageRegistry kn in
  let replicas := GetWebReplicas (KubeNovaSpec.Web (KubeNova.Spec kn)) in
  let image :=
    ImageRegistryConfig.Registry registry +:+ "/"
    +:+ ImageRegistryConfig.Organization registry +:+ "/kube-nova-web:"
    +:+ ImageRegistryConfig.Tag registry in
  let image :=
    if bool_decide (WebConfig.Image (KubeNovaSpec.Web (KubeNova.Spec kn)) ≠ "")
    then WebConfig.Image (KubeNovaSpec.Web (KubeNova.Spec kn)) else image in
  let labels := webLabels kn in
  let podSpec :=
    PodSpec.mk
      (getWebVolumes kn namespace)
      [Container.mk "kube-nova-web" image
         (ImageRegistryConfig.PullPolicy registry)
         (getWebPorts kn)
         [EnvVar.mk "TZ" "Asia/Shanghai" None;
          EnvVar.mk "NGINX_WORKER_PROCESSES" "auto" None;
          EnvVar.mk "NGINX_WORKER_CONNECTIONS" "4096" None]
         (getWebResourceRequirements kn)
         (getWebVolumeMounts kn)]
      "Always" (Some 30) "ClusterFirst" "" [] in
  let podSpec :=
    if bool_decide (0 < length (ImageRegistryConfig.PullSecrets registry))%nat
    then PodSpec.withImagePullSecrets
           (ImageRegistryConfig.PullSecrets registry) podSpec
    else podSpec in
  Deployment.mk
    (ObjectMeta.named namespace "kube-nova-web" labels)
    (DeploymentSpec.mk (Some replicas)
       {["app" := "kube-nova-web"]}
       (PodTemplateSpec.mk labels ∅ podSpec)
       "RollingUpdate")
    DeploymentStatus.zero.

(** [buildWebService] (session affinity and traffic policy are not
    modelled). *)
Definition buildWebService (kn : KubeNova.t) (namespace : string) : Service.t :=
  let web := KubeNovaSpec.Web (KubeNova.Spec kn) in
  let http := ServicePort.mk "http" "TCP" 80 80 0 in
  let meta := ObjectMeta.named namespace "kube-nova-web" (webLabels kn) in
  let selector : gmap string string := {["app" := "kube-nova-web"]} in
  if bool_decide (WebConfig.ExposeType web = "ingress") then
    Service.mk meta (ServiceSpec.mk [http] selector "" "ClusterIP")
  else if bool_decide (WebConfig.ExposeType web = "nodeport") then
    let http :=
      match WebConfig.NodePort web with
      | Some np =>
          if bool_decide (NodePortConfig.HTTPPort np > 0)
          then ServicePort.mk "http" "TCP" 80 80 (NodePortConfig.HTTPPort np)
          else http
      | None => http
      end in
    let ports :=
      match nodePortHTTPS kn with
      | Some https =>
          [http;
           ServicePort.mk "https" "TCP" 443 443
             (if bool_decide (NodePortHTTPSConfig.Port https > 0)
              then NodePortHTTPSConfig.Port https else 0)]
      | None => [http]
      end in
    Service.mk meta (ServiceSpec.mk ports selector "" "NodePort")
  else Service.mk meta (ServiceSpec.mk [http] selector "" "").

(** ** The diff engine *)

Definition compareInt32Ptr (a b : option Z) : bool :=
  match a, b with
  | None, None => true
  | None, Some _ | Some _, None => false
  | Some x, Some y => bool_decide (x = y)
  end.

(** The map [compareEnvVars] builds from one list: literal values by name,
    later entries overwriting earlier ones, entries with an empty literal
    value left out. *)
Definition envStep (m : gmap string string) (env : EnvVar.t)
  : gmap string string :=
  if bool_decide (EnvVar.Value env ≠ "")
  then <[EnvVar.Name env := EnvVar.Value env]> m else m.

Definition envMap (l : list EnvVar.t) : gmap string string :=
  foldl envStep ∅ l.

Definition compareEnvVars (a b : list EnvVar.t) : bool :=
  if bool_decide (length a ≠ length b) then false
  else bool_decide (envMap a = envMap b).

Definition compareResourceRequirements (a b : ResourceRequirements.t) : bool :=
  bool_decide (ResourceRequirements.Requests a = ResourceRequirements.Requests b)
  && bool_decide (ResourceRequirements.Limits a = ResourceRequirements.Limits b).

(** The map [compareVolumeMounts] builds from the observed mounts. *)
Definition mountStep (m : gmap string VolumeMount.t) (vm : VolumeMount.t)
  : gmap string VolumeMount.t :=
  <[VolumeMount.Name vm := vm]> m.

Definition mountMap (l : list VolumeMount.t) : gmap string VolumeMount.t :=
  foldl mountStep ∅ l.

(** The second loop of [compareVolumeMounts], over the desired mounts. *)
Fixpoint mountsMatch (aMap : gmap string VolumeMount.t) (b : list VolumeMount.t)
  : bool :=
  match b with
  | [] => true
  | vm :: rest =>
      match aMap !! VolumeMount.Name vm with
      | Some existingVM =>
          if bool_decide (VolumeMount.MountPath existingVM ≠ VolumeMount.MountPath vm)
          then false else mountsMatch aMap rest
      | None => false
      end
  end.

(** The test one iteration of that loop makes. *)
Definition mountOk (aMap : gmap string VolumeMount.t) (vm : VolumeMount.t) : bool :=
  match aMap !! VolumeMount.Name vm with
  | Some existingVM =>
      bool_decide (VolumeMount.MountPath existingVM = VolumeMount.MountPath vm)
  | None => false
  end.

Definition compareVolumeMounts (a b : list VolumeMount.t) : bool :=
  if bool_decide (length a ≠ length b) then false
  else mountsMatch (mountMap a) b.

(** The name set [compareVolumes] builds (a [map[string]bool]; a missing key
    reads as [false]). *)
Definition volumeStep (m : gmap string bool) (v : Volume.t) : gmap string bool :=
  <[Volume.Name v := true]> m.

Definition volumeNames (l : list Volume.t) : gmap string bool :=
  foldl volumeStep ∅ l.

Fixpoint volumesMatch (aMap : gmap string bool) (b : list Volume.t) : bool :=
  match b with
  | [] => true
  | v :: rest =>
      if negb (default false (aMap !! Volume.Name v)) then false
      else volumesMatch aMap rest
  end.

Definition compareVolumes (a b : list Volume.t) : bool :=
  if bool_decide (length a ≠ length b) then false
  else volumesMatch (volumeNames a) b.

(** [deploymentSpecEqual]. *)
Definition deploymentSpecEqual (existing desired : DeploymentSpec.t) : bool :=
  let ep := DeploymentSpec.podSpec existing in
  let dp := DeploymentSpec.podSpec desired in
  if negb (compareInt32Ptr (DeploymentSpec.Replicas existing)
             (DeploymentSpec.Replicas desired)) then false
  else if bool_decide (length (PodSpec.Containers ep) ≠ length (PodSpec.Containers dp))
  then false
  else if negb
            match PodSpec.Containers ep, PodSpec.Containers dp with
            | existingContainer :: _, desiredContainer :: _ =>
                if bool_decide (Container.Image existingContainer
                                ≠ Container.Image desiredContainer) then false
                else if negb (compareEnvVars (Container.Env existingContainer)
                                (Container.Env desiredContainer)) then false
                else if negb (compareResourceRequirements
                                (Container.Resources existingContainer)
                                (Container.Resources desiredContainer)) then false
                else if negb (compareVolumeMounts
                                (Container.VolumeMounts existingContainer)
                                (Container.VolumeMounts desiredContainer)) then false
                else true
            | _, _ => true
            end
  then false
  else if negb (compareVolumes (PodSpec.Volumes ep) (PodSpec.Volumes dp)) then false
  else if bool_decide (PodSpec.ServiceAccountName ep ≠ PodSpec.ServiceAccountName dp)
  then false
  else true.

(** *** What the diff engine reads

    [diffView] collects the fields of a deployment spec that
    [deploymentSpecEqual] reads: the replica pointer, the number of
    containers, the image, environment, resources and mounts of the first
    container, the pod volumes and the service account name.  It is used to
    state that the comparison depends on nothing else. *)
Module DiffView.
Record t := mk {
  Replicas : option Z;
  NContainers : nat;
  First : option (string * list EnvVar.t * ResourceRequirements.t
                  * list VolumeMount.t);
  Volumes : list Volume.t;
  ServiceAccountName : string
}.
End DiffView.

Definition diffView (s : DeploymentSpec.t) : DiffView.t :=
  let p := DeploymentSpec.podSpec s in
  DiffView.mk
    (DeploymentSpec.Replicas s)
    (length (PodSpec.Containers p))
    (match PodSpec.Containers p with
     | c :: _ => Some (Container.Image c, Container.Env c,
                       Container.Resources c, Container.VolumeMounts c)
     | [] => None
     end)
    (PodSpec.Volumes p)
    (PodSpec.ServiceAccountName p).

(** [s] with the environment and mount lists of its first container
    replaced (nothing changes when there is no container). *)
Definition withFirstContainerLists (env : list EnvVar.t)
    (mounts : list VolumeMount.t) (s : DeploymentSpec.t) : DeploymentSpec.t :=
  let p := DeploymentSpec.podSpec s in
  match PodSpec.Containers p with
  | c :: cs =>
      DeploymentSpec.withPodSpec
        (PodSpec.withContainers
           (Container.mk (Container.Name c) (Container.Image c)
              (Container.ImagePullPolicy c) (Container.Ports c) env
              (Container.Resources c) mounts :: cs) p) s
  | [] => s
  end.

Definition firstContainer (s : DeploymentSpec.t) : option Container.t :=
  head (PodSpec.Containers (DeploymentSpec.podSpec s)).

(** ** The resource store and the API client

    The store is the external collaborator of the engine: objects are kept
    by kind, namespace and name; every stored object carries a version
    token; a write that names a stale token is refused with a conflict.
    On top of it the client may answer any call with an injected error (a
    network failure, a conflict caused by a concurrent writer, ...): the
    [faults] script of the world is consumed one entry per call, [Some e]
    making the call fail with [e] without the store serving it.  A conflict
    injected on a write stands for a concurrent writer that got in first:
    the stored object then carries a later version token.  Every call and
    its reply are appended to [trace]. *)

Inductive Object :=
| OKubeNova (o : KubeNova.t)
| ODeployment (o : Deployment.t)
| OService (o : Service.t)
| OConfigMap (o : ConfigMap.t)
| OSecret (o : Secret.t)
| OServiceAccount (o : ServiceAccount.t)
| OClusterRoleBinding (o : ClusterRoleBinding.t)
| ONamespace (o : Namespace.t)
| OIngress (o : Ingress.t).

Definition KubeNovaKind : string := "KubeNova".

Definition objKind (o : Object) : string :=
  match o with
  | OKubeNova _ => KubeNovaKind
  | ODeployment _ => "Deployment"
  | OService _ => "Service"
  | OConfigMap _ => "ConfigMap"
  | OSecret _ => "Secret"
  | OServiceAccount _ => "ServiceAccount"
  | OClusterRoleBinding _ => "ClusterRoleBinding"
  | ONamespace _ => "Namespace"
  | OIngress _ => "Ingress"
  end.

Definition objMeta (o : Object) : ObjectMeta.t :=
  match o with
  | OKubeNova x => KubeNova.Meta x
  | ODeployment x => Deployment.Meta x
  | OService x => Service.Meta x
  | OConfigMap x => ConfigMap.Meta x
  | OSecret x => Secret.Meta x
  | OServiceAccount x => ServiceAccount.Meta x
  | OClusterRoleBinding x => ClusterRoleBinding.Meta x
  | ONamespace x => Namespace.Meta x
  | OIngress x => Ingress.Meta x
  end.

Definition objWithMeta (m : ObjectMeta.t) (o : Object) : Object :=
  match o with
  | OKubeNova x => OKubeNova (KubeNova.withMeta m x)
  | ODeployment x => ODeployment (Deployment.withMeta m x)
  | OService x => OService (Service.withMeta m x)
  | OConfigMap x => OConfigMap (ConfigMap.withMeta m x)
  | OSecret x => OSecret (Secret.withMeta m x)
  | OServiceAccount x => OServiceAccount (ServiceAccount.withMeta m x)
  | OClusterRoleBinding x => OClusterRoleBinding (ClusterRoleBinding.withMeta m x)
  | ONamespace x => ONamespace (Namespace.withMeta m x)
  | OIngress x => OIngress (Ingress.withMeta m x)
  end.

(** Kind, namespace (empty for cluster-scoped kinds) and name. *)
Abbreviation Key := (string * string * string)%type.

Definition objKey (o : Object) : Key :=
  (objKind o, ObjectMeta.Namespace (objMeta o), ObjectMeta.Name (objMeta o)).

Definition keyKind (k : Key) : string := k.1.1.
Definition keyName (k : Key) : string := k.2.

Inductive Reply :=
| RObject (o : Object)
| RNodes (items : list Node.t)
| RDone
| RError (e : error).

Inductive Call :=
| CGet (k : Key)
| CList (kind : string)
| CCreate (o : Object)
| CUpdate (o : Object)
| CStatusUpdate (o : Object)
| CDelete (o : Object).

Inductive Event :=
| ECall (c : Call) (r : Reply)
| ESleep (ms : Z).

Record World := mkWorld {
  objects : gmap Key Object;
  nodes : list Node.t;
  faults : list (option error);
  clock : Z;
  trace : list Event
}.

(** *** What the store answers *)

Definition bumpVersion (cur : Object) (o : Object) : Object :=
  objWithMeta
    (ObjectMeta.withResourceVersion
       (S (ObjectMeta.ResourceVersion (objMeta cur))) (objMeta o)) o.

(** A write is refused when it names a version token other than the stored
    one (an unset token, 0, is unconditional). *)
Definition staleVersion (cur o : Object) : bool :=
  bool_decide (ObjectMeta.ResourceVersion (objMeta o) ≠ 0%nat)
  && bool_decide (ObjectMeta.ResourceVersion (objMeta o)
                  ≠ ObjectMeta.ResourceVersion (objMeta cur)).

Definition serveGet (k : Key) (s : gmap Key Object) : Reply * gmap Key Object :=
  match s !! k with
  | Some o => (RObject o, s)
  | None => (RError (NewNotFound (keyKind k) (keyName k)), s)
  end.

Definition serveCreate (o : Object) (s : gmap Key Object)
  : Reply * gmap Key Object :=
  match s !! objKey o with
  | Some _ => (RError (NewAlreadyExists (objKind o) (keyName (objKey o))), s)
  | None =>
      let o' := objWithMeta (ObjectMeta.withResourceVersion 1%nat (objMeta o)) o in
      (RObject o', <[objKey o := o']> s)
  end.

(** What an update of the main resource stores: the root entity has a status
    sub-resource, so its stored status is kept; the deletion timestamp is
    the store's to set. *)
Definition mergeUpdate (cur o : Object) : Object :=
  let o :=
    match o, cur with
    | OKubeNova new, OKubeNova old =>
        OKubeNova (KubeNova.withStatus (KubeNova.Status old) new)
    | _, _ => o
    end in
  objWithMeta
    (ObjectMeta.withDeletionTimestamp
       (ObjectMeta.DeletionTimestamp (objMeta cur)) (objMeta o)) o.

(** An object marked for deletion disappears with its last finalizer. *)
Definition serveUpdate (o : Object) (s : gmap Key Object)
  : Reply * gmap Key Object :=
  match s !! objKey o with
  | None => (RError (NewNotFound (objKind o) (keyName (objKey o))), s)
  | Some cur =>
      if staleVersion cur o then
        (RError (NewConflict (objKind o) (keyName (objKey o))), s)
      else
        let o' := bumpVersion cur (mergeUpdate cur o) in
        match ObjectMeta.DeletionTimestamp (objMeta cur),
              ObjectMeta.Finalizers (objMeta o') with
        | Some _, [] => (RObject o', delete (objKey o) s)
        | _, _ => (RObject o', <[objKey o := o']> s)
        end
  end.

(** An update of the status sub-resource stores the submitted status on the
    current object and nothing else. *)
Definition serveStatusUpdate (o : Object) (s : gmap Key Object)
  : Reply * gmap Key Object :=
  match s !! objKey o with
  | None => (RError (NewNotFound (objKind o) (keyName (objKey o))), s)
  | Some cur =>
      if staleVersion cur o then
        (RError (NewConflict (objKind o) (keyName (objKey o))), s)
      else
        match o, cur with
        | OKubeNova new, OKubeNova old =>
            let o' := bumpVersion cur
                        (OKubeNova (KubeNova.withStatus (KubeNova.Status new) old)) in
            (RObject o', <[objKey o := o']> s)
        | _, _ => (RError (Errorf "the kind has no status sub-resource"), s)
        end
  end.

Definition serveDelete (now : Z) (o : Object) (s : gmap Key Object)
  : Reply * gmap Key Object :=
  match s !! objKey o with
  | None => (RError (NewNotFound (objKind o) (keyName (objKey o))), s)
  | Some cur =>
      match ObjectMeta.Finalizers (objMeta cur) with
      | [] => (RDone, delete (objKey o) s)
      | _ :: _ =>
          match ObjectMeta.DeletionTimestamp (objMeta cur) with
          | Some _ => (RDone, s)
          | None =>
              (RDone,
               <[objKey o :=
                   objWithMeta
                     (ObjectMeta.withDeletionTimestamp (Some now) (objMeta cur))
                     cur]> s)
          end
      end
  end.

(** *** The monad of the reconciler

    A computation takes a world and either finishes with a value or
    panics. *)

Inductive Outcome (A : Type) :=
| Done (a : A) (w : World)
| Panic (w : World).
Arguments Done {A} a w.
Arguments Panic {A} w.

Definition M (A : Type) : Type := World → Outcome A.

Definition ret {A} (a : A) : M A := fun w => Done a w.

Definition bind {A B} (m : M A) (f : A → M B) : M B :=
  fun w =>
    match m w with
    | Done a w' => f a w'
    | Panic w' => Panic w'
    end.

Notation "'let*' x ':=' m 'in' k" := (bind m (fun x => k))
  (at level 10, x name, m at level 100, k at level 200).
Notation "'let*' ' pat ':=' m 'in' k" :=
  (bind m (fun x => match x with pat => k end))
  (at level 10, pat pattern, m at level 100, k at level 200).

(** Dereferencing a pointer. *)
Definition deref {A} (p : option A) : M A :=
  fun w => match p with Some a => Done a w | None => Panic w end.

(** [metav1.Now()] reads the clock. *)
Definition Now : M Time := fun w => Done (clock w) w.

(** [time.Sleep], in milliseconds. *)
Definition Sleep (ms : Z) : M unit :=
  fun w =>
    Done tt (mkWorld (objects w) (nodes w) (faults w) (clock w + ms)
               (trace w ++ [ESleep ms])).

Definition Millisecond : Z := 1.
Definition Second : Z := 1000.
Definition Minute : Z := 60000.

(** One call on the client: the next entry of the fault script decides
    whether the store serves the call; the call and its reply are logged. *)
Definition nextFault (w : World) : option error :=
  match faults w with
  | Some e :: _ => Some e
  | _ => None
  end.

Definition answer (w : World) (served : Reply * gmap Key Object)
  : Reply * gmap Key Object :=
  match nextFault w with
  | Some e => (RError e, objects w)
  | None => served
  end.

Definition logged (w : World) (c : Call) (r : Reply) (objs : gmap Key Object)
  : World :=
  mkWorld objs (nodes w) (tail (faults w)) (clock w) (trace w ++ [ECall c r]).

(** What a concurrent writer leaves of the object that the write [c] names:
    the same object under the next version token. *)
Definition overtaken (c : Call) (s : gmap Key Object) : gmap Key Object :=
  match c with
  | CUpdate o | CStatusUpdate o =>
      match s !! objKey o with
      | Some cur => <[objKey o := bumpVersion cur cur]> s
      | None => s
      end
  | _ => s
  end.

(** The store once the call [c] is over: a conflict injected on it is the
    trace of a concurrent writer. *)
Definition settled (w : World) (c : Call) (s : gmap Key Object)
  : gmap Key Object :=
  match nextFault w with
  | Some e => if IsConflict e then overtaken c s else s
  | None => s
  end.

Definition invoke (c : Call)
    (serve : World → Reply * gmap Key Object) : M Reply :=
  fun w =>
    let a := answer w (serve w) in
    Done a.1 (logged w c a.1 (settled w c a.2)).

(** The result of a call that fills in an object. *)
Inductive Result (T : Type) :=
| Found (t : T)
| Failed (e : error).
Arguments Found {T} t.
Arguments Failed {T} e.

(** The kinds the client is used at ([client.Object]). *)
Class Resource (T : Type) := {
  kindOf : string;
  wrap : T → Object;
  unwrap : Object → option T;
  wrap_kind : ∀ t, objKind (wrap t) = kindOf;
  unwrap_wrap : ∀ o t, unwrap o = Some t ↔ o = wrap t
}.
Arguments kindOf T {_}.

(** The metadata of a typed object, and its replacement. *)
Definition metaOf {T} `{Resource T} (t : T) : ObjectMeta.t := objMeta (wrap t).
Definition withMetaOf {T} `{Resource T} (m : ObjectMeta.t) (t : T) : T :=
  default t (unwrap (objWithMeta m (wrap t))).

#[global, refine] Instance KubeNova_resource : Resource KubeNova.t :=
  {| kindOf := KubeNovaKind; wrap := OKubeNova;
     unwrap o := match o with OKubeNova x => Some x | _ => None end |}.
Proof. - done. - intros [] ?; split; naive_solver. Defined.

#[global, refine] Instance Deployment_resource : Resource Deployment.t :=
  {| kindOf := "Deployment"; wrap := ODeployment;
     unwrap o := match o with ODeployment x => Some x | _ => None end |}.
Proof. - done. - intros [] ?; split; naive_solver. Defined.

#[global, refine] Instance Service_resource : Resource Service.t :=
  {| kindOf := "Service"; wrap := OService;
     unwrap o := match o with OService x => Some x | _ => None end |}.
Proof. - done. - intros [] ?; split; naive_solver. Defined.

#[global, refine] Instance ConfigMap_resource : Resource ConfigMap.t :=
  {| kindOf := "ConfigMap"; wrap := OConfigMap;
     unwrap o := match o with OConfigMap x => Some x | _ => None end |}.
Proof. - done. - intros [] ?; split; naive_solver. Defined.

#[global, refine] Instance Secret_resource : Resource Secret.t :=
  {| kindOf := "Secret"; wrap := OSecret;
     unwrap o := match o with OSecret x => Some x | _ => None end |}.
Proof. - done. - intros [] ?; split; naive_solver. Defined.

#[global, refine] Instance ServiceAccount_resource : Resource ServiceAccount.t :=
  {| kindOf := "ServiceAccount"; wrap := OServiceAccount;
     unwrap o := match o with OServiceAccount x => Some x | _ => None end |}.
Proof. - done. - intros [] ?; split; naive_solver. Defined.

#[global, refine] Instance ClusterRoleBinding_resource
  : Resource ClusterRoleBinding.t :=
  {| kindOf := "ClusterRoleBinding"; wrap := OClusterRoleBinding;
     unwrap o := match o with OClusterRoleBinding x => Some x | _ => None end |}.
Proof. - done. - intros [] ?; split; naive_solver. Defined.

#[global, refine] Instance Namespace_resource : Resource Namespace.t :=
  {| kindOf := "Namespace"; wrap := ONamespace;
     unwrap o := match o with ONamespace x => Some x | _ => None end |}.
Proof. - done. - intros [] ?; split; naive_solver. Defined.

#[global, refine] Instance Ingress_resource : Resource Ingress.t :=
  {| kindOf := "Ingress"; wrap := OIngress;
     unwrap o := match o with OIngress x => Some x | _ => None end |}.
Proof. - done. - intros [] ?; split; naive_solver. Defined.

(** Reading a typed object out of a reply. *)
Definition asResult {T} `{Resource T} (r : Reply) : Result T :=
  match r with
  | RObject o =>
      match unwrap o with
      | Some t => Found t
      | None => Failed (Errorf "unexpected kind in reply")
      end
  | RError e => Failed e
  | RNodes _ | RDone => Failed (Errorf "unexpected reply")
  end.

Definition asError (r : Reply) : option error :=
  match r with
  | RError e => Some e
  | _ => None
  end.

(** [client.Get] into a typed object. *)
Definition Get (T : Type) `{Resource T} (namespace name : string) : M (Result T) :=
  let* r := invoke (CGet (kindOf T, namespace, name))
         (fun w => serveGet (kindOf T, namespace, name) (objects w)) in
  ret (asResult r).

(** [client.Create]. *)
Definition Create {T} `{Resource T} (t : T) : M (option error) :=
  let* r := invoke (CCreate (wrap t)) (fun w => serveCreate (wrap t) (objects w)) in
  ret (asError r).

(** [client.Update]; on success the caller's object is refreshed from the
    reply. *)
Definition Update {T} `{Resource T} (t : T) : M (Result T) :=
  let* r := invoke (CUpdate (wrap t)) (fun w => serveUpdate (wrap t) (objects w)) in
  ret (asResult r).

(** [client.Status().Update]. *)
Definition StatusUpdate {T} `{Resource T} (t : T) : M (Result T) :=
  let* r := invoke (CStatusUpdate (wrap t))
         (fun w => serveStatusUpdate (wrap t) (objects w)) in
  ret (asResult r).

(** [client.Delete]. *)
Definition Delete {T} `{Resource T} (t : T) : M (option error) :=
  let* r := invoke (CDelete (wrap t))
         (fun w => serveDelete (clock w) (wrap t) (objects w)) in
  ret (asError r).

(** [client.List] of the cluster's nodes. *)
Definition ListNodes : M (Result (list Node.t)) :=
  let* r := invoke (CList "Node") (fun w => (RNodes (nodes w), objects w)) in
  ret match r with
      | RNodes items => Found items
      | RError e => Failed e
      | _ => Failed (Errorf "unexpected reply")
      end.

(** ** Library helpers used by the controller *)

(** [controllerutil.ContainsFinalizer], [AddFinalizer], [RemoveFinalizer]. *)
Definition ContainsFinalizer (m : ObjectMeta.t) (finalizer : string) : bool :=
  bool_decide (finalizer ∈ ObjectMeta.Finalizers m).

Definition AddFinalizer (m : ObjectMeta.t) (finalizer : string) : ObjectMeta.t :=
  if ContainsFinalizer m finalizer then m
  else ObjectMeta.withFinalizers (ObjectMeta.Finalizers m ++ [finalizer]) m.

Definition RemoveFinalizer (m : ObjectMeta.t) (finalizer : string) : ObjectMeta.t :=
  ObjectMeta.withFinalizers
    (filter (fun f => f ≠ finalizer) (ObjectMeta.Finalizers m)) m.

(** [metav1.Time.IsZero] on a nil-able timestamp. *)
Definition IsZero (t : option Z) : bool :=
  match t with
  | None => true
  | Some z => bool_decide (z = 0)
  end.

(** [controllerutil.SetControllerReference] with the root entity as owner:
    the owner must live in the object's namespace, the object must not
    already be controlled by another owner, and the reference is added or
    replaced. *)
Definition controllerRef (owner : KubeNova.t) : OwnerReference.t :=
  OwnerReference.mk KubeNovaKind (KubeNova.Name owner) true true.

Definition referSameObject (a b : OwnerReference.t) : bool :=
  bool_decide (OwnerReference.Kind a = OwnerReference.Kind b)
  && bool_decide (OwnerReference.Name a = OwnerReference.Name b).

Fixpoint upsertOwnerRef (ref : OwnerReference.t) (refs : list OwnerReference.t)
  : list OwnerReference.t :=
  match refs with
  | [] => [ref]
  | r :: rest =>
      if referSameObject r ref then ref :: rest
      else r :: upsertOwnerRef ref rest
  end.

Definition setControllerReferenceMeta (owner : KubeNova.t) (m : ObjectMeta.t)
  : Result ObjectMeta.t :=
  let ownerNs := KubeNova.Namespace owner in
  let ref := controllerRef owner in
  if bool_decide (ownerNs ≠ "") && bool_decide (ObjectMeta.Namespace m = "") then
    Failed (Errorf "cluster-scoped resource must not have a namespace-scoped owner")
  else if bool_decide (ownerNs ≠ "")
          && bool_decide (ownerNs ≠ ObjectMeta.Namespace m) then
    Failed (Errorf "cross-namespace owner references are disallowed")
  else
    match List.find OwnerReference.Controller (ObjectMeta.OwnerReferences m) with
    | Some existing =>
        if negb (referSameObject existing ref) then
          Failed (Errorf "object is already owned by another controller")
        else
          Found (ObjectMeta.withOwnerReferences
                   (upsertOwnerRef ref (ObjectMeta.OwnerReferences m)) m)
    | None =>
        Found (ObjectMeta.withOwnerReferences
                 (upsertOwnerRef ref (ObjectMeta.OwnerReferences m)) m)
    end.

Definition SetControllerReference {T} `{Resource T} (owner : KubeNova.t) (t : T)
  : Result T :=
  match setControllerReferenceMeta owner (metaOf t) with
  | Found m => Found (withMetaOf m t)
  | Failed e => Failed e
  end.

(** [meta.SetStatusCondition]: the condition of the same type is updated in
    place (its transition time only when the status changes), a new type is
    appended; a zero transition time is replaced by the current time. *)
Fixpoint setCondition (now : Time) (conditions : list Condition.t)
    (newCondition : Condition.t) : list Condition.t :=
  match conditions with
  | [] =>
      [Condition.mk (Condition.Type_ newCondition) (Condition.Status newCondition)
         (Condition.ObservedGeneration newCondition)
         (if bool_decide (Condition.LastTransitionTime newCondition = 0)
          then now else Condition.LastTransitionTime newCondition)
         (Condition.Reason newCondition) (Condition.Message newCondition)]
  | c :: rest =>
      if bool_decide (Condition.Type_ c = Condition.Type_ newCondition) then
        Condition.mk (Condition.Type_ c) (Condition.Status newCondition)
          (Condition.ObservedGeneration newCondition)
          (if bool_decide (Condition.Status c ≠ Condition.Status newCondition)
           then (if bool_decide (Condition.LastTransitionTime newCondition ≠ 0)
                 then Condition.LastTransitionTime newCondition else now)
           else Condition.LastTransitionTime c)
          (Condition.Reason newCondition) (Condition.Message newCondition)
        :: rest
      else c :: setCondition now rest newCondition
  end.

Definition SetStatusCondition (kubenova : KubeNova.t) (newCondition : Condition.t)
  : M KubeNova.t :=
  let* now := Now in
  ret (KubeNova.withStatus
         (KubeNovaStatus.withConditions
            (setCondition now (KubeNovaStatus.Conditions (KubeNova.Status kubenova))
               newCondition)
            (KubeNova.Status kubenova))
         kubenova).

(** [meta.FindStatusCondition]. *)
Definition FindStatusCondition (conditions : list Condition.t) (conditionType : string)
  : option Condition.t :=
  List.find (fun c => bool_decide (Condition.Type_ c = conditionType)) conditions.

(** ** The controller *)

Definition kubenovaFinalizer : string := "kubenova.io/finalizer".

(** [ctrl.Result]; durations are counted in milliseconds. *)
Module CtrlResult.
Record t := mk {
  Requeue : bool;
  RequeueAfter : Z
}.
Definition zero : t := mk false 0.
End CtrlResult.

(** [setStatusPhase]: changes the in-memory status only. *)
Definition setStatusPhase (kubenova : KubeNova.t) (phase : DeploymentPhase)
    (message : string) : M KubeNova.t :=
  let* now := Now in
  let st := KubeNova.Status kubenova in
  ret (KubeNova.withStatus
         (KubeNovaStatus.mk phase (KubeNovaStatus.Conditions st)
            (KubeNovaStatus.ComponentStatus st) (KubeNovaStatus.AccessInfo st)
            message now (KubeNova.Generation kubenova))
         kubenova).

(** The loop of [updateStatusWithRetry]: [remaining] iterations are left and
    [i] is the loop counter.  The caller's object comes back with the status
    and version token of the stored object when the write succeeded. *)
Fixpoint statusRetryLoop (remaining : nat) (i : Z) (kubenova : KubeNova.t)
  : M (KubeNova.t * option error) :=
  match remaining with
  | O => ret (kubenova, Some (Errorf "状态更新失败，已重试 3 次"))
  | S remaining' =>
      let* g := Get KubeNova.t (KubeNova.Namespace kubenova)
                  (KubeNova.Name kubenova) in
      match g with
      | Failed err => ret (kubenova, Some err)
      | Found latest =>
          let latest := KubeNova.withStatus (KubeNova.Status kubenova) latest in
          let* u := StatusUpdate latest in
          match u with
          | Failed err =>
              if IsConflict err && bool_decide (i < 2) then
                let* _ := Sleep (Millisecond * 100 * (i + 1)) in
                statusRetryLoop remaining' (i + 1) kubenova
              else ret (kubenova, Some err)
          | Found latest =>
              ret (KubeNova.withMeta
                     (ObjectMeta.withResourceVersion
                        (KubeNova.ResourceVersion latest)
                        (KubeNova.Meta kubenova))
                     (KubeNova.withStatus (KubeNova.Status latest) kubenova),
                   None)
          end
      end
  end.

(** [updateStatusWithRetry]: [for i := 0; i < 3; i++]. *)
Definition updateStatusWithRetry (kubenova : KubeNova.t)
  : M (KubeNova.t * option error) :=
  statusRetryLoop 3 0 kubenova.

(** The name under which [reconcileDelete] looks the cluster-scoped binding
    up: [fmt.Sprintf("kube-nova-%s-%s-cluster-admin", Namespace, Name)]. *)
Definition crbNameOf (kubenova : KubeNova.t) : string :=
  "kube-nova-" +:+ KubeNova.Namespace kubenova +:+ "-"
  +:+ KubeNova.Name kubenova +:+ "-cluster-admin".

(** [reconcileDelete]. *)
Definition reconcileDelete (kubenova : KubeNova.t)
  : M (CtrlResult.t * option error) :=
  let* kubenova := setStatusPhase kubenova PhaseDeleting "正在删除资源" in
  let* '(kubenova, _) := updateStatusWithRetry kubenova in
  let crbName := crbNameOf kubenova in
  let* g := Get ClusterRoleBinding.t "" crbName in
  let* failed :=
    match g with
    | Found crb =>
        let* d := Delete crb in
        match d with
        | Some err => if negb (IsNotFound err) then ret (Some err) else ret None
        | None => ret None
        end
    | Failed _ => ret None
    end in
  match failed with
  | Some err => ret (CtrlResult.zero, Some err)
  | None =>
      let kubenova :=
        KubeNova.withMeta
          (RemoveFinalizer (KubeNova.Meta kubenova) kubenovaFinalizer) kubenova in
      let* u := Update kubenova in
      match u with
      | Failed err => ret (CtrlResult.zero, Some err)
      | Found _ => ret (CtrlResult.zero, None)
      end
  end.

(** [reconcileValidation]: changes the in-memory status only. *)
Definition reconcileValidation (kubenova : KubeNova.t)
  : M (KubeNova.t * option error) :=
  let* kubenova := setStatusPhase kubenova PhaseValidating "正在验证配置" in
  match ValidateKubeNova kubenova with
  | Some err =>
      let* kubenova :=
        SetStatusCondition kubenova
          (Condition.mk ConditionTypeValidated ConditionFalse
             (KubeNova.Generation kubenova) 0 "ValidationFailed"
             ("配置验证失败: " +:+ Error err)) in
      ret (kubenova, Some err)
  | None =>
      let* kubenova :=
        SetStatusCondition kubenova
          (Condition.mk ConditionTypeValidated ConditionTrue
             (KubeNova.Generation kubenova) 0 "ValidationSucceeded"
             "配置验证成功") in
      ret (kubenova, None)
  end.

(** [reconcileNamespace]. *)
Definition reconcileNamespace (kubenova : KubeNova.t) : M (option error) :=
  let namespace := KubeNova.Namespace kubenova in
  let* g := Get Namespace.t "" namespace in
  match g with
  | Failed err =>
      if IsNotFound err then
        ret (Some (Errorf ("命名空间 " +:+ namespace +:+ " 不存在，请先创建命名空间")))
      else ret (Some (wrapf "获取命名空间失败: " err))
  | Found _ => ret None
  end.

(** The create-only pattern of the controller: read the object; when it is
    absent create it; when it is there leave it untouched.  [createMsg] and
    [getMsg] are the prefixes of the wrapped errors. *)
Definition createIfAbsent {T} `{Resource T} (namespace name : string) (obj : T)
    (createMsg getMsg : string) : M (option error) :=
  let* g := Get T namespace name in
  match g with
  | Failed err =>
      if IsNotFound err then
        let* c := Create obj in
        match c with
        | Some err => ret (Some (wrapf createMsg err))
        | None => ret None
        end
      else ret (Some (wrapf getMsg err))
  | Found _ => ret None
  end.

(** [reconcileRBAC]: the service account and the cluster-scoped binding are
    created when absent and never compared. *)
Definition reconcileRBAC (kubenova : KubeNova.t) : M (option error) :=
  let namespace := KubeNova.Namespace kubenova in
  let sa := BuildServiceAccount kubenova namespace in
  match SetControllerReference kubenova sa with
  | Failed err => ret (Some (wrapf "设置 ServiceAccount OwnerReference 失败: " err))
  | Found sa =>
      let* e := createIfAbsent namespace (ObjectMeta.Name (metaOf sa)) sa
                  "创建 ServiceAccount 失败: " "获取 ServiceAccount 失败: " in
      match e with
      | Some err => ret (Some err)
      | None =>
          let crb := BuildClusterRoleBinding kubenova namespace in
          createIfAbsent "" (ObjectMeta.Name (metaOf crb)) crb
            "创建 ClusterRoleBinding 失败: " "获取 ClusterRoleBinding 失败: "
      end
  end.

(** The search of [getNodeIP] over the listed nodes. *)
Definition nodeIsReady (node : Node.t) : bool :=
  existsb (fun condition =>
             bool_decide (NodeCondition.Type_ condition = NodeReady)
             && bool_decide (NodeCondition.Status condition = ConditionTrue))
          (Node.Conditions node).

Definition firstAddress (p : NodeAddress.t → bool) (addrs : list NodeAddress.t)
  : option string :=
  NodeAddress.Address <$> List.find p addrs.

Definition isExternalIP (addr : NodeAddress.t) : bool :=
  bool_decide (NodeAddress.Type_ addr = NodeExternalIP).
Definition isInternalIP (addr : NodeAddress.t) : bool :=
  bool_decide (NodeAddress.Type_ addr = NodeInternalIP).

Fixpoint readyNodeIP (items : list Node.t) : option string :=
  match items with
  | [] => None
  | node :: rest =>
      if negb (nodeIsReady node) then readyNodeIP rest
      else
        match firstAddress isExternalIP (Node.Addresses node) with
        | Some a => Some a
        | None =>
            match firstAddress isInternalIP (Node.Addresses node) with
            | Some a => Some a
            | None => readyNodeIP rest
            end
        end
  end.

Definition pickNodeIP (items : list Node.t) : string :=
  if bool_decide (length items = 0%nat) then ""
  else
    match readyNodeIP items with
    | Some a => a
    | None =>
        match items with
        | first :: _ =>
            default ""
              (firstAddress (fun addr => isExternalIP addr || isInternalIP addr)
                 (Node.Addresses first))
        | [] => ""
        end
    end.

(** [getNodeIP]. *)
Definition getNodeIP : M string :=
  let* l := ListNodes in
  match l with
  | Failed _ => ret ""
  | Found items => ret (pickNodeIP items)
  end.

Definition webServiceName : string := "kube-nova-web".

Definition findNodePort (name : string) (ports : list ServicePort.t) : option Z :=
  ServicePort.NodePort <$>
    List.find (fun port => bool_decide (ServicePort.Name port = name)
                           && bool_decide (ServicePort.NodePort port > 0)) ports.

(** [getWebNodePort]. *)
Definition getWebNodePort (kubenova : KubeNova.t) (namespace : string) : M Z :=
  let web := KubeNovaSpec.Web (KubeNova.Spec kubenova) in
  let configured :=
    match WebConfig.NodePort web with
    | Some np =>
        if bool_decide (NodePortConfig.HTTPPort np > 0)
        then NodePortConfig.HTTPPort np else 30080
    | None => 30080
    end in
  if bool_decide (WebConfig.ExposeType web ≠ "nodeport") then ret 0
  else
    let* g := Get Service.t namespace webServiceName in
    match g with
    | Failed _ => ret configured
    | Found webSvc =>
        let ports := ServiceSpec.Ports (Service.Spec webSvc) in
        let httpsEnabled :=
          match WebConfig.NodePort web with
          | Some np =>
              match NodePortConfig.HTTPS np with
              | Some https => NodePortHTTPSConfig.Enabled https
              | None => false
              end
          | None => false
          end in
        match (if httpsEnabled then findNodePort "https" ports else None) with
        | Some p => ret p
        | None =>
            match findNodePort "http" ports with
            | Some p => ret p
            | None => ret configured
            end
        end
    end.

(** Running a loop body over a list, leaving at the first error. *)
Fixpoint forEach {A} (l : list A) (body : A → M (option error)) : M (option error) :=
  match l with
  | [] => ret None
  | x :: rest =>
      let* e := body x in
      match e with
      | Some err => ret (Some err)
      | None => forEach rest body
      end
  end.

Module ServiceResources.
Record t := mk {
  Deployment : Deployment.t;
  Service : Service.t
}.
End ServiceResources.

Module WebResources.
Record t := mk {
  Deployment : Deployment.t;
  Service : Service.t;
  Ingress : option Ingress.t;
  NginxConfigMap : option ConfigMap.t
}.
End WebResources.

(** The builders the controller is parametric in: pure functions from the
    root entity to desired documents.  [BuildAllServices] returns a Go map;
    the list gives its entries in the order the [range] loop visits them. *)
Record Builders := {
  BuildSecret : KubeNova.t → string → string → Z → Secret.t;
  BuildAllConfigMaps : KubeNova.t → string → list ConfigMap.t;
  BuildAllServices : KubeNova.t → string → list (string * ServiceResources.t);
  buildNginxConfigMap : KubeNova.t → string → ConfigMap.t;
  buildWebIngress : KubeNova.t → string → option Ingress.t
}.

(** [builder.BuildWebResources]. *)
Definition BuildWebResources (b : Builders) (kn : KubeNova.t) (namespace : string)
  : WebResources.t :=
  let web := KubeNovaSpec.Web (KubeNova.Spec kn) in
  WebResources.mk
    (buildWebDeployment kn namespace)
    (buildWebService kn namespace)
    (if bool_decide (WebConfig.ExposeType web = "ingress")
     then buildWebIngress b kn namespace else None)
    (if bool_decide (WebConfig.CustomNginxConfigMap web = "")
     then Some (buildNginxConfigMap b kn namespace) else None).

(** The fields the backend update path assigns on the freshly fetched
    deployment. *)
Definition spliceService (latestDeploy deployment : Deployment.t) : Deployment.t :=
  let d := DeploymentSpec.podSpec (Deployment.Spec deployment) in
  let spec := Deployment.Spec latestDeploy in
  let spec := DeploymentSpec.withReplicas
                (DeploymentSpec.Replicas (Deployment.Spec deployment)) spec in
  let spec := DeploymentSpec.withPodSpec
                (PodSpec.withContainers (PodSpec.Containers d)
                   (DeploymentSpec.podSpec spec)) spec in
  let spec := DeploymentSpec.withPodSpec
                (PodSpec.withVolumes (PodSpec.Volumes d)
                   (DeploymentSpec.podSpec spec)) spec in
  let spec := DeploymentSpec.withPodSpec
                (PodSpec.withServiceAccountName (PodSpec.ServiceAccountName d)
                   (DeploymentSpec.podSpec spec)) spec in
  let spec := DeploymentSpec.withPodSpec
                (PodSpec.withImagePullSecrets (PodSpec.ImagePullSecrets d)
                   (DeploymentSpec.podSpec spec)) spec in
  Deployment.withSpec spec latestDeploy.

(** The fields the web update path assigns. *)
Definition spliceWeb (latestDeploy deployment : Deployment.t) : Deployment.t :=
  let d := DeploymentSpec.podSpec (Deployment.Spec deployment) in
  let spec := Deployment.Spec latestDeploy in
  let spec := DeploymentSpec.withReplicas
                (DeploymentSpec.Replicas (Deployment.Spec deployment)) spec in
  let spec := DeploymentSpec.withPodSpec
                (PodSpec.withContainers (PodSpec.Containers d)
                   (DeploymentSpec.podSpec spec)) spec in
  let spec := DeploymentSpec.withPodSpec
                (PodSpec.withVolumes (PodSpec.Volumes d)
                   (DeploymentSpec.podSpec spec)) spec in
  let spec := DeploymentSpec.withPodSpec
                (PodSpec.withImagePullSecrets (PodSpec.ImagePullSecrets d)
                   (DeploymentSpec.podSpec spec)) spec in
  Deployment.withSpec spec latestDeploy.

(** A config map is created when absent and overwritten only when its data
    differs from the desired data ([reflect.DeepEqual]). *)
Definition syncConfigMap (namespace : string) (cm : ConfigMap.t)
    (createMsg getMsg updateMsg : string) : M (option error) :=
  let* g := Get ConfigMap.t namespace (ObjectMeta.Name (ConfigMap.Meta cm)) in
  match g with
  | Failed err =>
      if IsNotFound err then
        let* c := Create cm in
        match c with
        | Some err => ret (Some (wrapf createMsg err))
        | None => ret None
        end
      else ret (Some (wrapf getMsg err))
  | Found existingCM =>
      if negb (bool_decide (ConfigMap.Data existingCM = ConfigMap.Data cm)) then
        let existingCM := ConfigMap.withData (ConfigMap.Data cm) existingCM in
        let* u := Update existingCM in
        match u with
        | Failed err => ret (Some (wrapf updateMsg err))
        | Found _ => ret None
        end
      else ret None
  end.

Definition backendServices : list string :=
  ["portal-api"; "portal-rpc"; "manager-api"; "manager-rpc";
   "workload-api"; "console-api"; "console-rpc"].

(** The classification of a backend component from its ready and desired
    replica counts; the boolean tells whether the component leaves
    [allReady] as it is. *)
Definition serviceStatus (ready desired : Z) (now : Time)
  : ComponentStatus.t * bool :=
  if bool_decide (ready = desired) then
    (ComponentStatus.mk ComponentStateReady ready desired "服务运行正常" now, true)
  else if bool_decide (ready > 0) then
    (ComponentStatus.mk ComponentStateRunning ready desired
       ("服务部分就绪 (" +:+ pretty ready +:+ "/" +:+ pretty desired +:+ ")") now,
     false)
  else
    (ComponentStatus.mk ComponentStatePending ready desired "等待 Pod 启动" now,
     false).

(** The classification of the web front end. *)
Definition webStatus (ready desired : Z) (now : Time) : ComponentStatus.t * bool :=
  if bool_decide (ready = desired) then
    (ComponentStatus.mk ComponentStateReady ready desired "Web 前端运行正常" now,
     true)
  else
    (ComponentStatus.mk ComponentStateRunning ready desired
       ("Web 前端部分就绪 (" +:+ pretty ready +:+ "/" +:+ pretty desired +:+ ")")
       now,
     false).

Section Controller.

Context (b : Builders).

(** [reconcileSecret]. *)
Definition reconcileSecret (kubenova : KubeNova.t) : M (option error) :=
  let namespace := KubeNova.Namespace kubenova in
  let* nodeIP := getNodeIP in
  let* nodePort := getWebNodePort kubenova namespace in
  let secret := BuildSecret b kubenova namespace nodeIP nodePort in
  match SetControllerReference kubenova secret with
  | Failed err => ret (Some (wrapf "设置 OwnerReference 失败: " err))
  | Found secret =>
      let* g := Get Secret.t namespace (ObjectMeta.Name (Secret.Meta secret)) in
      match g with
      | Failed err =>
          if IsNotFound err then
            let* c := Create secret in
            match c with
            | Some err => ret (Some (wrapf "创建 Secret 失败: " err))
            | None => ret None
            end
          else ret (Some (wrapf "获取 Secret 失败: " err))
      | Found existingSecret =>
          if negb (bool_decide (Secret.Data existingSecret = Secret.Data secret)) then
            let existingSecret :=
              Secret.withData (Secret.Data secret) existingSecret in
            let* u := Update existingSecret in
            match u with
            | Failed err => ret (Some (wrapf "更新 Secret 失败: " err))
            | Found _ => ret None
            end
          else ret None
      end
  end.

(** [reconcileConfigMaps]. *)
Definition reconcileConfigMaps (kubenova : KubeNova.t) : M (option error) :=
  let namespace := KubeNova.Namespace kubenova in
  let configMaps := BuildAllConfigMaps b kubenova namespace in
  forEach configMaps (fun cm =>
    match SetControllerReference kubenova cm with
    | Failed err => ret (Some (wrapf "设置 OwnerReference 失败: " err))
    | Found cm =>
        let name := ObjectMeta.Name (ConfigMap.Meta cm) in
        syncConfigMap namespace cm
          ("创建 ConfigMap " +:+ name +:+ " 失败: ")
          "获取 ConfigMap 失败: "
          ("更新 ConfigMap " +:+ name +:+ " 失败: ")
    end).

(** The workload part of one iteration of [reconcileServices]. *)
Definition reconcileServiceDeployment (kubenova : KubeNova.t) (namespace : string)
    (serviceName : string) (deployment : Deployment.t) : M (option error) :=
  match SetControllerReference kubenova deployment with
  | Failed err => ret (Some (wrapf "设置 OwnerReference 失败: " err))
  | Found deployment =>
      let name := ObjectMeta.Name (Deployment.Meta deployment) in
      let* g := Get Deployment.t namespace name in
      match g with
      | Failed err =>
          if IsNotFound err then
            let* c := Create deployment in
            match c with
            | Some err =>
                ret (Some (wrapf ("创建 Deployment " +:+ serviceName +:+ " 失败: ") err))
            | None => ret None
            end
          else ret (Some (wrapf "获取 Deployment 失败: " err))
      | Found existingDeploy =>
          if negb (deploymentSpecEqual (Deployment.Spec existingDeploy)
                     (Deployment.Spec deployment)) then
            let* g := Get Deployment.t namespace name in
            match g with
            | Failed err => ret (Some (wrapf "重新获取 Deployment 失败: " err))
            | Found latestDeploy =>
                let latestDeploy := spliceService latestDeploy deployment in
                let* u := Update latestDeploy in
                match u with
                | Failed err =>
                    ret (Some (wrapf ("更新 Deployment " +:+ serviceName
                                      +:+ " 失败: ") err))
                | Found _ => ret None
                end
            end
          else ret None
      end
  end.

(** The loop body of [reconcileServices]: the workload, then its
    network-expose document. *)
Definition reconcileServiceEntry (kubenova : KubeNova.t) (namespace : string)
    (entry : string * ServiceResources.t) : M (option error) :=
  let '(serviceName, resources) := entry in
  let* e := reconcileServiceDeployment kubenova namespace serviceName
              (ServiceResources.Deployment resources) in
  match e with
  | Some err => ret (Some err)
  | None =>
      match SetControllerReference kubenova (ServiceResources.Service resources) with
      | Failed err => ret (Some (wrapf "设置 OwnerReference 失败: " err))
      | Found service =>
          createIfAbsent namespace (ObjectMeta.Name (Service.Meta service)) service
            ("创建 Service " +:+ serviceName +:+ " 失败: ") "获取 Service 失败: "
      end
  end.

(** [reconcileServices]. *)
Definition reconcileServices (kubenova : KubeNova.t)
  : M (KubeNova.t * option error) :=
  let* kubenova := setStatusPhase kubenova PhaseCreating "正在部署后端服务" in
  let namespace := KubeNova.Namespace kubenova in
  let services := BuildAllServices b kubenova namespace in
  let* e := forEach services (reconcileServiceEntry kubenova namespace) in
  ret (kubenova, e).

(** The workload part of [reconcileWeb]. *)
Definition reconcileWebDeployment (kubenova : KubeNova.t) (namespace : string)
    (deployment : Deployment.t) : M (option error) :=
  match SetControllerReference kubenova deployment with
  | Failed err => ret (Some (wrapf "设置 OwnerReference 失败: " err))
  | Found deployment =>
      let name := ObjectMeta.Name (Deployment.Meta deployment) in
      let* g := Get Deployment.t namespace name in
      match g with
      | Failed err =>
          if IsNotFound err then
            let* c := Create deployment in
            match c with
            | Some err => ret (Some (wrapf "创建 Web Deployment 失败: " err))
            | None => ret None
            end
          else ret (Some (wrapf "获取 Web Deployment 失败: " err))
      | Found existingDeploy =>
          if negb (deploymentSpecEqual (Deployment.Spec existingDeploy)
                     (Deployment.Spec deployment)) then
            let* g := Get Deployment.t namespace name in
            match g with
            | Failed err => ret (Some (wrapf "重新获取 Web Deployment 失败: " err))
            | Found latestDeploy =>
                let latestDeploy := spliceWeb latestDeploy deployment in
                let* u := Update latestDeploy in
                match u with
                | Failed err => ret (Some (wrapf "更新 Web Deployment 失败: " err))
                | Found _ => ret None
                end
            end
          else ret None
      end
  end.

(** [reconcileWeb]. *)
Definition reconcileWeb (kubenova : KubeNova.t) : M (option error) :=
  let namespace := KubeNova.Namespace kubenova in
  let webResources := BuildWebResources b kubenova namespace in
  let* e :=
    match WebResources.NginxConfigMap webResources with
    | Some cm =>
        match SetControllerReference kubenova cm with
        | Failed err => ret (Some (wrapf "设置 OwnerReference 失败: " err))
        | Found cm =>
            syncConfigMap namespace cm "创建 Web ConfigMap 失败: "
              "获取 Web ConfigMap 失败: " "更新 Web ConfigMap 失败: "
        end
    | None => ret None
    end in
  match e with
  | Some err => ret (Some err)
  | None =>
  let* e := reconcileWebDeployment kubenova namespace
              (WebResources.Deployment webResources) in
  match e with
  | Some err => ret (Some err)
  | None =>
  let* e :=
    match SetControllerReference kubenova (WebResources.Service webResources) with
    | Failed err => ret (Some (wrapf "设置 OwnerReference 失败: " err))
    | Found service =>
        createIfAbsent namespace (ObjectMeta.Name (Service.Meta service)) service
          "创建 Web Service 失败: " "获取 Web Service 失败: "
    end in
  match e with
  | Some err => ret (Some err)
  | None =>
      match WebResources.Ingress webResources with
      | Some ingress =>
          match SetControllerReference kubenova ingress with
          | Failed err => ret (Some (wrapf "设置 OwnerReference 失败: " err))
          | Found ingress =>
              createIfAbsent namespace (ObjectMeta.Name (Ingress.Meta ingress))
                ingress "创建 Ingress 失败: " "获取 Ingress 失败: "
          end
      | None => ret None
      end
  end end end.

End Controller.

(** A loop that threads an accumulator through a list. *)
Fixpoint foldM {A B} (f : B → A → M B) (acc : B) (l : list A) : M B :=
  match l with
  | [] => ret acc
  | x :: rest => let* acc := f acc x in foldM f acc rest
  end.

(** The port scan of [updateAccessInfo]: the last port of the given name
    with a positive node port, 0 when there is none. *)
Definition lastNodePort (name : string) (ports : list ServicePort.t) : Z :=
  foldl (fun found port =>
           if bool_decide (ServicePort.Name port = name)
              && bool_decide (ServicePort.NodePort port > 0)
           then ServicePort.NodePort port else found)
        0 ports.

(** The URL [updateAccessInfo] composes in node-port mode once the
    network-expose document has been read. *)
Definition nodePortURL (nodeIP : string) (httpPort httpsPort : Z) : string :=
  if bool_decide (httpsPort > 0) then
    if bool_decide (nodeIP ≠ "") then
      "https://" +:+ nodeIP +:+ ":" +:+ pretty httpsPort
    else "https://<NODE-IP>:" +:+ pretty httpsPort
  else if bool_decide (httpPort > 0) then
    if bool_decide (nodeIP ≠ "") then
      "http://" +:+ nodeIP +:+ ":" +:+ pretty httpPort
    else "http://<NODE-IP>:" +:+ pretty httpPort
  else "NodePort (端口分配中...)".

(** [updateAccessInfo]. *)
Definition updateAccessInfo (kubenova : KubeNova.t) (namespace : string)
  : M KubeNova.t :=
  let spec := KubeNova.Spec kubenova in
  let web := KubeNovaSpec.Web spec in
  let info :=
    default AccessInfo.zero (KubeNovaStatus.AccessInfo (KubeNova.Status kubenova)) in
  let* info :=
    match (if bool_decide (WebConfig.ExposeType web = "ingress")
           then WebConfig.Ingress web else None) with
    | Some ing =>
        let protocol :=
          match IngressConfig.TLS ing with
          | Some tls => if IngressTLSConfig.Enabled tls then "https" else "http"
          | None => "http"
          end in
        ret (AccessInfo.withWebURL
               (protocol +:+ "://" +:+ IngressConfig.Host ing) info)
    | None =>
        if bool_decide (WebConfig.ExposeType web = "nodeport") then
          let* g := Get Service.t namespace webServiceName in
          match g with
          | Found webSvc =>
              let ports := ServiceSpec.Ports (Service.Spec webSvc) in
              let httpPort := lastNodePort "http" ports in
              let httpsPort := lastNodePort "https" ports in
              let* nodeIP := getNodeIP in
              ret (AccessInfo.withWebURL (nodePortURL nodeIP httpPort httpsPort) info)
          | Failed _ => ret (AccessInfo.withWebURL "Service 创建中..." info)
          end
        else ret info
    end in
  let endpoints := default ∅ (AccessInfo.ServiceEndpoints info) in
  let endpoints :=
    foldl (fun m svc => <[svc := svc +:+ "." +:+ namespace +:+ ".svc.cluster.local"]> m)
          endpoints backendServices in
  let info := AccessInfo.withServiceEndpoints (Some endpoints) info in
  let info := AccessInfo.withDatabaseEndpoint
                (GetDatabaseEndpoint (KubeNovaSpec.Database spec)) info in
  let info := AccessInfo.withCacheEndpoint
                (GetCacheEndpoint (KubeNovaSpec.Cache spec)) info in
  let info := AccessInfo.withStorageEndpoint
                (GetStorageEndpoint (KubeNovaSpec.Storage spec)) info in
  let* info :=
    if IsTelemetryEnabled kubenova then
      let* t := deref (KubeNovaSpec.Telemetry spec) in
      ret (AccessInfo.withJaegerUIURL (TelemetryConfig.JaegerEndpoint t) info)
    else ret info in
  ret (KubeNova.withStatus
         (KubeNovaStatus.withAccessInfo (Some info) (KubeNova.Status kubenova))
         kubenova).

(** One iteration of the loop of [checkComponentStatus] over the backend
    services; the accumulator is the status map and [allReady]. *)
Definition checkServiceStatus (namespace : string)
    (acc : gmap string ComponentStatus.t * bool) (serviceName : string)
  : M (gmap string ComponentStatus.t * bool) :=
  let '(services, allReady) := acc in
  let* g := Get Deployment.t namespace serviceName in
  match g with
  | Failed _ => ret (services, allReady)
  | Found deployment =>
      let* desired := deref (DeploymentSpec.Replicas (Deployment.Spec deployment)) in
      let* now := Now in
      let '(status, ok) :=
        serviceStatus (DeploymentStatus.ReadyReplicas (Deployment.Status deployment))
          desired now in
      ret (<[serviceName := status]> services, allReady && ok)
  end.

Definition withServicesStatus (services : gmap string ComponentStatus.t)
    (kubenova : KubeNova.t) : KubeNova.t :=
  let st := KubeNova.Status kubenova in
  KubeNova.withStatus
    (KubeNovaStatus.withComponentStatus
       (ComponentStatusMap.withServices (Some services)
          (KubeNovaStatus.ComponentStatus st)) st)
    kubenova.

Definition withWebStatus (status : ComponentStatus.t) (kubenova : KubeNova.t)
  : KubeNova.t :=
  let st := KubeNova.Status kubenova in
  KubeNova.withStatus
    (KubeNovaStatus.withComponentStatus
       (ComponentStatusMap.withWeb (Some status)
          (KubeNovaStatus.ComponentStatus st)) st)
    kubenova.

(** The web part of [checkComponentStatus]. *)
Definition checkWebStatus (namespace : string) (kubenova : KubeNova.t)
    (allReady : bool) : M (KubeNova.t * bool) :=
  let* g := Get Deployment.t namespace webServiceName in
  match g with
  | Found webDeployment =>
      let* desired :=
        deref (DeploymentSpec.Replicas (Deployment.Spec webDeployment)) in
      let* now := Now in
      let '(status, ok) :=
        webStatus (DeploymentStatus.ReadyReplicas (Deployment.Status webDeployment))
          desired now in
      ret (withWebStatus status kubenova, allReady && ok)
  | Failed _ => ret (kubenova, allReady)
  end.

(** The part of [checkComponentStatus] that reads the workloads: the
    in-memory root with its component statuses refreshed, and [allReady]. *)
Definition observeComponents (kubenova : KubeNova.t) : M (KubeNova.t * bool) :=
  let namespace := KubeNova.Namespace kubenova in
  let services :=
    default ∅ (ComponentStatusMap.Services
                 (KubeNovaStatus.ComponentStatus (KubeNova.Status kubenova))) in
  let* '(services, allReady) :=
    foldM (checkServiceStatus namespace) (services, true) backendServices in
  let kubenova := withServicesStatus services kubenova in
  checkWebStatus namespace kubenova allReady.

(** The part of [checkComponentStatus] that folds [allReady] into the phase
    and the Ready condition. *)
Definition resolvePhase (kubenova : KubeNova.t) (allReady : bool) : M KubeNova.t :=
  if allReady then
    let* kubenova := setStatusPhase kubenova PhaseReady "所有组件运行正常" in
    SetStatusCondition kubenova
      (Condition.mk ConditionTypeReady ConditionTrue (KubeNova.Generation kubenova)
         0 "AllComponentsReady" "所有组件运行正常")
  else
    let* kubenova := setStatusPhase kubenova PhaseCreating "部分组件尚未就绪" in
    SetStatusCondition kubenova
      (Condition.mk ConditionTypeReady ConditionFalse (KubeNova.Generation kubenova)
         0 "ComponentsNotReady" "部分组件尚未就绪").

(** [checkComponentStatus]. *)
Definition checkComponentStatus (kubenova : KubeNova.t)
  : M (KubeNova.t * option error) :=
  let namespace := KubeNova.Namespace kubenova in
  let* '(kubenova, allReady) := observeComponents kubenova in
  let* kubenova := updateAccessInfo kubenova namespace in
  let* kubenova := resolvePhase kubenova allReady in
  updateStatusWithRetry kubenova.

Section Pipeline.

Context (b : Builders).

(** What [Reconcile] does when a stage has failed: record the failure in the
    in-memory status, persist it through the retry-safe writer (a failure
    of the write is only logged) and ask for a retry in a minute. *)
Definition stageFailed (kubenova : KubeNova.t) (prefix : string) (err : error)
  : M (CtrlResult.t * option error) :=
  let* kubenova := setStatusPhase kubenova PhaseFailed (prefix +:+ Error err) in
  let* '(_, _) := updateStatusWithRetry kubenova in
  ret (CtrlResult.mk false Minute, Some err).

(** The stages of [Reconcile] once the root entity is known to be live,
    finalized and in need of work. *)
Definition runPipeline (kubenova : KubeNova.t) : M (CtrlResult.t * option error) :=
  let* '(kubenova, e) := reconcileValidation kubenova in
  match e with
  | Some err => stageFailed kubenova "配置验证失败: " err
  | None =>
  let* e := reconcileNamespace kubenova in
  match e with
  | Some err => stageFailed kubenova "Namespace 错误: " err
  | None =>
  let* e := reconcileRBAC kubenova in
  match e with
  | Some err => stageFailed kubenova "创建 RBAC 资源失败: " err
  | None =>
  let* e := reconcileSecret b kubenova in
  match e with
  | Some err => stageFailed kubenova "创建 Secret 失败: " err
  | None =>
  let* e := reconcileConfigMaps b kubenova in
  match e with
  | Some err => stageFailed kubenova "创建 ConfigMap 失败: " err
  | None =>
  let* '(kubenova, e) := reconcileServices b kubenova in
  match e with
  | Some err => stageFailed kubenova "部署后端服务失败: " err
  | None =>
  let* e := reconcileWeb b kubenova in
  match e with
  | Some err => stageFailed kubenova "部署 Web 前端失败: " err
  | None =>
  let* '(_, e) := checkComponentStatus kubenova in
  match e with
  | Some _ => ret (CtrlResult.mk false (30 * Second), None)
  | None => ret (CtrlResult.mk false (5 * Minute), None)
  end end end end end end end end.

(** [Reconcile]; the request names the root entity by namespace and name. *)
Definition Reconcile (req : string * string) : M (CtrlResult.t * option error) :=
  let* g := Get KubeNova.t req.1 req.2 in
  match g with
  | Failed err =>
      if IsNotFound err then ret (CtrlResult.zero, None)
      else ret (CtrlResult.zero, Some err)
  | Found kubenova =>
      if negb (IsZero (ObjectMeta.DeletionTimestamp (KubeNova.Meta kubenova))) then
        reconcileDelete kubenova
      else if negb (ContainsFinalizer (KubeNova.Meta kubenova) kubenovaFinalizer) then
        let kubenova :=
          KubeNova.withMeta
            (AddFinalizer (KubeNova.Meta kubenova) kubenovaFinalizer) kubenova in
        let* u := Update kubenova in
        match u with
        | Failed err => ret (CtrlResult.zero, Some err)
        | Found _ => ret (CtrlResult.mk true 0, None)
        end
      else if bool_decide (KubeNovaStatus.ObservedGeneration (KubeNova.Status kubenova)
                           = KubeNova.Generation kubenova)
              && bool_decide (KubeNovaStatus.Phase (KubeNova.Status kubenova)
                              = PhaseReady) then
        ret (CtrlResult.mk false (5 * Minute), None)
      else runPipeline kubenova
  end.

End Pipeline.

(** ** Sample inputs

    A well-formed root entity in node-port mode, and stand-ins for the
    template builders (documents of the right kinds and names, with
    abbreviated payloads), used to run the engine on concrete worlds. *)

Definition sampleSpec : KubeNovaSpec.t :=
  KubeNovaSpec.mk None
    (DatabaseConfig.mk "mysql.db" 3306 "kubenova" "nova" "secret")
    (CacheConfig.mk "redis.cache" 6379 "node" "")
    (StorageConfig.mk "minio.storage:9000" "access" "secret" "nova" None)
    None
    (ServicesConfig.mk 30
       (JWTConfig.mk "0123456789abcdef0123456789abcdef"
          "fedcba9876543210fedcba9876543210"))
    (WebConfig.mk 2 "" None "nodeport" None None "").

Definition sampleMeta (generation : Z) (finalizers : list string)
    (deletion : option Z) : ObjectMeta.t :=
  ObjectMeta.mk "nova" "prod" ∅ ∅ 7%nat generation deletion finalizers [].

(** A status left by an earlier pass that observed generation 1. *)
Definition staleStatus : KubeNovaStatus.t :=
  KubeNovaStatus.mk PhaseCreating [] (ComponentStatusMap.mk None None) None
    "部分组件尚未就绪" 100 1.

Definition sampleRoot : KubeNova.t :=
  KubeNova.mk (sampleMeta 2 [kubenovaFinalizer] None) sampleSpec staleStatus.

Definition sampleBackend (kn : KubeNova.t) (namespace name : string)
  : ServiceResources.t :=
  ServiceResources.mk
    (Deployment.mk
       (ObjectMeta.named namespace name {["app" := name]})
       (DeploymentSpec.mk (Some 2) {["app" := name]}
          (PodTemplateSpec.mk {["app" := name]} ∅
             (PodSpec.mk
                [Volume.mk "config" (ConfigMapVolumeSource (name +:+ "-config") [])]
                [Container.mk name
                   ("registry.cn-hangzhou.aliyuncs.com/kube-nova/" +:+ name
                    +:+ ":latest")
                   "Always"
                   [ContainerPort.mk "" 8810 "TCP";
                    ContainerPort.mk "metrics" 9999 "TCP"]
                   [EnvVar.mk "TZ" "Asia/Shanghai" None;
                    EnvVar.mk "POD_NAMESPACE" ""
                      (Some (FieldRef "metadata.namespace"))]
                   (ResourceRequirements.mk
                      (Some (list_to_map [("memory", "512Mi"); ("cpu", "1000m")]))
                      (Some (list_to_map [("memory", "256Mi"); ("cpu", "200m")])))
                   [VolumeMount.mk "config" true "/app/etc" ""]]
                "Always" (Some 30) "ClusterFirst" ServiceAccountName []))
          "RollingUpdate")
       DeploymentStatus.zero)
    (Service.mk
       (ObjectMeta.named namespace name {["app" := name]})
       (ServiceSpec.mk [ServicePort.mk "http" "TCP" 8810 8810 0]
          {["app" := name]} "" "ClusterIP")).

Definition sampleBuilders : Builders :=
  {| BuildSecret kn namespace nodeIP nodePort :=
       Secret.mk
         (ObjectMeta.named namespace "kube-nova-secret" ∅)
         (Some (list_to_map
                  [("MYSQL_HOST",
                    DatabaseConfig.Host (KubeNovaSpec.Database (KubeNova.Spec kn)));
                   ("REDIS_HOST",
                    CacheConfig.Host (KubeNovaSpec.Cache (KubeNova.Spec kn)))]));
     BuildAllConfigMaps kn namespace :=
       [ConfigMap.mk (ObjectMeta.named namespace "portal-api-config" ∅)
          (Some {["config.yaml" := "Name: portal-api"]})];
     BuildAllServices kn namespace :=
       [("portal-api", sampleBackend kn namespace "portal-api")];
     buildNginxConfigMap kn namespace :=
       ConfigMap.mk (ObjectMeta.named namespace "frontend-nginx-config" ∅)
         (Some (list_to_map [("nginx.conf", "worker_processes auto;");
                             ("default.conf", "server { listen 80; }")]));
     buildWebIngress kn namespace :=
       match WebConfig.Ingress (KubeNovaSpec.Web (KubeNova.Spec kn)) with
       | Some ing =>
           Some (Ingress.mk (ObjectMeta.named namespace "kube-nova-web" ∅)
                   (IngressConfig.ClassName ing) (IngressConfig.Host ing) None)
       | None => None
       end |}.

Definition rootKey (req : string * string) : Key := (KubeNovaKind, req.1, req.2).

Definition sampleReq : string * string := ("prod", "nova").

Definition prodNamespace : Object :=
  ONamespace (Namespace.mk (ObjectMeta.mk "prod" "" ∅ ∅ 1%nat 0 None [] [])).

(** Every object of a well-formed store sits under its own key. *)
Definition wfStore (s : gmap Key Object) : Prop :=
  map_Forall (fun k o => objKey o = k) s.

(** A world holding the given objects, with the given fault script. *)
Definition worldOf (objs : list Object) (nodeItems : list Node.t)
    (script : list (option error)) : World :=
  mkWorld (list_to_map ((fun o => (objKey o, o)) <$> objs)) nodeItems script 1000 [].

(** The result of a run and the world it leaves, for inspection. *)
Definition finalWorld {A} (o : Outcome A) : World :=
  match o with Done _ w | Panic w => w end.
Definition resultOf {A} (o : Outcome A) : option A :=
  match o with Done a _ => Some a | Panic _ => None end.

(** *** Sample workloads for the diff engine *)

(** A backend workload whose user-supplied environment overrides [TZ]: the
    builder appends the user's variables to its own. *)
Definition overrideEnv : list EnvVar.t :=
  [EnvVar.mk "TZ" "Asia/Shanghai" None;
   EnvVar.mk "POD_NAMESPACE" "" (Some (FieldRef "metadata.namespace"));
   EnvVar.mk "TZ" "UTC" None].

Definition overrideEnvReordered : list EnvVar.t :=
  [EnvVar.mk "TZ" "UTC" None;
   EnvVar.mk "POD_NAMESPACE" "" (Some (FieldRef "metadata.namespace"));
   EnvVar.mk "TZ" "Asia/Shanghai" None].

Definition sampleBackendSpec : DeploymentSpec.t :=
  Deployment.Spec
    (ServiceResources.Deployment (sampleBackend sampleRoot "prod" "portal-api")).

Definition overrideSpec : DeploymentSpec.t :=
  withFirstContainerLists overrideEnv
    [VolumeMount.mk "config" true "/app/etc" ""] sampleBackendSpec.

Definition overrideSpecReordered : DeploymentSpec.t :=
  withFirstContainerLists overrideEnvReordered
    [VolumeMount.mk "config" true "/app/etc" ""] sampleBackendSpec.

(** The root entity with a user-supplied nginx configuration. *)
Definition withCustomNginx (name : string) (kn : KubeNova.t) : KubeNova.t :=
  let spec := KubeNova.Spec kn in
  let web := KubeNovaSpec.Web spec in
  KubeNova.mk (KubeNova.Meta kn)
    (KubeNovaSpec.mk (KubeNovaSpec.ImageRegistry spec) (KubeNovaSpec.Database spec)
       (KubeNovaSpec.Cache spec) (KubeNovaSpec.Storage spec)
       (KubeNovaSpec.Telemetry spec) (KubeNovaSpec.Services spec)
       (WebConfig.mk (WebConfig.Replicas web) (WebConfig.Image web)
          (WebConfig.Resources web) (WebConfig.ExposeType web)
          (WebConfig.Ingress web) (WebConfig.NodePort web) name))
    (KubeNova.Status kn).

(** *** Sample worlds *)

Definition conflictError : error := NewConflict KubeNovaKind "nova".

Definition timeoutError : error :=
  StatusError "Timeout" "the server was unable to return a response in time".

(** The root is stored; the writes of the first two attempts of the status
    writer meet a conflict. *)
Definition conflictWorld : World :=
  worldOf [OKubeNova sampleRoot] []
    [None; Some conflictError; None; Some conflictError].

(** The root entity once its deletion was requested. *)
Definition deletingRoot : KubeNova.t :=
  KubeNova.mk (sampleMeta 2 [kubenovaFinalizer] (Some 900)) sampleSpec staleStatus.

(** The cluster-scoped binding as the RBAC stage stored it. *)
Definition storedBinding : ClusterRoleBinding.t :=
  ClusterRoleBinding.withMeta
    (ObjectMeta.withResourceVersion 1%nat
       (ClusterRoleBinding.Meta (BuildClusterRoleBinding sampleRoot "prod")))
    (BuildClusterRoleBinding sampleRoot "prod").

Definition bindingKey : Key :=
  ("ClusterRoleBinding", "", "kube-nova-prod-nova-cluster-admin").

(** Deletion was requested and the binding exists; the read of the binding
    (the fourth call of the pass, after the read of the root and the two
    calls of the status writer) times out. *)
Definition deleteWorld : World :=
  worldOf [OKubeNova deletingRoot; OClusterRoleBinding storedBinding] []
    [None; None; None; Some timeoutError].

(** The same world with a store that answers every call. *)
Definition deleteWorldQuiet : World :=
  worldOf [OKubeNova deletingRoot; OClusterRoleBinding storedBinding] [] [].

Definition isDelete (ev : Event) : bool :=
  match ev with
  | ECall (CDelete _) _ => true
  | _ => false
  end.

(** A stored workload with the given replica counts. *)
Definition storedWorkload (namespace name : string) (replicas : option Z)
    (ready : Z) : Object :=
  ODeployment
    (Deployment.mk
       (ObjectMeta.mk name namespace {["app" := name]} ∅ 3%nat 1 None [] [])
       (DeploymentSpec.withReplicas replicas
          (Deployment.Spec
             (ServiceResources.Deployment (sampleBackend sampleRoot namespace name))))
       (DeploymentStatus.mk 1 ready ready ready)).

(** Workloads caught while they scale: [portal-api] still has three ready
    replicas for a desired count of two, [manager-api] is scaled to zero,
    the web front end has none of its two replicas ready. *)
Definition scalingWorld : World :=
  worldOf
    [OKubeNova sampleRoot;
     storedWorkload "prod" "portal-api" (Some 2) 3;
     storedWorkload "prod" "manager-api" (Some 0) 0;
     storedWorkload "prod" "kube-nova-web" (Some 2) 0]
    [] [].

(** The state recorded for a backend service, and for the web front end. *)
Definition serviceStateOf (kn : KubeNova.t) (name : string) : option ComponentState :=
  match ComponentStatusMap.Services
          (KubeNovaStatus.ComponentStatus (KubeNova.Status kn)) with
  | Some services => ComponentStatus.State <$> services !! name
  | None => None
  end.

Definition webStateOf (kn : KubeNova.t) : option ComponentState :=
  ComponentStatus.State <$>
    ComponentStatusMap.Web (KubeNovaStatus.ComponentStatus (KubeNova.Status kn)).

(** The web front end is exposed on a node port; the only node of the
    cluster reports a host name and no address. *)
Definition sampleWebService : Service.t :=
  Service.mk
    (ObjectMeta.mk "kube-nova-web" "prod" ∅ ∅ 2%nat 0 None [] [])
    (ServiceSpec.mk [ServicePort.mk "http" "TCP" 80 80 31080] ∅ "10.0.0.12" "NodePort").

Definition nodePortWorld : World :=
  worldOf [OKubeNova sampleRoot; OService sampleWebService]
    [Node.mk "node-1" [NodeCondition.mk NodeReady ConditionTrue]
       [NodeAddress.mk NodeHostName "node-1"]]
    [].

(** The workload document a read event returned, if it is one. *)
Definition workloadRead (ev : Event) : option Deployment.t :=
  match ev with
  | ECall (CGet k) (RObject (ODeployment d)) =>
      if bool_decide (k.1.1 = "Deployment") then Some d else None
  | _ => None
  end.

(** All workloads are stored and ready except [portal-api], which has no
    ready replica; the status left by the previous pass says so.  In this
    pass the read of [portal-api] times out. *)
Definition pendingStatus : KubeNovaStatus.t :=
  KubeNovaStatus.mk PhaseCreating []
    (ComponentStatusMap.mk
       (Some {["portal-api" :=
                 ComponentStatus.mk ComponentStatePending 0 2 "等待 Pod 启动" 100]})
       None)
    None "部分组件尚未就绪" 100 2.

Definition pendingRoot : KubeNova.t :=
  KubeNova.mk (sampleMeta 2 [kubenovaFinalizer] None) sampleSpec pendingStatus.

Definition unreadableWorld : World :=
  worldOf
    [OKubeNova pendingRoot;
     storedWorkload "prod" "portal-api" (Some 2) 0;
     storedWorkload "prod" "portal-rpc" (Some 2) 2;
     storedWorkload "prod" "manager-api" (Some 2) 2;
     storedWorkload "prod" "manager-rpc" (Some 2) 2;
     storedWorkload "prod" "workload-api" (Some 2) 2;
     storedWorkload "prod" "console-api" (Some 2) 2;
     storedWorkload "prod" "console-rpc" (Some 2) 2;
     storedWorkload "prod" "kube-nova-web" (Some 2) 2]
    [] [Some timeoutError].

(** Two components observed, in the states Ready and Running. *)
Definition readyRunningWorld : World :=
  worldOf
    [OKubeNova sampleRoot;
     storedWorkload "prod" "portal-api" (Some 2) 2;
     storedWorkload "prod" "portal-rpc" (Some 2) 1]
    [] [].

(** Two components observed, both Ready. *)
Definition readyReadyWorld : World :=
  worldOf
    [OKubeNova sampleRoot;
     storedWorkload "prod" "portal-api" (Some 2) 2;
     storedWorkload "prod" "portal-rpc" (Some 2) 2]
    [] [].

(** *** Sample workloads for the update path *)

(** The web workload as other actors left it in the store: it runs under a
    service account of its own, was restarted by hand (the annotation of
    the template), is scaled to one replica and is replaced, not rolled. *)
Definition legacyWeb : Deployment.t :=
  let built := buildWebDeployment sampleRoot "prod" in
  let spec := Deployment.Spec built in
  Deployment.mk
    (ObjectMeta.mk "kube-nova-web" "prod"
       (ObjectMeta.Labels (Deployment.Meta built))
       {["deployment.kubernetes.io/revision" := "4"]} 9%nat 4 None [] [])
    (DeploymentSpec.mk (Some 1) (DeploymentSpec.Selector spec)
       (PodTemplateSpec.mk
          (PodTemplateSpec.Labels (DeploymentSpec.Template spec))
          {["kubectl.kubernetes.io/restartedAt" := "2024-05-01T08:00:00Z"]}
          (PodSpec.withServiceAccountName "legacy-sa" (DeploymentSpec.podSpec spec)))
       "Recreate")
    (DeploymentStatus.mk 4 1 1 1).

(** The backend workload [portal-api] scaled by hand to five replicas. *)
Definition portalApiDrifted : Deployment.t :=
  Deployment.mk
    (ObjectMeta.mk "portal-api" "prod" {["app" := "portal-api"]} ∅ 3%nat 1 None [] [])
    (DeploymentSpec.withReplicas (Some 5)
       (Deployment.Spec
          (ServiceResources.Deployment (sampleBackend sampleRoot "prod" "portal-api"))))
    (DeploymentStatus.mk 1 5 5 5).

Definition driftWorld : World :=
  worldOf
    [OKubeNova sampleRoot; ODeployment portalApiDrifted; ODeployment legacyWeb]
    [] [].

(** The desired [portal-api] workload as the builder makes it, and once the
    root entity is set as its controller. *)
Definition portalApiBuilt : Deployment.t :=
  ServiceResources.Deployment (sampleBackend sampleRoot "prod" "portal-api").

Definition portalApiDesired : Deployment.t :=
  Deployment.withMeta
    (ObjectMeta.withOwnerReferences [controllerRef sampleRoot]
       (Deployment.Meta portalApiBuilt))
    portalApiBuilt.

(** The account named by a workload document, and the document a
    successful update call handed to the store. *)
Definition accountOf (o : Object) : option string :=
  match o with
  | ODeployment d =>
      Some (PodSpec.ServiceAccountName (DeploymentSpec.podSpec (Deployment.Spec d)))
  | _ => None
  end.

Definition writtenBy (ev : Event) : option Object :=
  match ev with
  | ECall (CUpdate o) (RObject _) => Some o
  | _ => None
  end.


(** * Properties of the diff engine *)

Section DiffEngine.

Implicit Types (a b : list EnvVar.t).

Lemma envStep_comm (m : gmap string string) x y :
  EnvVar.Name x ≠ EnvVar.Name y →
  envStep (envStep m x) y = envStep (envStep m y) x.
Proof.
  intros Hne. unfold envStep.
  repeat case_bool_decide; try reflexivity.
  by apply insert_insert_ne.
Qed.

Lemma foldl_envStep_perm a a' :
  a ≡ₚ a' → NoDup (EnvVar.Name <$> a) →
  ∀ m, foldl envStep m a = foldl envStep m a'.
Proof.
  induction 1 as [|x l l' Hp IH|x y l|l1 l2 l3 H12 IH12 H23 IH23]; intros Hnd m.
  - reflexivity.
  - simpl. apply IH. by inversion Hnd.
  - simpl. rewrite envStep_comm; [reflexivity|].
    rewrite !fmap_cons in Hnd. apply NoDup_cons in Hnd as [Hin _].
    intros Heq. apply Hin. rewrite Heq. by left.
  - rewrite IH12 by done. apply IH23. by rewrite <- H12.
Qed.

Lemma envMap_perm a a' :
  a ≡ₚ a' → NoDup (EnvVar.Name <$> a) → envMap a' = envMap a.
Proof. intros Hp Hnd. unfold envMap. symmetry. by apply foldl_envStep_perm. Qed.

Lemma compareEnvVars_perm_l a a' b :
  a ≡ₚ a' → NoDup (EnvVar.Name <$> a) →
  compareEnvVars a' b = compareEnvVars a b.
Proof.
  intros Hp Hnd. unfold compareEnvVars.
  rewrite (envMap_perm a a' Hp Hnd), (Permutation_length Hp). reflexivity.
Qed.

Lemma compareEnvVars_perm_r a b b' :
  b ≡ₚ b' → NoDup (EnvVar.Name <$> b) →
  compareEnvVars a b' = compareEnvVars a b.
Proof.
  intros Hp Hnd. unfold compareEnvVars.
  rewrite (envMap_perm b b' Hp Hnd), (Permutation_length Hp). reflexivity.
Qed.

Lemma foldl_mountStep_perm (a a' : list VolumeMount.t) :
  a ≡ₚ a' → NoDup (VolumeMount.Name <$> a) →
  ∀ m, foldl mountStep m a = foldl mountStep m a'.
Proof.
  induction 1 as [|x l l' Hp IH|x y l|l1 l2 l3 H12 IH12 H23 IH23]; intros Hnd m.
  - reflexivity.
  - simpl. apply IH. by inversion Hnd.
  - simpl. unfold mountStep. rewrite insert_insert_ne; [reflexivity|].
    rewrite !fmap_cons in Hnd. apply NoDup_cons in Hnd as [Hin _].
    intros Heq. apply Hin. rewrite Heq. by left.
  - rewrite IH12 by done. apply IH23. by rewrite <- H12.
Qed.

Lemma mountMap_perm (a a' : list VolumeMount.t) :
  a ≡ₚ a' → NoDup (VolumeMount.Name <$> a) → mountMap a' = mountMap a.
Proof. intros Hp Hnd. unfold mountMap. symmetry. by apply foldl_mountStep_perm. Qed.

Lemma mountsMatch_forallb aMap (b : list VolumeMount.t) :
  mountsMatch aMap b = forallb (mountOk aMap) b.
Proof.
  induction b as [|vm b IH]; [reflexivity|].
  simpl. unfold mountOk at 1. destruct (aMap !! VolumeMount.Name vm); [|reflexivity].
  rewrite IH. repeat case_bool_decide; done.
Qed.

Lemma forallb_perm {A} (f : A → bool) (l l' : list A) :
  l ≡ₚ l' → forallb f l = forallb f l'.
Proof.
  induction 1 as [|x l l' Hp IH|x y l|l1 l2 l3 H12 IH12 H23 IH23]; simpl.
  - reflexivity.
  - by rewrite IH.
  - by destruct (f x), (f y).
  - congruence.
Qed.

Lemma compareVolumeMounts_perm (a a' b b' : list VolumeMount.t) :
  a ≡ₚ a' → b ≡ₚ b' → NoDup (VolumeMount.Name <$> a) →
  compareVolumeMounts a' b' = compareVolumeMounts a b.
Proof.
  intros Ha Hb Hnd. unfold compareVolumeMounts.
  rewrite (mountMap_perm a a' Ha Hnd), (Permutation_length Ha), (Permutation_length Hb).
  by rewrite !mountsMatch_forallb, (forallb_perm _ _ _ Hb).
Qed.

Lemma compareEnvVars_perm a a' b b' :
  a ≡ₚ a' → b ≡ₚ b' →
  NoDup (EnvVar.Name <$> a) → NoDup (EnvVar.Name <$> b) →
  compareEnvVars a' b' = compareEnvVars a b.
Proof.
  intros Ha Hb Hnda Hndb.
  rewrite (compareEnvVars_perm_r a' b b' Hb Hndb).
  by apply compareEnvVars_perm_l.
Qed.

(** The comparison reads a spec only through [diffView]. *)
Lemma deploymentSpecEqual_view_l (e e' d : DeploymentSpec.t) :
  diffView e = diffView e' →
  deploymentSpecEqual e d = deploymentSpecEqual e' d.
Proof.
  unfold diffView, deploymentSpecEqual. intros Hv.
  injection Hv as Hr Hn Hf Hvol Hsa.
  rewrite Hr, Hn, Hvol, Hsa.
  destruct (PodSpec.Containers (DeploymentSpec.podSpec e)) as [|c cs],
           (PodSpec.Containers (DeploymentSpec.podSpec e')) as [|c' cs'];
    try discriminate; [reflexivity|].
  injection Hf as Hi He Hres Hm. rewrite Hi, He, Hres, Hm. reflexivity.
Qed.

Lemma deploymentSpecEqual_view_r (e d d' : DeploymentSpec.t) :
  diffView d = diffView d' →
  deploymentSpecEqual e d = deploymentSpecEqual e d'.
Proof.
  unfold diffView, deploymentSpecEqual. intros Hv.
  injection Hv as Hr Hn Hf Hvol Hsa.
  rewrite Hr, Hn, Hvol, Hsa.
  destruct (PodSpec.Containers (DeploymentSpec.podSpec d)) as [|c cs],
           (PodSpec.Containers (DeploymentSpec.podSpec d')) as [|c' cs'];
    try discriminate; [reflexivity|].
  injection Hf as Hi He Hres Hm. rewrite Hi, He, Hres, Hm. reflexivity.
Qed.

Lemma deploymentSpecEqual_replicas (e d : DeploymentSpec.t) (r r' : Z) :
  DeploymentSpec.Replicas e = Some r → DeploymentSpec.Replicas d = Some r' →
  r ≠ r' → deploymentSpecEqual e d = false.
Proof.
  intros He Hd Hne. unfold deploymentSpecEqual. rewrite He, Hd. simpl.
  by rewrite bool_decide_eq_false_2.
Qed.

(** Reordering the first container's lists on the observed side. *)
Lemma deploymentSpecEqual_reorder_l (e d : DeploymentSpec.t) c env' mounts' :
  firstContainer e = Some c →
  Container.Env c ≡ₚ env' → Container.VolumeMounts c ≡ₚ mounts' →
  NoDup (EnvVar.Name <$> Container.Env c) →
  NoDup (VolumeMount.Name <$> Container.VolumeMounts c) →
  deploymentSpecEqual (withFirstContainerLists env' mounts' e) d
  = deploymentSpecEqual e d.
Proof.
  unfold firstContainer, withFirstContainerLists, deploymentSpecEqual.
  intros Hc Henv Hm Hnde Hndm.
  destruct e as [r sel [tl ta p] st]. destruct p as [vols cs rp tg dns sa ips].
  simpl in *. destruct cs as [|c0 cs]; [discriminate|]. simpl in Hc.
  injection Hc as ->. simpl.
  destruct (PodSpec.Containers (DeploymentSpec.podSpec d)) as [|dc dcs]; [reflexivity|].
  rewrite (compareEnvVars_perm_l _ _ _ Henv Hnde).
  rewrite (compareVolumeMounts_perm _ _ _ _ Hm (Permutation_refl _) Hndm).
  reflexivity.
Qed.

(** Reordering the first container's lists on the desired side. *)
Lemma deploymentSpecEqual_reorder_r (e d : DeploymentSpec.t) c env' mounts' :
  firstContainer d = Some c →
  Container.Env c ≡ₚ env' → Container.VolumeMounts c ≡ₚ mounts' →
  NoDup (EnvVar.Name <$> Container.Env c) →
  deploymentSpecEqual e (withFirstContainerLists env' mounts' d)
  = deploymentSpecEqual e d.
Proof.
  unfold firstContainer, withFirstContainerLists, deploymentSpecEqual.
  intros Hc Henv Hm Hnde.
  destruct d as [r sel [tl ta p] st]. destruct p as [vols cs rp tg dns sa ips].
  simpl in *. destruct cs as [|c0 cs]; [discriminate|]. simpl in Hc.
  injection Hc as ->. simpl.
  destruct (PodSpec.Containers (DeploymentSpec.podSpec e)) as [|ec ecs]; [reflexivity|].
  rewrite (compareEnvVars_perm_r _ _ _ Henv Hnde).
  unfold compareVolumeMounts at 1.
  rewrite <- (Permutation_length Hm), mountsMatch_forallb,
    <- (forallb_perm _ _ _ Hm), <- mountsMatch_forallb.
  reflexivity.
Qed.

End DiffEngine.




(** * The diff engine on the web workload *)

(** The web builder mounts the configuration volume at two paths, and
    [compareVolumeMounts] keeps one mount per name: the built list never
    matches itself. *)
Lemma web_mounts_never_match (kn : KubeNova.t) :
  compareVolumeMounts (getWebVolumeMounts kn) (getWebVolumeMounts kn) = false.
Proof.
  unfold getWebVolumeMounts.
  destruct (nodePortHTTPS kn) as [https|]; [|reflexivity].
  case_bool_decide; reflexivity.
Qed.

(** So the diff engine never reports the web workload the builder makes
    equal to itself, whatever the root entity: a stored web workload that
    is exactly the desired one still goes through the update path. *)
Lemma web_workload_never_equal (kn : KubeNova.t) (namespace : string) :
  deploymentSpecEqual (Deployment.Spec (buildWebDeployment kn namespace))
    (Deployment.Spec (buildWebDeployment kn namespace)) = false.
Proof.
  unfold deploymentSpecEqual, buildWebDeployment.
  set (ps := ImageRegistryConfig.PullSecrets (GetImageRegistry kn)).
  destruct (bool_decide (0 < length ps)%nat); simpl;
    rewrite bool_decide_eq_true_2 by done; simpl;
    rewrite bool_decide_eq_false_2 by (intros H; by apply H); simpl.
  all: unfold compareEnvVars at 1; simpl; rewrite bool_decide_eq_true_2 by done; simpl.
  all: unfold compareResourceRequirements;
    rewrite !bool_decide_eq_true_2 by done; simpl.
  all: by rewrite web_mounts_never_match.
Qed.

(** What [compareEnvVars] and [compareVolumes] do not look at. *)
Lemma envMap_ignores_references (pre post : list EnvVar.t) name src src' :
  envMap (pre ++ EnvVar.mk name "" src :: post)
  = envMap (pre ++ EnvVar.mk name "" src' :: post).
Proof. unfold envMap. by rewrite !foldl_app. Qed.

Lemma compareEnvVars_ignores_references (pre post b : list EnvVar.t) name src src' :
  compareEnvVars (pre ++ EnvVar.mk name "" src :: post) b
  = compareEnvVars (pre ++ EnvVar.mk name "" src' :: post) b.
Proof.
  unfold compareEnvVars.
  rewrite (envMap_ignores_references pre post name src src').
  by rewrite !length_app.
Qed.

Lemma volumeNames_by_name (a a' : list Volume.t) :
  Volume.Name <$> a = Volume.Name <$> a' → volumeNames a = volumeNames a'.
Proof.
  unfold volumeNames. generalize (∅ : gmap string bool).
  revert a'. induction a as [|v a IH]; intros [|v' a'] m Hn; try discriminate.
  - reflexivity.
  - injection Hn as Hv Hn. simpl. unfold volumeStep at 2 4. rewrite Hv. by apply IH.
Qed.

Lemma volumesMatch_by_name aMap (b b' : list Volume.t) :
  Volume.Name <$> b = Volume.Name <$> b' → volumesMatch aMap b = volumesMatch aMap b'.
Proof.
  revert b'. induction b as [|v b IH]; intros [|v' b'] Hn; try discriminate.
  - reflexivity.
  - injection Hn as Hv Hn. simpl. rewrite Hv. by rewrite (IH b').
Qed.

Lemma compareVolumes_by_name (a a' b b' : list Volume.t) :
  Volume.Name <$> a = Volume.Name <$> a' → Volume.Name <$> b = Volume.Name <$> b' →
  compareVolumes a b = compareVolumes a' b'.
Proof.
  intros Ha Hb. unfold compareVolumes.
  rewrite (volumeNames_by_name a a' Ha), (volumesMatch_by_name _ b b' Hb).
  assert (length a = length a') as -> by (rewrite <- (length_fmap Volume.Name a), Ha; apply length_fmap).
  assert (length b = length b') as -> by (rewrite <- (length_fmap Volume.Name b), Hb; apply length_fmap).
  reflexivity.
Qed.

(** C9, at the failing input.  The web workload built for the sample root
    and the one built after the user names a configuration map of their own
    have lists of equal lengths and differ in one place only, the source of
    the volume [nginx-config]; the claim has the diff report them equal, and
    the diff reports them unequal (as it does for the workload compared with
    itself). *)
Theorem web_volume_source_change_reported :
  let observed := Deployment.Spec (buildWebDeployment sampleRoot "prod") in
  let desired :=
    Deployment.Spec (buildWebDeployment (withCustomNginx "my-nginx" sampleRoot) "prod") in
  desired
  = DeploymentSpec.withPodSpec
      (PodSpec.withVolumes
         (Volume.mk "nginx-config"
            (ConfigMapVolumeSource "my-nginx"
               [("nginx.conf", "nginx.conf"); ("default.conf", "default.conf")])
          :: tail (PodSpec.Volumes (DeploymentSpec.podSpec observed)))
         (DeploymentSpec.podSpec observed)) observed
  ∧ Volume.Name <$> PodSpec.Volumes (DeploymentSpec.podSpec desired)
    = Volume.Name <$> PodSpec.Volumes (DeploymentSpec.podSpec observed)
  ∧ deploymentSpecEqual observed desired = false
  ∧ deploymentSpecEqual observed observed = false.
Proof. vm_compute. done. Qed.

(** * Running the monad *)

Lemma bind_Done {A B} (m : M A) (f : A → M B) w b w2 :
  bind m f w = Done b w2 ↔ ∃ a w1, m w = Done a w1 ∧ f a w1 = Done b w2.
Proof.
  unfold bind. destruct (m w) as [a w1|w1]; split.
  - intros H. by exists a, w1.
  - by intros (a' & w1' & [= -> ->] & H).
  - discriminate.
  - by intros (a' & w1' & [=] & _).
Qed.

Lemma bind_run {A B} (m : M A) (f : A → M B) w a w1 :
  m w = Done a w1 → bind m f w = f a w1.
Proof. unfold bind. by intros ->. Qed.

Lemma bind_panic {A B} (m : M A) (f : A → M B) w w1 :
  m w = Panic w1 → bind m f w = Panic w1.
Proof. unfold bind. by intros ->. Qed.

Lemma finalWorld_bind {A B} (m : M A) (f : A → M B) w :
  finalWorld (bind m f w)
  = match m w with
    | Done a w1 => finalWorld (f a w1)
    | Panic w1 => w1
    end.
Proof. unfold bind. by destruct (m w). Qed.

(** The reply a call gets in a world. *)
Definition replyOf (w : World) (served : Reply * gmap Key Object) : Reply :=
  (answer w served).1.

Lemma invoke_run c serve w :
  invoke c serve w
  = Done (replyOf w (serve w))
      (logged w c (replyOf w (serve w)) (settled w c (answer w (serve w)).2)).
Proof. reflexivity. Qed.

(** Only a write can be overtaken. *)
Definition isWrite (c : Call) : bool :=
  match c with
  | CUpdate _ | CStatusUpdate _ => true
  | _ => false
  end.

Lemma settled_quiet w c s : nextFault w = None → settled w c s = s.
Proof. unfold settled. by intros ->. Qed.

Lemma settled_other w c s : isWrite c = false → settled w c s = s.
Proof.
  unfold settled. intros Hc. destruct (nextFault w) as [e|]; [|done].
  destruct (IsConflict e); [|done]. by destruct c.
Qed.

Lemma settled_cases w c s :
  settled w c s = s ∨ (isWrite c = true ∧ settled w c s = overtaken c s).
Proof.
  unfold settled. destruct (nextFault w) as [e|]; [|by left].
  destruct (IsConflict e); [|by left]. destruct c; auto.
Qed.

Lemma answer_cases w served :
  (∃ e, nextFault w = Some e ∧ answer w served = (RError e, objects w))
  ∨ (nextFault w = None ∧ answer w served = served).
Proof. unfold answer. destruct (nextFault w) as [e|]; eauto. Qed.

Lemma serveGet_store k s : (serveGet k s).2 = s.
Proof. unfold serveGet. by destruct (s !! k). Qed.

Lemma Get_run T `{Resource T} namespace name w :
  let k := (kindOf T, namespace, name) in
  let r := replyOf w (serveGet k (objects w)) in
  Get T namespace name w = Done (asResult r) (logged w (CGet k) r (objects w)).
Proof.
  intros k r. unfold Get. rewrite (bind_run _ _ _ _ _ (invoke_run _ _ _)).
  unfold ret. f_equal. f_equal. fold k. rewrite settled_other by done.
  destruct (answer_cases w (serveGet k (objects w))) as [(e & _ & ->)| [_ ->]];
    [done|apply serveGet_store].
Qed.

(** ** Relations between the world before and after a run *)

Section Stable.

Context (R : relation World) `{!PreOrder R}.

(** Every run of [m] takes a world to an [R]-related one, panics included. *)
Definition stable {A} (m : M A) : Prop := ∀ w, R w (finalWorld (m w)).

Lemma stable_ret {A} (a : A) : stable (ret a).
Proof. intros w. simpl. reflexivity. Qed.

Lemma stable_bind {A B} (m : M A) (f : A → M B) :
  stable m → (∀ a, stable (f a)) → stable (bind m f).
Proof.
  intros Hm Hf w. rewrite finalWorld_bind.
  specialize (Hm w). destruct (m w) as [a w1|w1]; simpl in Hm; [|done].
  etransitivity; [exact Hm|apply Hf].
Qed.

Lemma stable_deref {A} (p : option A) : stable (deref p).
Proof. intros w. unfold deref. destruct p; simpl; reflexivity. Qed.

Lemma stable_Now : stable Now.
Proof. intros w. simpl. reflexivity. Qed.

Lemma stable_Done {A} (m : M A) w a w1 : stable m → m w = Done a w1 → R w w1.
Proof. intros Hm Hw. specialize (Hm w). by rewrite Hw in Hm. Qed.

Lemma stable_forEach {A} (l : list A) (body : A → M (option error)) :
  (∀ x, stable (body x)) → stable (forEach l body).
Proof.
  intros Hb. induction l as [|x l IH]; simpl; [apply stable_ret|].
  apply stable_bind; [apply Hb|]. intros [e|]; [apply stable_ret|apply IH].
Qed.

Lemma stable_foldM {A B} (f : B → A → M B) (l : list A) :
  (∀ acc x, stable (f acc x)) → ∀ acc, stable (foldM f acc l).
Proof.
  intros Hf. induction l as [|x l IH]; intros acc; simpl; [apply stable_ret|].
  apply stable_bind; [apply Hf|]. intros acc'. apply IH.
Qed.

End Stable.

(** ** The stages leave the stored root entities alone *)

(** The stored objects of the root kind are the same in both worlds. *)
Definition sameRoots (w w' : World) : Prop :=
  ∀ namespace name,
    objects w' !! (KubeNovaKind, namespace, name)
    = objects w !! (KubeNovaKind, namespace, name).

#[global] Instance sameRoots_preorder : PreOrder sameRoots.
Proof.
  split.
  - by intros w ns n.
  - intros w1 w2 w3 H12 H23 ns n. by rewrite H23, H12.
Qed.

(** A write of an object of one kind leaves the objects of the other kinds
    where they are. *)
Lemma lookup_insert_other_kind (kind : string) (o o' : Object) (s : gmap Key Object)
    namespace name :
  objKind o ≠ kind →
  <[objKey o := o']> s !! (kind, namespace, name)
  = s !! (kind, namespace, name).
Proof.
  intros Hk. apply lookup_insert_ne. unfold objKey. intros [= Heq _ _]. by apply Hk.
Qed.

Lemma lookup_delete_other_kind (kind : string) (o : Object) (s : gmap Key Object)
    namespace name :
  objKind o ≠ kind →
  delete (objKey o) s !! (kind, namespace, name)
  = s !! (kind, namespace, name).
Proof.
  intros Hk. apply lookup_delete_ne. unfold objKey. intros [= Heq _ _]. by apply Hk.
Qed.

Lemma serveCreate_other_kind (kind : string) o s namespace name :
  objKind o ≠ kind →
  (serveCreate o s).2 !! (kind, namespace, name)
  = s !! (kind, namespace, name).
Proof.
  intros Hk. unfold serveCreate. destruct (s !! objKey o); simpl; [done|].
  by apply lookup_insert_other_kind.
Qed.

Lemma serveUpdate_other_kind (kind : string) o s namespace name :
  objKind o ≠ kind →
  (serveUpdate o s).2 !! (kind, namespace, name)
  = s !! (kind, namespace, name).
Proof.
  intros Hk. unfold serveUpdate. destruct (s !! objKey o) as [cur|]; simpl; [|done].
  destruct (staleVersion cur o); simpl; [done|].
  destruct (ObjectMeta.DeletionTimestamp (objMeta cur)); simpl.
  - destruct (ObjectMeta.Finalizers _); simpl;
      [by apply lookup_delete_other_kind|by apply lookup_insert_other_kind].
  - by apply lookup_insert_other_kind.
Qed.

Lemma serveDelete_other_kind (kind : string) now o s namespace name :
  objKind o ≠ kind →
  (serveDelete now o s).2 !! (kind, namespace, name)
  = s !! (kind, namespace, name).
Proof.
  intros Hk. unfold serveDelete. destruct (s !! objKey o) as [cur|]; simpl; [|done].
  destruct (ObjectMeta.Finalizers (objMeta cur)); simpl;
    [by apply lookup_delete_other_kind|].
  destruct (ObjectMeta.DeletionTimestamp (objMeta cur)); simpl; [done|].
  by apply lookup_insert_other_kind.
Qed.

(** The object a write names. *)
Definition written (c : Call) : option Object :=
  match c with
  | CUpdate o | CStatusUpdate o => Some o
  | _ => None
  end.

Lemma overtaken_other_kind (kind : string) c s namespace name :
  (∀ o, written c = Some o → objKind o ≠ kind) →
  overtaken c s !! (kind, namespace, name) = s !! (kind, namespace, name).
Proof.
  intros Hc. destruct c as [k|k|o|o|o|o]; simpl; try done;
    (destruct (s !! objKey o); [|done]; apply lookup_insert_other_kind;
     by apply Hc).
Qed.

Lemma settled_other_kind (kind : string) w c s namespace name :
  (∀ o, written c = Some o → objKind o ≠ kind) →
  settled w c s !! (kind, namespace, name) = s !! (kind, namespace, name).
Proof.
  intros Hc. destruct (settled_cases w c s) as [->|[_ ->]]; [done|].
  by apply overtaken_other_kind.
Qed.

(** A call keeps the roots when it does not write a root and what the store
    would do keeps them. *)
Lemma sameRoots_invoke c serve :
  (∀ o, written c = Some o → objKind o ≠ KubeNovaKind) →
  (∀ w namespace name,
     (serve w).2 !! (KubeNovaKind, namespace, name)
     = objects w !! (KubeNovaKind, namespace, name)) →
  stable sameRoots (invoke c serve).
Proof.
  intros Hc Hs w ns n. rewrite invoke_run. simpl.
  rewrite settled_other_kind by done.
  destruct (answer_cases w (serve w)) as [(e & _ & ->)|[_ ->]]; [done|apply Hs].
Qed.

Lemma sameRoots_Get T `{Resource T} namespace name :
  stable sameRoots (Get T namespace name).
Proof.
  apply stable_bind; [apply _| |intros; apply stable_ret; apply _].
  apply sameRoots_invoke; [done|]. intros w ns n. by rewrite serveGet_store.
Qed.

Lemma sameRoots_ListNodes : stable sameRoots ListNodes.
Proof.
  apply stable_bind; [apply _| |intros; apply stable_ret; apply _].
  by apply sameRoots_invoke.
Qed.

Lemma sameRoots_Create {T} `{Resource T} (t : T) :
  kindOf T ≠ KubeNovaKind → stable sameRoots (Create t).
Proof.
  intros Hk. apply stable_bind; [apply _| |intros; apply stable_ret; apply _].
  apply sameRoots_invoke; [done|]. intros w ns n. apply serveCreate_other_kind.
  by rewrite wrap_kind.
Qed.

Lemma sameRoots_Update {T} `{Resource T} (t : T) :
  kindOf T ≠ KubeNovaKind → stable sameRoots (Update t).
Proof.
  intros Hk. apply stable_bind; [apply _| |intros; apply stable_ret; apply _].
  apply sameRoots_invoke; [intros o [= <-]; by rewrite wrap_kind|].
  intros w ns n. apply serveUpdate_other_kind. by rewrite wrap_kind.
Qed.

Lemma sameRoots_Delete {T} `{Resource T} (t : T) :
  kindOf T ≠ KubeNovaKind → stable sameRoots (Delete t).
Proof.
  intros Hk. apply stable_bind; [apply _| |intros; apply stable_ret; apply _].
  apply sameRoots_invoke; [done|]. intros w ns n. apply serveDelete_other_kind.
  by rewrite wrap_kind.
Qed.

Lemma sameRoots_Sleep ms : stable sameRoots (Sleep ms).
Proof. by intros w ns n. Qed.

Create HintDb roots discriminated.

#[local] Hint Resolve sameRoots_Get sameRoots_ListNodes sameRoots_Sleep : roots.
#[local] Hint Extern 1 (stable sameRoots (Create _)) =>
  apply sameRoots_Create; discriminate : roots.
#[local] Hint Extern 1 (stable sameRoots (Update _)) =>
  apply sameRoots_Update; discriminate : roots.
#[local] Hint Extern 1 (stable sameRoots (Delete _)) =>
  apply sameRoots_Delete; discriminate : roots.
#[local] Hint Extern 1 (stable sameRoots (ret _)) => apply stable_ret; apply _ : roots.
#[local] Hint Extern 1 (stable sameRoots (deref _)) => apply stable_deref; apply _ : roots.
#[local] Hint Extern 1 (stable sameRoots Now) => apply stable_Now; apply _ : roots.

(** Walks through a computation built from binds and matches; the steps
    themselves are left to [step]. *)
Ltac walk_with step :=
  repeat first
    [ progress intros
    | progress cbv zeta
    | solve [step]
    | apply stable_bind; [apply _| |]
    | match goal with
      | |- stable _ (match ?x with _ => _ end) => destruct x
      | |- stable _ (if ?x then _ else _) => destruct x
      | |- stable _ (let '(_, _) := ?x in _) => destruct x
      end ].

Ltac stable_walk := walk_with ltac:(eauto with roots).

Lemma sameRoots_setStatusPhase kn phase msg :
  stable sameRoots (setStatusPhase kn phase msg).
Proof. unfold setStatusPhase. stable_walk. Qed.

Lemma sameRoots_SetStatusCondition kn c : stable sameRoots (SetStatusCondition kn c).
Proof. unfold SetStatusCondition. stable_walk. Qed.

#[local] Hint Resolve sameRoots_setStatusPhase sameRoots_SetStatusCondition : roots.

Lemma sameRoots_reconcileValidation kn : stable sameRoots (reconcileValidation kn).
Proof. unfold reconcileValidation. stable_walk. Qed.

Lemma sameRoots_reconcileNamespace kn : stable sameRoots (reconcileNamespace kn).
Proof. unfold reconcileNamespace. stable_walk. Qed.

Lemma sameRoots_createIfAbsent {T} `{Resource T} ns n (t : T) m1 m2 :
  kindOf T ≠ KubeNovaKind → stable sameRoots (createIfAbsent ns n t m1 m2).
Proof.
  intros Hk. unfold createIfAbsent. stable_walk. by apply sameRoots_Create.
Qed.

#[local] Hint Extern 1 (stable sameRoots (createIfAbsent _ _ _ _ _)) =>
  apply sameRoots_createIfAbsent; discriminate : roots.

Lemma sameRoots_reconcileRBAC kn : stable sameRoots (reconcileRBAC kn).
Proof. unfold reconcileRBAC. stable_walk. Qed.

Lemma sameRoots_getNodeIP : stable sameRoots getNodeIP.
Proof. unfold getNodeIP. stable_walk. Qed.

Lemma sameRoots_getWebNodePort kn ns : stable sameRoots (getWebNodePort kn ns).
Proof. unfold getWebNodePort. stable_walk. Qed.

#[local] Hint Resolve sameRoots_getNodeIP sameRoots_getWebNodePort : roots.

Lemma sameRoots_syncConfigMap ns cm m1 m2 m3 :
  stable sameRoots (syncConfigMap ns cm m1 m2 m3).
Proof. unfold syncConfigMap. stable_walk. Qed.

#[local] Hint Resolve sameRoots_syncConfigMap : roots.

Section StagesKeepRoots.

Context (b : Builders).

Lemma sameRoots_reconcileSecret kn : stable sameRoots (reconcileSecret b kn).
Proof. unfold reconcileSecret. stable_walk. Qed.

Lemma sameRoots_reconcileConfigMaps kn : stable sameRoots (reconcileConfigMaps b kn).
Proof.
  unfold reconcileConfigMaps. apply stable_forEach; [apply _|]. stable_walk.
Qed.

Lemma sameRoots_reconcileServiceDeployment kn ns name d :
  stable sameRoots (reconcileServiceDeployment kn ns name d).
Proof. unfold reconcileServiceDeployment. stable_walk. Qed.

Lemma sameRoots_reconcileServiceEntry kn ns entry :
  stable sameRoots (reconcileServiceEntry kn ns entry).
Proof.
  unfold reconcileServiceEntry. destruct entry as [name res].
  pose proof sameRoots_reconcileServiceDeployment. stable_walk.
Qed.

Lemma sameRoots_reconcileServices kn : stable sameRoots (reconcileServices b kn).
Proof.
  unfold reconcileServices. stable_walk.
  apply stable_forEach; [apply _|]. apply sameRoots_reconcileServiceEntry.
Qed.

Lemma sameRoots_reconcileWebDeployment kn ns d :
  stable sameRoots (reconcileWebDeployment kn ns d).
Proof. unfold reconcileWebDeployment. stable_walk. Qed.

Lemma sameRoots_reconcileWeb kn : stable sameRoots (reconcileWeb b kn).
Proof.
  unfold reconcileWeb. pose proof sameRoots_reconcileWebDeployment. stable_walk.
Qed.

End StagesKeepRoots.

(** * The retry-safe status writer *)

Definition rootKeyOf (kn : KubeNova.t) : Key :=
  (KubeNovaKind, KubeNova.Namespace kn, KubeNova.Name kn).

(** What the store holds after a status write of [status] on [old]. *)
Definition statusWritten (status : KubeNovaStatus.t) (old : KubeNova.t) : KubeNova.t :=
  KubeNova.withMeta
    (ObjectMeta.withResourceVersion (S (KubeNova.ResourceVersion old))
       (KubeNova.Meta old))
    (KubeNova.withStatus status old).

(** What the caller holds after a successful write: its own object with the
    stored status and the stored version token. *)
Definition refreshed (kn stored : KubeNova.t) : KubeNova.t :=
  KubeNova.withMeta
    (ObjectMeta.withResourceVersion (KubeNova.ResourceVersion stored)
       (KubeNova.Meta kn))
    (KubeNova.withStatus (KubeNova.Status stored) kn).

(** The events of a run of the writer's loop from counter [i]: [n] attempts,
    each a read of the root followed (when the read succeeded) by a write of
    the fetched object carrying the caller's status; between two attempts a
    conflict and a sleep of [100 * (i + 1)] milliseconds. *)
Inductive attempts (kn : KubeNova.t) : Z → nat → list Event → Prop :=
| attempts_none i : attempts kn i 0 []
| attempts_read_failed i r :
    (∀ latest, r ≠ RObject (OKubeNova latest)) →
    attempts kn i 1 [ECall (CGet (rootKeyOf kn)) r]
| attempts_last i latest r :
    attempts kn i 1
      [ECall (CGet (rootKeyOf kn)) (RObject (OKubeNova latest));
       ECall (CStatusUpdate
                (OKubeNova (KubeNova.withStatus (KubeNova.Status kn) latest))) r]
| attempts_retry i n latest e rest :
    IsConflict e = true →
    attempts kn (i + 1) n rest →
    attempts kn i (S n)
      (ECall (CGet (rootKeyOf kn)) (RObject (OKubeNova latest))
       :: ECall (CStatusUpdate
                   (OKubeNova (KubeNova.withStatus (KubeNova.Status kn) latest)))
            (RError e)
       :: ESleep (100 * (i + 1)) :: rest).

Lemma asResult_KubeNova_Found r (latest : KubeNova.t) :
  asResult r = Found latest → r = RObject (OKubeNova latest).
Proof.
  destruct r as [o| | |e]; simpl; try discriminate.
  destruct o; simpl; try discriminate. by intros [= ->].
Qed.

Lemma asResult_conflict {T} `{Resource T} r err :
  asResult (T:=T) r = Failed err → IsConflict err = true → r = RError err.
Proof.
  destruct r as [o| | |e']; simpl.
  - destruct (unwrap o); [discriminate|]. by intros [= <-].
  - by intros [= <-].
  - by intros [= <-].
  - by intros [= ->].
Qed.

Lemma StatusUpdate_run (latest : KubeNova.t) w :
  let o := OKubeNova latest in
  let a := answer w (serveStatusUpdate o (objects w)) in
  StatusUpdate latest w
  = Done (asResult a.1)
      (logged w (CStatusUpdate o) a.1 (settled w (CStatusUpdate o) a.2)).
Proof. reflexivity. Qed.

(** The loop always returns, and its events are attempts. *)
Lemma statusRetryLoop_attempts remaining : ∀ i kn w,
  ∃ kn' e w' n evs,
    statusRetryLoop remaining i kn w = Done (kn', e) w'
    ∧ (n ≤ remaining)%nat
    ∧ trace w' = trace w ++ evs
    ∧ attempts kn i n evs.
Proof.
  induction remaining as [|remaining IH]; intros i kn w.
  - exists kn, (Some (Errorf "状态更新失败，已重试 3 次")), w, 0%nat, [].
    split_and!; [done|lia|by rewrite app_nil_r|constructor].
  - simpl. rewrite (bind_run _ _ _ _ _ (Get_run KubeNova.t _ _ w)). cbv zeta.
    remember (replyOf w _) as r eqn:Er. clear Er. set (w1 := logged w _ r _).
    destruct (asResult r) as [latest|err] eqn:Hr.
    + apply asResult_KubeNova_Found in Hr. subst r.
      rewrite (bind_run _ _ _ _ _ (StatusUpdate_run _ w1)).
      set (a := answer w1 _). set (w2 := logged w1 _ a.1 _).
      destruct (asResult a.1) as [stored|err] eqn:Hu.
      * eexists _, None, w2, 1%nat, _. split_and!; [done|lia| |].
        -- subst w2 w1. simpl. rewrite <- app_assoc. reflexivity.
        -- apply attempts_last.
      * destruct (IsConflict err && bool_decide (i < 2)) eqn:Hc.
        -- apply andb_true_iff in Hc as [Hc _].
           assert (a.1 = RError err) as Ha.
           { eapply (asResult_conflict (T:=KubeNova.t)); [exact Hu|exact Hc]. }
           rewrite (bind_run _ _ _ tt
                      (mkWorld (objects w2) (nodes w2) (faults w2)
                         (clock w2 + Millisecond * 100 * (i + 1))
                         (trace w2 ++ [ESleep (Millisecond * 100 * (i + 1))])))
             by reflexivity.
           set (w3 := mkWorld _ _ _ _ _).
           destruct (IH (i + 1) kn w3) as (kn' & e & w' & n & evs & Hrun & Hn & Ht & Hat).
           eexists kn', e, w', (S n), _. split_and!; [exact Hrun|lia| |].
           ++ rewrite Ht. subst w3 w2 w1. simpl. rewrite <- !app_assoc. reflexivity.
           ++ simpl. rewrite Ha. unfold Millisecond.
              replace (1 * 100 * (i + 1)) with (100 * (i + 1)) by lia.
              by apply attempts_retry.
        -- eexists _, (Some err), w2, 1%nat, _. split_and!; [done|lia| |].
           ++ subst w2 w1. simpl. rewrite <- app_assoc. reflexivity.
           ++ apply attempts_last.
    + eexists _, (Some err), w1, 1%nat, _. split_and!; [done|lia|done|].
      apply attempts_read_failed. intros latest Heq. rewrite Heq in Hr. discriminate.
Qed.

(** The next call is served by the store. *)
Definition quietHead (fs : list (option error)) : Prop :=
  match fs with
  | Some _ :: _ => False
  | _ => True
  end.

Lemma nextFault_quiet w : quietHead (faults w) → nextFault w = None.
Proof. unfold nextFault, quietHead. by destruct (faults w) as [|[e|] fs]. Qed.

Lemma Get_root_found kn w cur :
  quietHead (faults w) →
  objects w !! rootKeyOf kn = Some (OKubeNova cur) →
  Get KubeNova.t (KubeNova.Namespace kn) (KubeNova.Name kn) w
  = Done (Found cur)
      (logged w (CGet (rootKeyOf kn)) (RObject (OKubeNova cur)) (objects w)).
Proof.
  intros Hq Hcur. rewrite Get_run. cbv zeta.
  unfold replyOf, answer. rewrite (nextFault_quiet _ Hq).
  change (kindOf KubeNova.t, KubeNova.Namespace kn, KubeNova.Name kn)
    with (rootKeyOf kn).
  unfold serveGet. rewrite Hcur. reflexivity.
Qed.

(** The root as a concurrent writer leaves it: under the next version
    token. *)
Definition overtakenRoot (cur : KubeNova.t) : KubeNova.t :=
  KubeNova.withMeta
    (ObjectMeta.withResourceVersion (S (KubeNova.ResourceVersion cur))
       (KubeNova.Meta cur))
    cur.

(** The store after a write of the root was refused with [e]. *)
Definition refusedStore (e : error) (cur : KubeNova.t) (s : gmap Key Object)
  : gmap Key Object :=
  if IsConflict e then <[objKey (OKubeNova cur) := OKubeNova (overtakenRoot cur)]> s
  else s.

Lemma StatusUpdate_fault (status : KubeNovaStatus.t) (cur : KubeNova.t) w e rest :
  faults w = Some e :: rest →
  objects w !! objKey (OKubeNova cur) = Some (OKubeNova cur) →
  StatusUpdate (KubeNova.withStatus status cur) w
  = Done (Failed e)
      (logged w (CStatusUpdate (OKubeNova (KubeNova.withStatus status cur)))
         (RError e) (refusedStore e cur (objects w))).
Proof.
  intros Hf Hcur. rewrite StatusUpdate_run. cbv zeta.
  unfold settled, answer, nextFault, refusedStore. rewrite Hf.
  destruct (IsConflict e); [|reflexivity]. cbn [fst snd overtaken].
  change (objKey (OKubeNova (KubeNova.withStatus status cur)))
    with (objKey (OKubeNova cur)).
  rewrite Hcur. reflexivity.
Qed.

Lemma StatusUpdate_served (status : KubeNovaStatus.t) (cur : KubeNova.t) w :
  quietHead (faults w) →
  objects w !! objKey (OKubeNova cur) = Some (OKubeNova cur) →
  StatusUpdate (KubeNova.withStatus status cur) w
  = Done (Found (statusWritten status cur))
      (logged w (CStatusUpdate (OKubeNova (KubeNova.withStatus status cur)))
         (RObject (OKubeNova (statusWritten status cur)))
         (<[objKey (OKubeNova cur) := OKubeNova (statusWritten status cur)]>
            (objects w))).
Proof.
  intros Hq Hcur. rewrite StatusUpdate_run. cbv zeta.
  rewrite settled_quiet by (by apply nextFault_quiet).
  unfold answer. rewrite (nextFault_quiet _ Hq).
  unfold serveStatusUpdate.
  change (objKey (OKubeNova (KubeNova.withStatus status cur)))
    with (objKey (OKubeNova cur)).
  rewrite Hcur.
  assert (staleVersion (OKubeNova cur) (OKubeNova (KubeNova.withStatus status cur))
          = false) as ->.
  { unfold staleVersion. apply andb_false_iff. right.
    apply bool_decide_eq_false. intros Hne. by apply Hne. }
  reflexivity.
Qed.

(** An attempt whose write meets a conflict, with attempts left: the next
    attempt starts on a store in which the token of the root has moved. *)
Lemma attempt_conflict remaining i kn w cur c rest :
  objects w !! rootKeyOf kn = Some (OKubeNova cur) →
  objKey (OKubeNova cur) = rootKeyOf kn →
  faults w = None :: Some c :: rest →
  IsConflict c = true → i < 2 →
  statusRetryLoop (S remaining) i kn w
  = statusRetryLoop remaining (i + 1) kn
      (mkWorld (<[rootKeyOf kn := OKubeNova (overtakenRoot cur)]> (objects w))
         (nodes w) rest (clock w + 100 * (i + 1))
         (trace w
          ++ [ECall (CGet (rootKeyOf kn)) (RObject (OKubeNova cur));
              ECall (CStatusUpdate
                       (OKubeNova (KubeNova.withStatus (KubeNova.Status kn) cur)))
                (RError c);
              ESleep (100 * (i + 1))])).
Proof.
  intros Hcur Hkey Hf Hc Hi. simpl.
  rewrite (bind_run _ _ _ _ _ (Get_root_found kn w cur ltac:(by rewrite Hf) Hcur)).
  cbv zeta.
  erewrite bind_run;
    [|apply (StatusUpdate_fault _ _ _ c rest); simpl; [by rewrite Hf|by rewrite Hkey]].
  cbv beta iota. rewrite Hc, bool_decide_eq_true_2 by done. simpl.
  unfold bind, Sleep, logged, refusedStore. simpl. rewrite Hf, Hc, Hkey. simpl.
  rewrite <- !app_assoc. simpl. unfold Millisecond.
  replace (1 * 100 * (i + 1)) with (100 * (i + 1)) by lia. reflexivity.
Qed.

(** An attempt whose write is refused with no attempt left, or for another
    reason than a conflict. *)
Lemma attempt_refused remaining i kn w cur c rest :
  objects w !! rootKeyOf kn = Some (OKubeNova cur) →
  objKey (OKubeNova cur) = rootKeyOf kn →
  faults w = None :: Some c :: rest →
  IsConflict c = false ∨ 2 ≤ i →
  statusRetryLoop (S remaining) i kn w
  = Done (kn, Some c)
      (mkWorld (refusedStore c cur (objects w)) (nodes w) rest (clock w)
         (trace w
          ++ [ECall (CGet (rootKeyOf kn)) (RObject (OKubeNova cur));
              ECall (CStatusUpdate
                       (OKubeNova (KubeNova.withStatus (KubeNova.Status kn) cur)))
                (RError c)])).
Proof.
  intros Hcur Hkey Hf Hc. simpl.
  rewrite (bind_run _ _ _ _ _ (Get_root_found kn w cur ltac:(by rewrite Hf) Hcur)).
  cbv zeta.
  erewrite bind_run;
    [|apply (StatusUpdate_fault _ _ _ c rest); simpl; [by rewrite Hf|by rewrite Hkey]].
  cbv beta iota.
  assert (IsConflict c && bool_decide (i < 2) = false) as ->.
  { destruct Hc as [->|Hi]; [done|].
    rewrite bool_decide_eq_false_2 by lia. apply andb_false_r. }
  unfold ret, logged. simpl. rewrite Hf. simpl. by rewrite <- !app_assoc.
Qed.

(** An attempt that the store serves. *)
Lemma attempt_served remaining i kn w cur :
  objects w !! rootKeyOf kn = Some (OKubeNova cur) →
  objKey (OKubeNova cur) = rootKeyOf kn →
  quietHead (faults w) → quietHead (tail (faults w)) →
  let stored := statusWritten (KubeNova.Status kn) cur in
  statusRetryLoop (S remaining) i kn w
  = Done (refreshed kn stored, None)
      (mkWorld (<[rootKeyOf kn := OKubeNova stored]> (objects w)) (nodes w)
         (tail (tail (faults w))) (clock w)
         (trace w
          ++ [ECall (CGet (rootKeyOf kn)) (RObject (OKubeNova cur));
              ECall (CStatusUpdate
                       (OKubeNova (KubeNova.withStatus (KubeNova.Status kn) cur)))
                (RObject (OKubeNova stored))])).
Proof.
  intros Hcur Hkey Hq1 Hq2 stored. simpl.
  rewrite (bind_run _ _ _ _ _ (Get_root_found kn w cur Hq1 Hcur)). cbv zeta.
  erewrite bind_run;
    [|apply StatusUpdate_served; simpl; [done|by rewrite Hkey]].
  unfold ret, logged. simpl. rewrite Hkey, <- !app_assoc. reflexivity.
Qed.

Lemma last_app_two {A} (l : list A) (x y : A) : last (l ++ [x; y]) = Some y.
Proof. change (l ++ [x; y]) with (l ++ [x] ++ [y]). by rewrite app_assoc, last_snoc. Qed.

(** A write of the status that the store acknowledges leaves the status
    stored. *)
Lemma StatusUpdate_acknowledged (latest stored : KubeNova.t) w :
  let o := OKubeNova latest in
  let a := answer w (serveStatusUpdate o (objects w)) in
  a.1 = RObject (OKubeNova stored) →
  settled w (CStatusUpdate o) a.2 !! objKey o = Some (OKubeNova stored)
  ∧ KubeNova.Status stored = KubeNova.Status latest.
Proof.
  cbv zeta. unfold settled, answer.
  destruct (nextFault w) as [e|]; [discriminate|].
  unfold serveStatusUpdate.
  destruct (objects w !! objKey (OKubeNova latest)) as [cur|]; [|discriminate].
  destruct (staleVersion cur (OKubeNova latest)); [discriminate|].
  destruct cur as [old| | | | | | | |]; try discriminate.
  simpl. intros [= <-]. split; [|reflexivity]. apply lookup_insert_eq.
Qed.

Lemma last_cons_cons {A} (x y : A) (l : list A) : last (x :: y :: l) = last (y :: l).
Proof. reflexivity. Qed.

(** The last event of a run of the writer is a write that the store
    acknowledged with [stored]. *)
Definition acknowledged (evs : list Event) (o : Object) (stored : KubeNova.t)
  : Prop :=
  last evs = Some (ECall (CStatusUpdate o) (RObject (OKubeNova stored))).

(** The loop with its outcome: it makes at least one attempt when it may;
    it succeeds exactly when its last event is an acknowledged write, and
    the caller's root is then refreshed from the object that write returned,
    which the store holds; when it fails the caller's root is handed back
    as it was. *)
Lemma statusRetryLoop_records remaining : ∀ i kn w,
  ∃ kn' e w' n evs,
    statusRetryLoop remaining i kn w = Done (kn', e) w'
    ∧ (n ≤ remaining)%nat ∧ (remaining ≠ 0%nat → (1 ≤ n)%nat)
    ∧ trace w' = trace w ++ evs
    ∧ attempts kn i n evs
    ∧ (∀ o stored,
         acknowledged evs o stored →
         objects w' !! objKey o = Some (OKubeNova stored)
         ∧ KubeNova.Status stored = KubeNova.Status kn
         ∧ e = None ∧ kn' = refreshed kn stored)
    ∧ (e = None → ∃ o stored, acknowledged evs o stored)
    ∧ (e ≠ None → kn' = kn).
Proof.
  unfold acknowledged.
  induction remaining as [|remaining IH]; intros i kn w.
  - exists kn, (Some (Errorf "状态更新失败，已重试 3 次")), w, 0%nat, [].
    split_and!; [done|lia|done|by rewrite app_nil_r|constructor|done|done|done].
  - simpl. rewrite (bind_run _ _ _ _ _ (Get_run KubeNova.t _ _ w)). cbv zeta.
    remember (replyOf w _) as r eqn:Er. clear Er. set (w1 := logged w _ r _).
    destruct (asResult r) as [latest|err] eqn:Hr.
    + apply asResult_KubeNova_Found in Hr. subst r.
      rewrite (bind_run _ _ _ _ _ (StatusUpdate_run _ w1)).
      pose proof (StatusUpdate_acknowledged
                    (KubeNova.withStatus (KubeNova.Status kn) latest)) as Hack.
      specialize (Hack) with (w := w1). cbv zeta in Hack.
      set (a := answer w1 _) in *. set (w2 := logged w1 _ a.1 _).
      destruct (asResult a.1) as [stored|err] eqn:Hu.
      * pose proof (asResult_KubeNova_Found _ _ Hu) as Ha.
        eexists _, None, w2, 1%nat, _.
        split_and!; [done|lia|lia| | | | |done].
        -- subst w2 w1. simpl. rewrite <- app_assoc. reflexivity.
        -- apply attempts_last.
        -- intros o st [= <- Hst]. subst w2. cbn [objects logged].
           destruct (Hack st Hst) as [Hstored Hstatus].
           rewrite Ha in Hst. injection Hst as <-. by split_and!.
        -- intros _. eexists _, stored. simpl. by rewrite Ha.
      * destruct (IsConflict err && bool_decide (i < 2)) eqn:Hc.
        -- apply andb_true_iff in Hc as [Hc _].
           assert (a.1 = RError err) as Ha.
           { eapply (asResult_conflict (T:=KubeNova.t)); [exact Hu|exact Hc]. }
           rewrite (bind_run _ _ _ tt
                      (mkWorld (objects w2) (nodes w2) (faults w2)
                         (clock w2 + Millisecond * 100 * (i + 1))
                         (trace w2 ++ [ESleep (Millisecond * 100 * (i + 1))])))
             by reflexivity.
           set (w3 := mkWorld _ _ _ _ _).
           destruct (IH (i + 1) kn w3)
             as (kn' & e & w' & n & evs & Hrun & Hn & _ & Ht & Hat & Hlast
                 & Hsucc & Hfail).
           eexists kn', e, w', (S n), _.
           split_and!; [exact Hrun|lia|lia| | | | |exact Hfail].
           ++ rewrite Ht. subst w3 w2 w1. simpl. rewrite <- !app_assoc. reflexivity.
           ++ simpl. rewrite Ha. unfold Millisecond.
              replace (1 * 100 * (i + 1)) with (100 * (i + 1)) by lia.
              by apply attempts_retry.
           ++ intros o st. cbn [app]. rewrite !last_cons_cons.
              destruct evs as [|ev evs]; [discriminate|].
              rewrite last_cons_cons. apply Hlast.
           ++ intros He. destruct (Hsucc He) as (o & st & Hl). exists o, st.
              cbn [app]. rewrite !last_cons_cons.
              destruct evs as [|ev evs]; [discriminate|].
              by rewrite last_cons_cons.
        -- eexists _, (Some err), w2, 1%nat, _.
           split_and!; [done|lia|lia| | | |done|done].
           ++ subst w2 w1. simpl. rewrite <- app_assoc. reflexivity.
           ++ apply attempts_last.
           ++ intros o st [= _ Ha]. rewrite Ha in Hu. simpl in Hu. discriminate.
    + eexists _, (Some err), w1, 1%nat, _.
      split_and!; [done|lia|lia|done| |done|done|done].
      apply attempts_read_failed. intros latest Heq. rewrite Heq in Hr. discriminate.
Qed.

(** One attempt of the writer on the fetched object [latest], answered with
    [r]: the read, and the write of [latest] carrying the caller's status. *)
Definition attemptOn (kn latest : KubeNova.t) (r : Reply) : list Event :=
  [ECall (CGet (rootKeyOf kn)) (RObject (OKubeNova latest));
   ECall (CStatusUpdate
            (OKubeNova (KubeNova.withStatus (KubeNova.Status kn) latest))) r].

(** C3.  The writer makes at least one and at most three attempts, each a
    fresh read of the root followed by a write of the object that read
    returned, on which only the status was replaced by the caller's.  It
    returns no error exactly when its last write is acknowledged by the
    store, and the caller's root then holds the status and the version
    token of the object that write returned, which is the stored one; when
    it returns an error the caller's root is as it was.  When the writes of
    attempts 1 and 2 meet a conflict (a concurrent writer has moved the
    version token of the stored root each time) and attempt 3 is served,
    the three reads return three different objects, the third write carries
    the object of the third read, the writer returns no error, and the
    caller's root holds the status it asked for and the version token the
    third write returned, which is the stored one and three tokens after
    the one attempt 1 read.  When all three writes meet a conflict it
    returns the third conflict, hands the caller's root back as it was, and
    the stored root keeps its status. *)
Theorem status_writer_retries (kn : KubeNova.t) (w : World) :
  (∃ kn' e w' n evs,
     updateStatusWithRetry kn w = Done (kn', e) w'
     ∧ (1 ≤ n ≤ 3)%nat ∧ trace w' = trace w ++ evs ∧ attempts kn 0 n evs
     ∧ (∀ o stored,
          acknowledged evs o stored →
          e = None ∧ kn' = refreshed kn stored
          ∧ objects w' !! objKey o = Some (OKubeNova stored)
          ∧ KubeNova.Status stored = KubeNova.Status kn)
     ∧ (e = None → ∃ o stored, acknowledged evs o stored)
     ∧ (e ≠ None → kn' = kn))
  ∧ (∀ cur c1 c2 rest,
       objects w !! rootKeyOf kn = Some (OKubeNova cur) →
       objKey (OKubeNova cur) = rootKeyOf kn →
       faults w = None :: Some c1 :: None :: Some c2 :: rest →
       IsConflict c1 = true → IsConflict c2 = true →
       quietHead rest → quietHead (tail rest) →
       let second := overtakenRoot cur in
       let third := overtakenRoot second in
       let stored := statusWritten (KubeNova.Status kn) third in
       ∃ w',
         updateStatusWithRetry kn w = Done (refreshed kn stored, None) w'
         ∧ trace w'
           = trace w
             ++ attemptOn kn cur (RError c1) ++ [ESleep 100]
             ++ attemptOn kn second (RError c2) ++ [ESleep 200]
             ++ attemptOn kn third (RObject (OKubeNova stored))
         ∧ objects w' !! rootKeyOf kn = Some (OKubeNova stored)
         ∧ KubeNova.ResourceVersion (refreshed kn stored)
           = S (KubeNova.ResourceVersion third)
         ∧ KubeNova.ResourceVersion third = S (S (KubeNova.ResourceVersion cur))
         ∧ KubeNova.Status (refreshed kn stored) = KubeNova.Status kn
         ∧ KubeNova.Spec (refreshed kn stored) = KubeNova.Spec kn)
  ∧ (∀ cur c1 c2 c3 rest,
       objects w !! rootKeyOf kn = Some (OKubeNova cur) →
       objKey (OKubeNova cur) = rootKeyOf kn →
       faults w = None :: Some c1 :: None :: Some c2 :: None :: Some c3 :: rest →
       IsConflict c1 = true → IsConflict c2 = true → IsConflict c3 = true →
       let second := overtakenRoot cur in
       let third := overtakenRoot second in
       ∃ w',
         updateStatusWithRetry kn w = Done (kn, Some c3) w'
         ∧ trace w'
           = trace w
             ++ attemptOn kn cur (RError c1) ++ [ESleep 100]
             ++ attemptOn kn second (RError c2) ++ [ESleep 200]
             ++ attemptOn kn third (RError c3)
         ∧ objects w' !! rootKeyOf kn = Some (OKubeNova (overtakenRoot third))
         ∧ KubeNova.Status (overtakenRoot third) = KubeNova.Status cur).
Proof.
  split_and!.
  - destruct (statusRetryLoop_records 3 0 kn w)
      as (kn' & e & w' & n & evs & Hrun & Hn & Hpos & Ht & Ha & Hlast & Hsucc & Hfail).
    exists kn', e, w', n, evs.
    split_and!; [exact Hrun|by apply Hpos|done|done|done| |done|done].
    intros o stored Hack. destruct (Hlast o stored Hack) as (? & ? & ? & ?).
    by split_and!.
  - intros cur c1 c2 rest Hcur Hkey Hf Hc1 Hc2 Hq1 Hq2 second third stored.
    unfold updateStatusWithRetry.
    rewrite (attempt_conflict 2 0 kn w cur c1 _ Hcur Hkey Hf Hc1) by lia.
    erewrite (attempt_conflict 1 _ kn _ second c2 rest);
      [|apply lookup_insert_eq|done|done|done|lia].
    erewrite (attempt_served 0 _ kn _ third);
      [|apply lookup_insert_eq|done|done|done]. simpl.
    eexists. split_and!; [reflexivity| | |reflexivity|reflexivity|reflexivity
                          |reflexivity].
    + cbn [trace]. rewrite <- !app_assoc. reflexivity.
    + apply lookup_insert_eq.
  - intros cur c1 c2 c3 rest Hcur Hkey Hf Hc1 Hc2 Hc3 second third.
    unfold updateStatusWithRetry.
    rewrite (attempt_conflict 2 0 kn w cur c1 _ Hcur Hkey Hf Hc1) by lia.
    erewrite (attempt_conflict 1 _ kn _ second c2 _);
      [|apply lookup_insert_eq|done|done|done|lia].
    erewrite (attempt_refused 0 _ kn _ third c3 rest);
      [|apply lookup_insert_eq|done|done|right; lia].
    eexists. split_and!; [reflexivity| | |reflexivity].
    + cbn [trace]. rewrite <- !app_assoc. reflexivity.
    + cbn [objects]. unfold refusedStore. rewrite Hc3.
      change (objKey (OKubeNova third)) with (objKey (OKubeNova cur)).
      rewrite Hkey. apply lookup_insert_eq.
Qed.

(** The second part of [status_writer_retries] on [conflictWorld]: the
    token the caller ends with is 10, three after the token 7 of the root
    that the first attempt read. *)
Lemma status_writer_retries_witness :
  ∃ kn' w',
    updateStatusWithRetry sampleRoot conflictWorld = Done (kn', None) w'
    ∧ objects w' !! rootKeyOf sampleRoot
      = Some (OKubeNova
                (statusWritten (KubeNova.Status sampleRoot)
                   (overtakenRoot (overtakenRoot sampleRoot))))
    ∧ KubeNova.ResourceVersion sampleRoot = 7%nat
    ∧ KubeNova.ResourceVersion kn' = 10%nat.
Proof.
  destruct (status_writer_retries sampleRoot conflictWorld) as (_ & Hretry & _).
  destruct (Hretry sampleRoot conflictError conflictError [])
    as (w' & Hrun & _ & Hstored & _); try reflexivity; try exact I.
  eexists _, w'. split_and!; [exact Hrun|exact Hstored|reflexivity|reflexivity].
Defined.

(** * The deletion lifecycle *)

(** The name under which the deletion lifecycle looks the cluster-scoped
    binding up is the name the RBAC builder gives the binding it builds for
    the same root, and both are [kube-nova-{namespace}-{name}-cluster-admin]. *)
Lemma binding_name_of_root (kn : KubeNova.t) :
  crbNameOf kn
  = ObjectMeta.Name
      (ClusterRoleBinding.Meta (BuildClusterRoleBinding kn (KubeNova.Namespace kn)))
  ∧ crbNameOf kn
    = "kube-nova-" +:+ KubeNova.Namespace kn +:+ "-" +:+ KubeNova.Name kn
      +:+ "-cluster-admin"
  ∧ objKey (OClusterRoleBinding (BuildClusterRoleBinding kn (KubeNova.Namespace kn)))
    = ("ClusterRoleBinding", "", crbNameOf kn).
Proof. split_and!; reflexivity. Qed.

(** C2, at the failing input.  Deletion was requested, the binding exists
    and its read times out: the pass never issues a delete call, removes
    the finalizer (so that the store drops the root) and reports success,
    and the binding is still stored afterwards.  With a store that answers,
    the same pass deletes the binding first. *)
Theorem finalizer_removed_without_cleanup :
  let run := Reconcile sampleBuilders sampleReq deleteWorld in
  resultOf run = Some (CtrlResult.zero, None)
  ∧ objects deleteWorld !! rootKey sampleReq = Some (OKubeNova deletingRoot)
  ∧ objects (finalWorld run) !! rootKey sampleReq = None
  ∧ objects (finalWorld run) !! bindingKey = Some (OClusterRoleBinding storedBinding)
  ∧ existsb isDelete (trace (finalWorld run)) = false
  ∧ (let quiet := Reconcile sampleBuilders sampleReq deleteWorldQuiet in
     resultOf quiet = Some (CtrlResult.zero, None)
     ∧ objects (finalWorld quiet) !! bindingKey = None
     ∧ objects (finalWorld quiet) !! rootKey sampleReq = None).
Proof. vm_compute. done. Qed.

(** * Reads, in terms of the store *)

Lemma asResult_wrap {T} `{Resource T} (t : T) : asResult (RObject (wrap t)) = Found t.
Proof.
  simpl. destruct (unwrap (wrap t)) as [t'|] eqn:Hu.
  - apply unwrap_wrap in Hu. f_equal.
    assert (unwrap (wrap t) = Some t) as Ht by (by apply unwrap_wrap).
    assert (unwrap (wrap t) = Some t') as Ht' by (by apply unwrap_wrap).
    congruence.
  - assert (unwrap (wrap t) = Some t) as Ht by (by apply unwrap_wrap). congruence.
Qed.

Lemma Get_found T `{Resource T} namespace name w (t : T) :
  quietHead (faults w) →
  objects w !! (kindOf T, namespace, name) = Some (wrap t) →
  Get T namespace name w
  = Done (Found t)
      (logged w (CGet (kindOf T, namespace, name)) (RObject (wrap t)) (objects w)).
Proof.
  intros Hq Hl. rewrite Get_run. cbv zeta.
  unfold replyOf, answer. rewrite (nextFault_quiet _ Hq).
  unfold serveGet. rewrite Hl. simpl fst. by rewrite asResult_wrap.
Qed.

Lemma Get_absent T `{Resource T} namespace name w :
  quietHead (faults w) →
  objects w !! (kindOf T, namespace, name) = None →
  Get T namespace name w
  = Done (Failed (NewNotFound (kindOf T) name))
      (logged w (CGet (kindOf T, namespace, name))
         (RError (NewNotFound (kindOf T) name)) (objects w)).
Proof.
  intros Hq Hl. rewrite Get_run. cbv zeta.
  unfold replyOf, answer. rewrite (nextFault_quiet _ Hq).
  unfold serveGet. rewrite Hl. reflexivity.
Qed.

Lemma Get_fault T `{Resource T} namespace name w e rest :
  faults w = Some e :: rest →
  Get T namespace name w
  = Done (Failed e)
      (logged w (CGet (kindOf T, namespace, name)) (RError e) (objects w)).
Proof.
  intros Hf. rewrite Get_run. cbv zeta.
  unfold replyOf, answer, nextFault. rewrite Hf. reflexivity.
Qed.

Lemma Get_deployment_found namespace name w (d : Deployment.t) :
  quietHead (faults w) →
  objects w !! ("Deployment", namespace, name) = Some (ODeployment d) →
  Get Deployment.t namespace name w
  = Done (Found d)
      (logged w (CGet ("Deployment", namespace, name)) (RObject (ODeployment d))
         (objects w)).
Proof. intros Hq Hl. exact (Get_found Deployment.t namespace name w d Hq Hl). Qed.

Lemma Get_deployment_absent namespace name w :
  quietHead (faults w) →
  objects w !! ("Deployment", namespace, name) = None →
  ∃ e, Get Deployment.t namespace name w
       = Done (Failed e)
           (logged w (CGet ("Deployment", namespace, name)) (RError e) (objects w)).
Proof.
  intros Hq Hl. eexists. exact (Get_absent Deployment.t namespace name w Hq Hl).
Qed.

(** * The status aggregator *)

(** The classification of a backend component. *)
Lemma serviceStatus_state ready desired now :
  let st := (serviceStatus ready desired now).1 in
  (ComponentStatus.State st = ComponentStateReady ↔ ready = desired)
  ∧ (ComponentStatus.State st = ComponentStateRunning ↔ ready ≠ desired ∧ 0 < ready)
  ∧ (ComponentStatus.State st = ComponentStatePending ↔ ready ≠ desired ∧ ready ≤ 0)
  ∧ ComponentStatus.ReadyReplicas st = ready
  ∧ ComponentStatus.DesiredReplicas st = desired
  ∧ (serviceStatus ready desired now).2 = bool_decide (ready = desired).
Proof.
  unfold serviceStatus. repeat case_bool_decide; simpl; split_and!;
    try reflexivity; (split; [try discriminate; try done; lia | intros; try done; lia]).
Qed.

(** The classification of the web front end. *)
Lemma webStatus_state ready desired now :
  let st := (webStatus ready desired now).1 in
  (ComponentStatus.State st = ComponentStateReady ↔ ready = desired)
  ∧ (ComponentStatus.State st = ComponentStateRunning ↔ ready ≠ desired)
  ∧ ComponentStatus.State st ≠ ComponentStatePending
  ∧ ComponentStatus.ReadyReplicas st = ready
  ∧ ComponentStatus.DesiredReplicas st = desired
  ∧ (webStatus ready desired now).2 = bool_decide (ready = desired).
Proof.
  unfold webStatus. case_bool_decide; simpl; split_and!;
    try reflexivity; try discriminate; (split; [try discriminate; done | done]).
Qed.

(** C4 (as amended).  A backend component whose workload document is read is
    recorded as Ready exactly when its ready count equals its desired count
    (zero of zero included), as Running exactly when the counts differ and
    the ready count is positive (above the desired count included), and as
    Pending exactly when the counts differ and no replica is ready; the web
    front end is recorded as Ready exactly when the counts are equal and as
    Running otherwise, never as Pending.  A component whose document cannot
    be read (absent, or the read failed) leaves the recorded statuses and
    [allReady] as they were, and raises no error. *)
Theorem component_classification
    (namespace name : string) (services : gmap string ComponentStatus.t)
    (allReady : bool) (kubenova : KubeNova.t) (w : World) :
  (∀ d desired,
     quietHead (faults w) →
     objects w !! ("Deployment", namespace, name) = Some (ODeployment d) →
     DeploymentSpec.Replicas (Deployment.Spec d) = Some desired →
     let ready := DeploymentStatus.ReadyReplicas (Deployment.Status d) in
     ∃ st w1,
       checkServiceStatus namespace (services, allReady) name w
       = Done (<[name := st]> services, allReady && bool_decide (ready = desired)) w1
       ∧ (ComponentStatus.State st = ComponentStateReady ↔ ready = desired)
       ∧ (ComponentStatus.State st = ComponentStateRunning
          ↔ ready ≠ desired ∧ 0 < ready)
       ∧ (ComponentStatus.State st = ComponentStatePending
          ↔ ready ≠ desired ∧ ready ≤ 0)
       ∧ ComponentStatus.ReadyReplicas st = ready
       ∧ ComponentStatus.DesiredReplicas st = desired)
  ∧ ((quietHead (faults w) ∧ objects w !! ("Deployment", namespace, name) = None)
     ∨ (∃ e rest, faults w = Some e :: rest) →
     ∃ w1, checkServiceStatus namespace (services, allReady) name w
           = Done (services, allReady) w1)
  ∧ (∀ d desired,
       quietHead (faults w) →
       objects w !! ("Deployment", namespace, webServiceName) = Some (ODeployment d) →
       DeploymentSpec.Replicas (Deployment.Spec d) = Some desired →
       let ready := DeploymentStatus.ReadyReplicas (Deployment.Status d) in
       ∃ st w1,
         checkWebStatus namespace kubenova allReady w
         = Done (withWebStatus st kubenova,
                 allReady && bool_decide (ready = desired)) w1
         ∧ (ComponentStatus.State st = ComponentStateReady ↔ ready = desired)
         ∧ (ComponentStatus.State st = ComponentStateRunning ↔ ready ≠ desired)
         ∧ ComponentStatus.State st ≠ ComponentStatePending
         ∧ ComponentStatus.ReadyReplicas st = ready
         ∧ ComponentStatus.DesiredReplicas st = desired)
  ∧ ((quietHead (faults w)
      ∧ objects w !! ("Deployment", namespace, webServiceName) = None)
     ∨ (∃ e rest, faults w = Some e :: rest) →
     ∃ w1, checkWebStatus namespace kubenova allReady w
           = Done (kubenova, allReady) w1).
Proof.
  split_and!.
  - intros d desired Hq Hd Hr ready. unfold checkServiceStatus.
    rewrite (bind_run _ _ _ _ _ (Get_deployment_found namespace name w d Hq Hd)).
    rewrite Hr. unfold bind, deref, Now, ret.
    pose proof (serviceStatus_state ready desired
                  (clock (logged w (CGet ("Deployment", namespace, name))
                            (RObject (ODeployment d)) (objects w))))
      as (H1 & H2 & H3 & H4 & H5 & H6).
    fold ready. destruct (serviceStatus ready desired _) as [st ok].
    simpl in *. subst ok. eexists st, _. split_and!; done.
  - intros [[Hq Hn]|(e & rest & Hf)]; unfold checkServiceStatus.
    + destruct (Get_deployment_absent namespace name w Hq Hn) as [e He].
      rewrite (bind_run _ _ _ _ _ He). by eexists.
    + rewrite (bind_run _ _ _ _ _ (Get_fault Deployment.t namespace name w e rest Hf)).
      by eexists.
  - intros d desired Hq Hd Hr ready. unfold checkWebStatus.
    rewrite (bind_run _ _ _ _ _
               (Get_deployment_found namespace webServiceName w d Hq Hd)).
    rewrite Hr. unfold bind, deref, Now, ret.
    pose proof (webStatus_state ready desired
                  (clock (logged w (CGet ("Deployment", namespace, webServiceName))
                            (RObject (ODeployment d)) (objects w))))
      as (H1 & H2 & H3 & H4 & H5 & H6).
    fold ready. destruct (webStatus ready desired _) as [st ok].
    simpl in *. subst ok. eexists st, _. split_and!; done.
  - intros [[Hq Hn]|(e & rest & Hf)]; unfold checkWebStatus.
    + destruct (Get_deployment_absent namespace webServiceName w Hq Hn) as [e He].
      rewrite (bind_run _ _ _ _ _ He). by eexists.
    + rewrite (bind_run _ _ _ _ _
                 (Get_fault Deployment.t namespace webServiceName w e rest Hf)).
      by eexists.
Qed.

Definition portalApiScaling : Deployment.t :=
  match storedWorkload "prod" "portal-api" (Some 2) 3 with
  | ODeployment d => d
  | _ => buildWebDeployment sampleRoot "prod"
  end.

(** The first part of [component_classification] on [scalingWorld]. *)
Lemma component_classification_witness :
  ∃ st w1,
    checkServiceStatus "prod" (∅, true) "portal-api" scalingWorld
    = Done (<["portal-api" := st]> ∅, true && bool_decide (3 = 2)) w1
    ∧ (ComponentStatus.State st = ComponentStateReady ↔ 3 = 2)
    ∧ (ComponentStatus.State st = ComponentStateRunning ↔ 3 ≠ 2 ∧ 0 < 3)
    ∧ (ComponentStatus.State st = ComponentStatePending ↔ 3 ≠ 2 ∧ 3 ≤ 0)
    ∧ ComponentStatus.ReadyReplicas st = 3
    ∧ ComponentStatus.DesiredReplicas st = 2.
Proof.
  refine (proj1 (component_classification "prod" "portal-api" ∅ true sampleRoot
                   scalingWorld) portalApiScaling 2 _ _ _);
    [exact I|reflexivity|reflexivity].
Defined.

(** C4, as stated, fails on [scalingWorld]: [portal-api] is recorded as
    Running although its ready count is not below the desired one,
    [manager-api] as Ready and the web front end as Running although neither
    has a ready replica. *)
Lemma component_classification_counterexample :
  ∃ kn' allReady w',
    observeComponents sampleRoot scalingWorld = Done (kn', allReady) w'
    ∧ serviceStateOf kn' "portal-api" = Some ComponentStateRunning
    ∧ serviceStateOf kn' "manager-api" = Some ComponentStateReady
    ∧ webStateOf kn' = Some ComponentStateRunning
    ∧ ComponentStateRunning ≠ ComponentStatePending
    ∧ ComponentStateReady ≠ ComponentStatePending.
Proof. eexists _, _, _. split_and!; [vm_compute; reflexivity|done..]. Qed.

(** * Access information *)

(** No listed node carries an external or internal address (an empty list
    included). *)
Definition noUsableAddress (items : list Node.t) : Prop :=
  ∀ node addr, node ∈ items → addr ∈ Node.Addresses node →
    NodeAddress.Type_ addr ≠ NodeExternalIP
    ∧ NodeAddress.Type_ addr ≠ NodeInternalIP.

(** The marker that stands for the node address in a URL. *)
Definition nodeMarker : string := "<NODE-IP>".

Fixpoint startsWith (p s : string) : bool :=
  match p, s with
  | EmptyString, _ => true
  | String a p', String b s' => bool_decide (a = b) && startsWith p' s'
  | String _ _, EmptyString => false
  end.

(** [p] occurs in [s]. *)
Fixpoint contains (p s : string) : bool :=
  startsWith p s
  || match s with
     | EmptyString => false
     | String _ s' => contains p s'
     end.

Definition hasMarker (url : string) : bool := contains nodeMarker url.

(** No port of the list has the name [name] and a positive node port. *)
Definition unassigned (name : string) (ports : list ServicePort.t) : Prop :=
  Forall (fun port => ¬ (ServicePort.Name port = name ∧ 0 < ServicePort.NodePort port))
         ports.

(** [p] is the node port of the last port of the list that has the name
    [name] and a positive node port. *)
Definition lastAssigned (name : string) (ports : list ServicePort.t) (p : Z)
  : Prop :=
  ∃ pre port post,
    ports = pre ++ port :: post
    ∧ ServicePort.Name port = name ∧ ServicePort.NodePort port = p ∧ 0 < p
    ∧ unassigned name post.

(** The web URL of node-port mode when no node address is known, from the
    reply [r] to the read of the network-expose document of the web front
    end: a URL whose host is the marker when the document assigns a node
    port to [https] or, failing that, to [http]; a notice that the ports
    are being assigned when it assigns none; a notice that the document is
    being created when the read did not return it. *)
Definition placeholderFor (r : Reply) (url : string) : Prop :=
  match r with
  | RObject (OService svc) =>
      let ports := ServiceSpec.Ports (Service.Spec svc) in
      (∃ p, lastAssigned "https" ports p
            ∧ url = "https://<NODE-IP>:" +:+ pretty p)
      ∨ (unassigned "https" ports
         ∧ ∃ p, lastAssigned "http" ports p
                ∧ url = "http://<NODE-IP>:" +:+ pretty p)
      ∨ (unassigned "https" ports ∧ unassigned "http" ports
         ∧ url = "NodePort (端口分配中...)")
  | _ => url = "Service 创建中..."
  end.

(** The read returned the document and it assigns a node port to [http] or
    [https]. *)
Definition portAssigned (r : Reply) : Prop :=
  ∃ svc p,
    r = RObject (OService svc)
    ∧ (lastAssigned "https" (ServiceSpec.Ports (Service.Spec svc)) p
       ∨ lastAssigned "http" (ServiceSpec.Ports (Service.Spec svc)) p).

Lemma find_none_unusable (p : NodeAddress.t → bool) (addrs : list NodeAddress.t) :
  (∀ addr, addr ∈ addrs → p addr = false) → List.find p addrs = None.
Proof.
  induction addrs as [|a addrs IH]; intros H; [reflexivity|]. simpl.
  rewrite (H a) by left. apply IH. intros addr Hin. apply H. by right.
Qed.

Lemma readyNodeIP_unusable items : noUsableAddress items → readyNodeIP items = None.
Proof.
  induction items as [|node items IH]; intros Hu; [reflexivity|]. simpl.
  assert (noUsableAddress items) as Hrest.
  { intros n a Hn Ha. apply (Hu n a); [by right|done]. }
  destruct (nodeIsReady node); simpl; [|by apply IH].
  unfold firstAddress.
  rewrite !find_none_unusable; simpl; [by apply IH| |].
  - intros addr Hin. unfold isInternalIP. apply bool_decide_eq_false.
    apply (Hu node addr); [left|done].
  - intros addr Hin. unfold isExternalIP. apply bool_decide_eq_false.
    apply (Hu node addr); [left|done].
Qed.

Lemma pickNodeIP_unusable items : noUsableAddress items → pickNodeIP items = "".
Proof.
  intros Hu. unfold pickNodeIP. case_bool_decide; [reflexivity|].
  rewrite (readyNodeIP_unusable _ Hu). destruct items as [|first items]; [done|].
  unfold firstAddress. rewrite find_none_unusable; [reflexivity|].
  intros addr Hin. destruct (Hu first addr) as [He Hi]; [left|done|].
  unfold isExternalIP, isInternalIP. by rewrite !bool_decide_eq_false_2.
Qed.

Lemma ListNodes_run w :
  ListNodes w
  = match nextFault w with
    | Some e => Done (Failed e) (logged w (CList "Node") (RError e) (objects w))
    | None =>
        Done (Found (nodes w))
          (logged w (CList "Node") (RNodes (nodes w)) (objects w))
    end.
Proof.
  unfold ListNodes. rewrite (bind_run _ _ _ _ _ (invoke_run _ _ _)).
  rewrite settled_other by done.
  unfold replyOf, answer. by destruct (nextFault w).
Qed.

(** [getNodeIP] always returns; it returns the empty string when the
    listing fails, and the pick over the listed nodes otherwise. *)
Lemma getNodeIP_run w :
  ∃ w1,
    getNodeIP w
    = Done (match nextFault w with
            | Some _ => ""
            | None => pickNodeIP (nodes w)
            end) w1
    ∧ nodes w1 = nodes w.
Proof.
  unfold getNodeIP, bind. rewrite ListNodes_run.
  destruct (nextFault w); eexists; split; reflexivity.
Qed.

Lemma contains_occurs (p pre post : string) :
  contains p (pre +:+ p +:+ post) = true.
Proof.
  assert (∀ s, contains p s
               = startsWith p s
                 || match s with
                    | EmptyString => false
                    | String _ s' => contains p s'
                    end) as Hunfold by (by intros []).
  induction pre as [|a pre IH].
  - assert (startsWith p (p +:+ post) = true) as Hs.
    { induction p as [|b p IHp]; simpl; [done|].
      rewrite bool_decide_eq_true_2 by done. apply IHp.
      intros s. by destruct s. }
    change ("" +:+ p +:+ post) with (p +:+ post). by rewrite Hunfold, Hs.
  - change (String a pre +:+ p +:+ post) with (String a (pre +:+ p +:+ post)).
    rewrite Hunfold, IH. apply orb_true_r.
Qed.

Lemma startsWith_spec (p s : string) :
  startsWith p s = true ↔ ∃ post, s = p +:+ post.
Proof.
  revert s. induction p as [|a p IH]; intros s; simpl.
  - split; [by exists s|done].
  - destruct s as [|b s]; [split; [done|by intros [post Hp]]|].
    rewrite andb_true_iff, bool_decide_eq_true, IH. split.
    + intros [-> [post ->]]. by exists post.
    + intros [post [= -> ->]]. split; [done|by exists post].
Qed.

(** [contains p s] holds exactly when [p] occurs in [s]. *)
Lemma contains_spec (p s : string) :
  contains p s = true ↔ ∃ pre post, s = pre +:+ p +:+ post.
Proof.
  split; [|intros (pre & post & ->); apply contains_occurs].
  induction s as [|c s IH]; simpl; rewrite orb_true_iff.
  - intros [Hs|]; [|done]. apply startsWith_spec in Hs as [post Hp].
    by exists "", post.
  - intros [Hs|Hc].
    + apply startsWith_spec in Hs as [post Hp]. by exists "", post.
    + destruct (IH Hc) as (pre & post & ->). by exists (String c pre), post.
Qed.

Lemma lastNodePort_spec name ports :
  (unassigned name ports ∧ lastNodePort name ports = 0)
  ∨ lastAssigned name ports (lastNodePort name ports).
Proof.
  unfold lastNodePort. induction ports as [|port ports IH] using rev_ind.
  - left. split; [constructor|reflexivity].
  - rewrite foldl_snoc.
    destruct (bool_decide (ServicePort.Name port = name)
              && bool_decide (ServicePort.NodePort port > 0)) eqn:Hp.
    + apply andb_true_iff in Hp as [Hn Hpos].
      apply bool_decide_eq_true in Hn, Hpos.
      right. exists ports, port, []. split_and!; [done|done|done|lia|constructor].
    + assert (¬ (ServicePort.Name port = name ∧ 0 < ServicePort.NodePort port))
        as Hno.
      { intros [Hn Hpos]. apply andb_false_iff in Hp as [Hp|Hp];
          apply bool_decide_eq_false in Hp; [done|lia]. }
      destruct IH as [[Hu H0]|(pre & q & post & Heq & Hn & Hq & Hpos & Hpost)].
      * left. split; [|done]. apply Forall_app. split; [done|by constructor].
      * right. exists pre, q, (post ++ [port]).
        split_and!; [by rewrite Heq, <- app_assoc|done|done|done|].
        apply Forall_app. split; [done|by constructor].
Qed.

Lemma lastAssigned_unassigned name ports p :
  lastAssigned name ports p → unassigned name ports → False.
Proof.
  intros (pre & port & post & -> & Hn & Hp & Hpos & _) Hu.
  apply Forall_app in Hu as [_ Hu]. apply Forall_cons in Hu as [Hu _].
  apply Hu. split; [done|lia].
Qed.

(** The URL composed without a node address. *)
Lemma nodePortURL_placeholder (svc : Service.t) :
  let ports := ServiceSpec.Ports (Service.Spec svc) in
  placeholderFor (RObject (OService svc))
    (nodePortURL "" (lastNodePort "http" ports) (lastNodePort "https" ports)).
Proof.
  cbv zeta. unfold nodePortURL, placeholderFor.
  rewrite (bool_decide_eq_false_2 ("" ≠ "")) by (intros H; by apply H).
  destruct (lastNodePort_spec "https" (ServiceSpec.Ports (Service.Spec svc)))
    as [[Hus H0s]|Hs].
  - rewrite H0s. rewrite (bool_decide_eq_false_2 (0 > 0)) by lia.
    destruct (lastNodePort_spec "http" (ServiceSpec.Ports (Service.Spec svc)))
      as [[Hu H0]|Hh].
    + rewrite H0. rewrite (bool_decide_eq_false_2 (0 > 0)) by lia.
      right; right. by split_and!.
    + assert (0 < lastNodePort "http" (ServiceSpec.Ports (Service.Spec svc))) as Hpos.
      { by destruct Hh as (pre & port & post & _ & _ & _ & Hpos & _). }
      rewrite bool_decide_eq_true_2 by lia.
      right; left. split; [done|]. by eexists.
  - assert (0 < lastNodePort "https" (ServiceSpec.Ports (Service.Spec svc))) as Hpos.
    { by destruct Hs as (pre & port & post & _ & _ & _ & Hpos & _). }
    rewrite bool_decide_eq_true_2 by lia. left. by eexists.
Qed.

(** A placeholder is never empty, and it carries the marker exactly when a
    node port is assigned. *)
Lemma placeholderFor_marker r url :
  placeholderFor r url →
  url ≠ "" ∧ (hasMarker url = true ↔ portAssigned r).
Proof.
  unfold placeholderFor, portAssigned, hasMarker.
  destruct r as [o| | |e]; try (intros ->; split; [discriminate|];
    split; [discriminate|by intros (svc & p & Hr & _)]).
  destruct o as [| |svc| | | | | |]; try (intros ->; split; [discriminate|];
    split; [discriminate|by intros (svc & p & Hr & _)]).
  cbv zeta.
  intros [(p & Hp & ->)|[(Hus & p & Hp & ->)|(Hus & Hu & ->)]].
  - split; [discriminate|]. split;
      [|intros _; exact (contains_occurs nodeMarker "https://" (":" +:+ pretty p))].
    intros _. exists svc, p. split; [done|by left].
  - split; [discriminate|]. split;
      [|intros _; exact (contains_occurs nodeMarker "http://" (":" +:+ pretty p))].
    intros _. exists svc, p. split; [done|by right].
  - split; [discriminate|]. split; [discriminate|].
    intros (svc' & p & [= <-] & [Hp|Hp]); exfalso;
      eapply lastAssigned_unassigned; eauto.
Qed.

(** The tail of [updateAccessInfo], after the web URL was decided: it
    always returns and keeps the URL. *)
Definition finishAccessInfo (kubenova : KubeNova.t) (namespace : string)
    (info : AccessInfo.t) : M KubeNova.t :=
  let spec := KubeNova.Spec kubenova in
  let endpoints := default ∅ (AccessInfo.ServiceEndpoints info) in
  let endpoints :=
    foldl (fun m svc => <[svc := svc +:+ "." +:+ namespace +:+ ".svc.cluster.local"]> m)
          endpoints backendServices in
  let info := AccessInfo.withServiceEndpoints (Some endpoints) info in
  let info := AccessInfo.withDatabaseEndpoint
                (GetDatabaseEndpoint (KubeNovaSpec.Database spec)) info in
  let info := AccessInfo.withCacheEndpoint
                (GetCacheEndpoint (KubeNovaSpec.Cache spec)) info in
  let info := AccessInfo.withStorageEndpoint
                (GetStorageEndpoint (KubeNovaSpec.Storage spec)) info in
  let* info :=
    if IsTelemetryEnabled kubenova then
      let* t := deref (KubeNovaSpec.Telemetry spec) in
      ret (AccessInfo.withJaegerUIURL (TelemetryConfig.JaegerEndpoint t) info)
    else ret info in
  ret (KubeNova.withStatus
         (KubeNovaStatus.withAccessInfo (Some info) (KubeNova.Status kubenova))
         kubenova).

Lemma finishAccessInfo_run kubenova namespace info w :
  ∃ info',
    finishAccessInfo kubenova namespace info w
    = Done (KubeNova.withStatus
              (KubeNovaStatus.withAccessInfo (Some info') (KubeNova.Status kubenova))
              kubenova) w
    ∧ AccessInfo.WebURL info' = AccessInfo.WebURL info.
Proof.
  unfold finishAccessInfo, IsTelemetryEnabled, bind, deref, ret.
  destruct (KubeNovaSpec.Telemetry (KubeNova.Spec kubenova)) as [t|];
    [destruct (TelemetryConfig.Enabled t)|]; eexists; split; reflexivity.
Qed.

(** C8 (as amended).  [updateAccessInfo] has no error result and never
    panics.  In node-port mode, when the listed nodes carry no usable
    address (an empty list included) or the listing call fails, the web URL
    it records is never empty and is decided by the reply to the read of
    the network-expose document of the web front end:
    [https://<NODE-IP>:p] with the last positive node port [p] named
    [https], else [http://<NODE-IP>:p] with the last positive node port
    named [http], else the notice that the ports are being assigned, and
    the notice that the document is being created when the read did not
    return it.  So the URL carries the marker exactly when the document was
    read and assigns a node port; the two notices carry none. *)
Theorem access_info_placeholder (kubenova : KubeNova.t) (namespace : string)
    (w : World) :
  (∃ kn' w' info,
     updateAccessInfo kubenova namespace w = Done kn' w'
     ∧ KubeNovaStatus.AccessInfo (KubeNova.Status kn') = Some info)
  ∧ (WebConfig.ExposeType (KubeNovaSpec.Web (KubeNova.Spec kubenova)) = "nodeport" →
     noUsableAddress (nodes w) ∨ (∃ f e rest, faults w = f :: Some e :: rest) →
     let r := replyOf w (serveGet ("Service", namespace, "kube-nova-web") (objects w)) in
     ∃ kn' w' info,
       updateAccessInfo kubenova namespace w = Done kn' w'
       ∧ KubeNovaStatus.AccessInfo (KubeNova.Status kn') = Some info
       ∧ placeholderFor r (AccessInfo.WebURL info)
       ∧ AccessInfo.WebURL info ≠ ""
       ∧ (hasMarker (AccessInfo.WebURL info) = true ↔ portAssigned r)).
Proof.
  change (updateAccessInfo kubenova namespace)
    with (let web := KubeNovaSpec.Web (KubeNova.Spec kubenova) in
          let info :=
            default AccessInfo.zero
              (KubeNovaStatus.AccessInfo (KubeNova.Status kubenova)) in
          bind
            match (if bool_decide (WebConfig.ExposeType web = "ingress")
                   then WebConfig.Ingress web else None) with
            | Some ing =>
                let protocol :=
                  match IngressConfig.TLS ing with
                  | Some tls => if IngressTLSConfig.Enabled tls then "https" else "http"
                  | None => "http"
                  end in
                ret (AccessInfo.withWebURL
                       (protocol +:+ "://" +:+ IngressConfig.Host ing) info)
            | None =>
                if bool_decide (WebConfig.ExposeType web = "nodeport") then
                  let* g := Get Service.t namespace webServiceName in
                  match g with
                  | Found webSvc =>
                      let ports := ServiceSpec.Ports (Service.Spec webSvc) in
                      let httpPort := lastNodePort "http" ports in
                      let httpsPort := lastNodePort "https" ports in
                      let* nodeIP := getNodeIP in
                      ret (AccessInfo.withWebURL
                             (nodePortURL nodeIP httpPort httpsPort) info)
                  | Failed _ => ret (AccessInfo.withWebURL "Service 创建中..." info)
                  end
                else ret info
            end
            (finishAccessInfo kubenova namespace)).
  cbv zeta.
  set (info := default AccessInfo.zero _).
  set (web := KubeNovaSpec.Web (KubeNova.Spec kubenova)).
  split.
  - assert (∃ i w1, match (if bool_decide (WebConfig.ExposeType web = "ingress")
                           then WebConfig.Ingress web else None) with
                    | Some ing =>
                        ret (AccessInfo.withWebURL
                               (match IngressConfig.TLS ing with
                                | Some tls =>
                                    if IngressTLSConfig.Enabled tls
                                    then "https" else "http"
                                | None => "http"
                                end +:+ "://" +:+ IngressConfig.Host ing) info)
                    | None =>
                        if bool_decide (WebConfig.ExposeType web = "nodeport") then
                          let* g := Get Service.t namespace webServiceName in
                          match g with
                          | Found webSvc =>
                              let* nodeIP := getNodeIP in
                              ret (AccessInfo.withWebURL
                                     (nodePortURL nodeIP
                                        (lastNodePort "http"
                                           (ServiceSpec.Ports (Service.Spec webSvc)))
                                        (lastNodePort "https"
                                           (ServiceSpec.Ports (Service.Spec webSvc))))
                                     info)
                          | Failed _ =>
                              ret (AccessInfo.withWebURL "Service 创建中..." info)
                          end
                        else ret info
                    end w = Done i w1) as (i & w1 & Hrun).
    { destruct (if bool_decide (WebConfig.ExposeType web = "ingress")
                then WebConfig.Ingress web else None); [by eexists _, _|].
      destruct (bool_decide (WebConfig.ExposeType web = "nodeport"));
        [|by eexists _, _].
      rewrite (bind_run _ _ _ _ _ (Get_run Service.t namespace webServiceName w)).
      cbv zeta. destruct (asResult _) as [webSvc|err]; [|by eexists _, _].
      destruct (getNodeIP_run (logged w (CGet (kindOf Service.t, namespace,
                                                 webServiceName))
                                 (replyOf w (serveGet (kindOf Service.t, namespace,
                                                       webServiceName) (objects w)))
                                 (objects w))) as (w2 & Hn & _).
      rewrite (bind_run _ _ _ _ _ Hn). by eexists _, _. }
    rewrite (bind_run _ _ _ _ _ Hrun).
    destruct (finishAccessInfo_run kubenova namespace i w1) as (info' & Hfin & _).
    rewrite Hfin. by eexists _, _, _.
  - intros Hmode Hun.
    rewrite (bool_decide_eq_false_2 (WebConfig.ExposeType web = "ingress"))
      by (subst web; rewrite Hmode; discriminate).
    rewrite (bool_decide_eq_true_2 (WebConfig.ExposeType web = "nodeport")) by done.
    cbv beta iota.
    set (r := replyOf w (serveGet ("Service", namespace, "kube-nova-web") (objects w))).
    assert (∃ i w2,
              (let* g := Get Service.t namespace webServiceName in
               match g with
               | Found webSvc =>
                   let* nodeIP := getNodeIP in
                   ret (AccessInfo.withWebURL
                          (nodePortURL nodeIP
                             (lastNodePort "http"
                                (ServiceSpec.Ports (Service.Spec webSvc)))
                             (lastNodePort "https"
                                (ServiceSpec.Ports (Service.Spec webSvc))))
                          info)
               | Failed _ => ret (AccessInfo.withWebURL "Service 创建中..." info)
               end) w = Done i w2
              ∧ placeholderFor r (AccessInfo.WebURL i)) as (i & w2 & Hrun & Hp).
    { rewrite (bind_run _ _ _ _ _ (Get_run Service.t namespace webServiceName w)).
      cbv zeta.
      change (replyOf w (serveGet (kindOf Service.t, namespace, webServiceName)
                           (objects w))) with r.
      set (w1 := logged w _ r _).
      destruct (asResult r) as [webSvc|err] eqn:Hr.
      - assert (r = RObject (OService webSvc)) as Hsvc.
        { destruct r as [o| | |e]; simpl in Hr; try discriminate.
          destruct o; simpl in Hr; try discriminate. by injection Hr as ->. }
        destruct (getNodeIP_run w1) as (w2 & Hn & _).
        rewrite (bind_run _ _ _ _ _ Hn).
        assert (match nextFault w1 with
                | Some _ => ""
                | None => pickNodeIP (nodes w1)
                end = "") as ->.
        { destruct (nextFault w1) eqn:Hf1; [done|].
          destruct Hun as [Hun|(f & e & rest & Hf)].
          - by apply pickNodeIP_unusable.
          - subst w1. unfold nextFault, logged in Hf1. simpl in Hf1.
            rewrite Hf in Hf1. discriminate. }
        eexists _, _. split; [reflexivity|]. rewrite Hsvc.
        apply nodePortURL_placeholder.
      - eexists _, _. split; [reflexivity|].
        destruct r as [o| | |e]; simpl in *; try done.
        destruct o; simpl in *; try done. }
    rewrite (bind_run _ _ _ _ _ Hrun).
    destruct (finishAccessInfo_run kubenova namespace i w2) as (info' & Hfin & Hurl).
    rewrite Hfin. rewrite <- Hurl in Hp.
    destruct (placeholderFor_marker _ _ Hp) as [Hne Hmark].
    by eexists _, _, info'.
Qed.

(** The second part of [access_info_placeholder] on [nodePortWorld], whose
    only node has no usable address. *)
Lemma access_info_placeholder_witness :
  let r :=
    replyOf nodePortWorld
      (serveGet ("Service", "prod", "kube-nova-web") (objects nodePortWorld)) in
  ∃ kn' w' info,
    updateAccessInfo sampleRoot "prod" nodePortWorld = Done kn' w'
    ∧ KubeNovaStatus.AccessInfo (KubeNova.Status kn') = Some info
    ∧ placeholderFor r (AccessInfo.WebURL info)
    ∧ AccessInfo.WebURL info ≠ ""
    ∧ (hasMarker (AccessInfo.WebURL info) = true ↔ portAssigned r).
Proof.
  refine (proj2 (access_info_placeholder sampleRoot "prod" nodePortWorld) eq_refl _).
  left. intros node addr Hn Ha. simpl in Hn.
  apply list_elem_of_singleton in Hn as ->. simpl in Ha.
  apply list_elem_of_singleton in Ha as ->. split; discriminate.
Defined.

(** On that world the network-expose document assigns the node port 31080
    to [http], and the URL carries the marker. *)
Lemma access_info_marker_example :
  (AccessInfo.WebURL
     <$> (resultOf (updateAccessInfo sampleRoot "prod" nodePortWorld)
            ≫= (λ kn', KubeNovaStatus.AccessInfo (KubeNova.Status kn'))))
  = Some "http://<NODE-IP>:31080"
  ∧ hasMarker "http://<NODE-IP>:31080" = true.
Proof. split; vm_compute; reflexivity. Qed.

(** The counterexample to the claim as it stands: node-port mode, no node
    at all, and the network-expose document of the web front end is not
    stored.  The URL recorded is the notice that the document is being
    created, which carries no marker. *)
Lemma access_info_placeholder_counterexample :
  let w := worldOf [OKubeNova sampleRoot] [] [] in
  WebConfig.ExposeType (KubeNovaSpec.Web (KubeNova.Spec sampleRoot)) = "nodeport"
  ∧ nodes w = []
  ∧ (AccessInfo.WebURL
       <$> (resultOf (updateAccessInfo sampleRoot "prod" w)
              ≫= (λ kn', KubeNovaStatus.AccessInfo (KubeNova.Status kn'))))
    = Some "Service 创建中..."
  ∧ hasMarker "Service 创建中..." = false
  ∧ hasMarker "NodePort (端口分配中...)" = false.
Proof. cbv zeta. split_and!; vm_compute; reflexivity. Qed.

(** ** Runs whose new events all satisfy a property *)

Definition grows (P : Event → Prop) (w w' : World) : Prop :=
  ∃ evs, trace w' = trace w ++ evs ∧ Forall P evs.

#[global] Instance grows_preorder P : PreOrder (grows P).
Proof.
  split.
  - intros w. exists []. split; [by rewrite app_nil_r|constructor].
  - intros w1 w2 w3 (e1 & H1 & F1) (e2 & H2 & F2). exists (e1 ++ e2). split.
    + by rewrite H2, H1, app_assoc.
    + by apply Forall_app.
Qed.

Lemma grows_invoke P c serve :
  (∀ r, P (ECall c r)) → stable (grows P) (invoke c serve).
Proof.
  intros Hp w. rewrite invoke_run. simpl. eexists. split; [reflexivity|].
  repeat constructor. apply Hp.
Qed.

Lemma grows_Get P T `{Resource T} namespace name :
  (∀ r, P (ECall (CGet (kindOf T, namespace, name)) r)) →
  stable (grows P) (Get T namespace name).
Proof.
  intros Hp. apply stable_bind; [apply _| |intros; apply stable_ret; apply _].
  by apply grows_invoke.
Qed.

Lemma grows_StatusUpdate P {T} `{Resource T} (t : T) :
  (∀ r, P (ECall (CStatusUpdate (wrap t)) r)) → stable (grows P) (StatusUpdate t).
Proof.
  intros Hp. apply stable_bind; [apply _| |intros; apply stable_ret; apply _].
  by apply grows_invoke.
Qed.

Lemma grows_ListNodes P :
  (∀ r, P (ECall (CList "Node") r)) → stable (grows P) ListNodes.
Proof.
  intros Hp. apply stable_bind; [apply _| |intros; apply stable_ret; apply _].
  by apply grows_invoke.
Qed.

Lemma grows_Sleep P ms : P (ESleep ms) → stable (grows P) (Sleep ms).
Proof. intros Hp w. simpl. eexists. split; [reflexivity|]. by repeat constructor. Qed.

(** ** Runs that read no workload document *)

Definition noWorkloadRead (ev : Event) : Prop := workloadRead ev = None.

Lemma noWorkloadRead_other_kind k r :
  k.1.1 ≠ "Deployment" → noWorkloadRead (ECall (CGet k) r).
Proof.
  intros Hk. unfold noWorkloadRead, workloadRead.
  destruct r as [[]| | |]; try reflexivity. by rewrite bool_decide_eq_false_2.
Qed.

Create HintDb reads discriminated.

#[local] Hint Extern 1 (stable (grows noWorkloadRead) (Get _ _ _)) =>
  apply grows_Get; intros; apply noWorkloadRead_other_kind; discriminate : reads.
#[local] Hint Extern 1 (stable (grows noWorkloadRead) (StatusUpdate _)) =>
  apply grows_StatusUpdate; intros; reflexivity : reads.
#[local] Hint Extern 1 (stable (grows noWorkloadRead) ListNodes) =>
  apply grows_ListNodes; intros; reflexivity : reads.
#[local] Hint Extern 1 (stable (grows noWorkloadRead) (Sleep _)) =>
  apply grows_Sleep; reflexivity : reads.
#[local] Hint Extern 1 (stable (grows noWorkloadRead) (ret _)) =>
  apply stable_ret; apply _ : reads.
#[local] Hint Extern 1 (stable (grows noWorkloadRead) (deref _)) =>
  apply stable_deref; apply _ : reads.
#[local] Hint Extern 1 (stable (grows noWorkloadRead) Now) =>
  apply stable_Now; apply _ : reads.

Ltac reads_walk := walk_with ltac:(eauto with reads).

Lemma reads_getNodeIP : stable (grows noWorkloadRead) getNodeIP.
Proof. unfold getNodeIP. reads_walk. Qed.

#[local] Hint Resolve reads_getNodeIP : reads.

Lemma reads_updateAccessInfo kn ns :
  stable (grows noWorkloadRead) (updateAccessInfo kn ns).
Proof. unfold updateAccessInfo. reads_walk. Qed.

Lemma reads_setStatusPhase kn phase msg :
  stable (grows noWorkloadRead) (setStatusPhase kn phase msg).
Proof. unfold setStatusPhase. reads_walk. Qed.

Lemma reads_SetStatusCondition kn c :
  stable (grows noWorkloadRead) (SetStatusCondition kn c).
Proof. unfold SetStatusCondition. reads_walk. Qed.

#[local] Hint Resolve reads_setStatusPhase reads_SetStatusCondition : reads.

Lemma reads_resolvePhase kn allReady :
  stable (grows noWorkloadRead) (resolvePhase kn allReady).
Proof. unfold resolvePhase. reads_walk. Qed.

Lemma reads_statusRetryLoop remaining : ∀ i kn,
  stable (grows noWorkloadRead) (statusRetryLoop remaining i kn).
Proof.
  induction remaining as [|remaining IH]; intros i kn; simpl; reads_walk.
Qed.

(** ** The writer hands the caller's status back *)

Lemma serveStatusUpdate_status (new stored : KubeNova.t) s :
  (serveStatusUpdate (OKubeNova new) s).1 = RObject (OKubeNova stored) →
  KubeNova.Status stored = KubeNova.Status new.
Proof.
  unfold serveStatusUpdate. destruct (s !! objKey (OKubeNova new)) as [cur|];
    [|discriminate].
  destruct (staleVersion cur (OKubeNova new)); [discriminate|].
  destruct cur; try discriminate. simpl. by intros [= <-].
Qed.

Lemma StatusUpdate_Found_status (latest stored : KubeNova.t) w w' :
  StatusUpdate latest w = Done (Found stored) w' →
  KubeNova.Status stored = KubeNova.Status latest.
Proof.
  rewrite StatusUpdate_run. cbv zeta. intros [= Hr _].
  apply asResult_KubeNova_Found in Hr.
  destruct (answer_cases w (serveStatusUpdate (OKubeNova latest) (objects w)))
    as [(e & _ & Ha)|[_ Ha]]; rewrite Ha in Hr; [discriminate|].
  by apply serveStatusUpdate_status in Hr.
Qed.

(** What the status writer leaves of the caller's object: everything but
    the version token. *)
Definition sameButVersion (kn kn' : KubeNova.t) : Prop :=
  KubeNova.Status kn' = KubeNova.Status kn
  ∧ KubeNova.Spec kn' = KubeNova.Spec kn
  ∧ KubeNova.Generation kn' = KubeNova.Generation kn
  ∧ KubeNova.Name kn' = KubeNova.Name kn
  ∧ KubeNova.Namespace kn' = KubeNova.Namespace kn.

Lemma statusRetryLoop_caller remaining : ∀ i kn w kn' e w',
  statusRetryLoop remaining i kn w = Done (kn', e) w' → sameButVersion kn kn'.
Proof.
  induction remaining as [|remaining IH]; intros i kn w kn' e w'; simpl.
  - by intros [= <- _ _].
  - intros Hrun. apply bind_Done in Hrun as ([latest|err] & w1 & _ & Hrun).
    + cbv zeta in Hrun.
      apply bind_Done in Hrun as ([stored|err] & w2 & Hu & Hrun).
      * injection Hrun as <- _ _.
        apply StatusUpdate_Found_status in Hu. simpl in Hu.
        unfold sameButVersion. by rewrite <- Hu.
      * destruct (IsConflict err && bool_decide (i < 2)).
        -- apply bind_Done in Hrun as (u & w3 & _ & Hrun). by eapply IH.
        -- by injection Hrun as <- _ _.
    + by injection Hrun as <- _ _.
Qed.

(** ** What the aggregator reads decides the phase *)

(** A read event is fine when it returned no workload document, or one whose
    ready count equals its desired count. *)
Definition readReady (ev : Event) : bool :=
  match workloadRead ev with
  | Some d =>
      bool_decide (DeploymentSpec.Replicas (Deployment.Spec d)
                   = Some (DeploymentStatus.ReadyReplicas (Deployment.Status d)))
  | None => true
  end.

(** A read event that returned a workload document without a replica
    count. *)
Definition nilReplicasRead (ev : Event) : Prop :=
  ∃ d, workloadRead ev = Some d
       ∧ DeploymentSpec.Replicas (Deployment.Spec d) = None.

Lemma asResult_Deployment_Found r (d : Deployment.t) :
  asResult r = Found d → r = RObject (ODeployment d).
Proof.
  destruct r as [o| | |e]; simpl; try discriminate.
  destruct o; simpl; try discriminate. by intros [= ->].
Qed.

Lemma readReady_unreadable namespace name r :
  (∀ d : Deployment.t, asResult r ≠ Found d) →
  readReady (ECall (CGet ("Deployment", namespace, name)) r) = true.
Proof.
  intros Hr. unfold readReady, workloadRead.
  destruct r as [[]| | |]; try reflexivity. exfalso. by eapply Hr.
Qed.

Lemma bool_decide_replicas (ready desired : Z) :
  bool_decide (ready = desired) = bool_decide (Some desired = Some ready).
Proof. apply bool_decide_ext. split; [by intros ->|by intros [= ->]]. Qed.

(** One read of a workload document, followed by [k] on what was found. *)
Lemma workload_read_cases namespace name w :
  ∃ r, let w1 := logged w (CGet ("Deployment", namespace, name)) r (objects w) in
    Get Deployment.t namespace name w = Done (asResult r) w1
    ∧ ((∃ d, asResult r = Found d ∧ r = RObject (ODeployment d))
       ∨ (∃ e, asResult (T:=Deployment.t) r = Failed e
               ∧ readReady (ECall (CGet ("Deployment", namespace, name)) r) = true)).
Proof.
  eexists. cbv zeta. split; [exact (Get_run Deployment.t namespace name w)|].
  destruct (asResult _) as [d|e] eqn:Hr.
  - left. exists d. split; [done|]. by apply asResult_Deployment_Found.
  - right. exists e. split; [done|]. apply readReady_unreadable.
    intros d Hd. rewrite Hd in Hr. discriminate.
Qed.

(** The read of the workload document of one component. *)
Definition readOf (namespace name : string) (ev : Event) : Prop :=
  ∃ r, ev = ECall (CGet ("Deployment", namespace, name)) r.

Lemma checkServiceStatus_events namespace services allReady name w :
  match checkServiceStatus namespace (services, allReady) name w with
  | Done (_, allReady') w1 =>
      ∃ ev, readOf namespace name ev ∧ trace w1 = trace w ++ [ev]
            ∧ allReady' = allReady && readReady ev
  | Panic w1 => ∃ ev, trace w1 = trace w ++ [ev] ∧ nilReplicasRead ev
  end.
Proof.
  unfold checkServiceStatus.
  destruct (workload_read_cases namespace name w)
    as (r & Hget & [(d & Hd & ->)|(e & He & Hready)]);
    rewrite (bind_run _ _ _ _ _ Hget).
  - rewrite Hd. unfold bind, deref, Now, ret.
    destruct (DeploymentSpec.Replicas (Deployment.Spec d)) as [desired|] eqn:Hrep.
    + pose proof (serviceStatus_state
                    (DeploymentStatus.ReadyReplicas (Deployment.Status d)) desired
                    (clock (logged w (CGet ("Deployment", namespace, name))
                              (RObject (ODeployment d)) (objects w))))
        as (_ & _ & _ & _ & _ & Hok).
      destruct (serviceStatus _ _ _) as [st ok]. simpl in Hok. subst ok.
      eexists. split_and!; [by eexists|reflexivity|]. f_equal.
      unfold readReady. simpl. rewrite Hrep. apply bool_decide_replicas.
    + eexists. split; [reflexivity|]. exists d. split; [reflexivity|done].
  - rewrite He. eexists. split_and!; [by eexists|reflexivity|].
    rewrite Hready. by rewrite andb_true_r.
Qed.

Lemma checkServices_events namespace names : ∀ services allReady w,
  match foldM (checkServiceStatus namespace) (services, allReady) names w with
  | Done (_, allReady') w1 =>
      ∃ evs, Forall2 (readOf namespace) names evs ∧ trace w1 = trace w ++ evs
             ∧ allReady' = allReady && forallb readReady evs
  | Panic w1 => ∃ evs, trace w1 = trace w ++ evs ∧ Exists nilReplicasRead evs
  end.
Proof.
  induction names as [|name names IH]; intros services allReady w; cbn [foldM].
  - exists []. split_and!; [constructor|by rewrite app_nil_r|by rewrite andb_true_r].
  - pose proof (checkServiceStatus_events namespace services allReady name w) as H1.
    destruct (checkServiceStatus namespace (services, allReady) name w)
      as [[services1 allReady1] w1|w1] eqn:Hstep.
    + rewrite (bind_run _ _ _ _ _ Hstep).
      destruct H1 as (ev & Hev & Ht1 & Ha1).
      specialize (IH services1 allReady1 w1).
      destruct (foldM _ _ names w1) as [[services2 allReady2] w2|w2].
      * destruct IH as (evs & Hevs & Ht & Ha). exists (ev :: evs). split_and!.
        -- by constructor.
        -- rewrite Ht, Ht1. by rewrite <- app_assoc.
        -- simpl. rewrite Ha, Ha1. by rewrite andb_assoc.
      * destruct IH as (evs & Ht & Hex). exists (ev :: evs). split.
        -- rewrite Ht, Ht1. by rewrite <- app_assoc.
        -- by right.
    + rewrite (bind_panic _ _ _ _ Hstep).
      destruct H1 as (ev & Ht1 & Hn). exists [ev]. split; [done|by left].
Qed.

Lemma checkWebStatus_events namespace kubenova allReady w :
  match checkWebStatus namespace kubenova allReady w with
  | Done (kn', allReady') w1 =>
      ∃ ev, readOf namespace webServiceName ev ∧ trace w1 = trace w ++ [ev]
            ∧ allReady' = allReady && readReady ev
  | Panic w1 => ∃ ev, trace w1 = trace w ++ [ev] ∧ nilReplicasRead ev
  end.
Proof.
  unfold checkWebStatus.
  destruct (workload_read_cases namespace webServiceName w)
    as (r & Hget & [(d & Hd & ->)|(e & He & Hready)]);
    rewrite (bind_run _ _ _ _ _ Hget).
  - rewrite Hd. unfold bind, deref, Now, ret.
    destruct (DeploymentSpec.Replicas (Deployment.Spec d)) as [desired|] eqn:Hrep.
    + pose proof (webStatus_state
                    (DeploymentStatus.ReadyReplicas (Deployment.Status d)) desired
                    (clock (logged w (CGet ("Deployment", namespace, webServiceName))
                              (RObject (ODeployment d)) (objects w))))
        as (_ & _ & _ & _ & _ & Hok).
      destruct (webStatus _ _ _) as [st ok]. simpl in Hok. subst ok.
      eexists. split_and!; [by eexists|reflexivity|]. f_equal.
      unfold readReady. simpl. rewrite Hrep. apply bool_decide_replicas.
    + eexists. split; [reflexivity|]. exists d. split; [reflexivity|done].
  - rewrite He. eexists. split_and!; [by eexists|reflexivity|].
    rewrite Hready. by rewrite andb_true_r.
Qed.

(** The aggregator reads the document of every managed component once, the
    backend services in their order and then the web front end, and
    [allReady] is the conjunction over what these reads returned. *)
Lemma observeComponents_events kubenova w :
  match observeComponents kubenova w with
  | Done (kn', allReady) w1 =>
      ∃ evs, Forall2 (readOf (KubeNova.Namespace kubenova))
               (backendServices ++ [webServiceName]) evs
             ∧ trace w1 = trace w ++ evs ∧ allReady = forallb readReady evs
  | Panic w1 => ∃ evs, trace w1 = trace w ++ evs ∧ Exists nilReplicasRead evs
  end.
Proof.
  unfold observeComponents. cbv zeta.
  set (services := default ∅ _).
  pose proof (checkServices_events (KubeNova.Namespace kubenova) backendServices
                services true w) as H1.
  destruct (foldM _ _ backendServices w) as [[services1 allReady1] w1|w1] eqn:Hloop;
    [rewrite (bind_run _ _ _ _ _ Hloop)|rewrite (bind_panic _ _ _ _ Hloop)].
  - destruct H1 as (evs & Hevs & Ht1 & Ha1). simpl in Ha1.
    pose proof (checkWebStatus_events (KubeNova.Namespace kubenova)
                  (withServicesStatus services1 kubenova) allReady1 w1) as H2.
    destruct (checkWebStatus _ _ _ w1) as [[kn' allReady2] w2|w2].
    + destruct H2 as (ev & Hev & Ht2 & Ha2).
      exists (evs ++ [ev]). split_and!.
      * apply Forall2_app; [done|by constructor].
      * by rewrite Ht2, Ht1, app_assoc.
      * rewrite forallb_app. simpl. by rewrite Ha2, Ha1, andb_true_r.
    + destruct H2 as (ev & Ht2 & Hn). exists (evs ++ [ev]). split.
      * by rewrite Ht2, Ht1, app_assoc.
      * apply Exists_app. right. by left.
  - exact H1.
Qed.

(** ** Computations that always return *)

Definition returns {A} (m : M A) : Prop := ∀ w, ∃ a w', m w = Done a w'.

Lemma returns_ret {A} (a : A) : returns (ret a).
Proof. intros w. by eexists _, _. Qed.

Lemma returns_bind {A B} (m : M A) (f : A → M B) :
  returns m → (∀ a, returns (f a)) → returns (bind m f).
Proof.
  intros Hm Hf w. destruct (Hm w) as (a & w1 & Hrun).
  rewrite (bind_run _ _ _ _ _ Hrun). apply Hf.
Qed.

Lemma returns_Get T `{Resource T} namespace name : returns (Get T namespace name).
Proof. intros w. eexists _, _. apply Get_run. Qed.

Lemma returns_getNodeIP : returns getNodeIP.
Proof. intros w. destruct (getNodeIP_run w) as (w1 & Hrun & _). by eexists _, _. Qed.

Lemma returns_updateAccessInfo kubenova namespace :
  returns (updateAccessInfo kubenova namespace).
Proof.
  unfold updateAccessInfo, IsTelemetryEnabled. cbv zeta.
  apply returns_bind.
  - destruct (if bool_decide _ then _ else _); [apply returns_ret|].
    case_bool_decide; [|apply returns_ret].
    apply returns_bind; [apply returns_Get|].
    intros [webSvc|err]; [|apply returns_ret].
    apply returns_bind; [apply returns_getNodeIP|]. intros nodeIP. apply returns_ret.
  - intros info. apply returns_bind; [|intros; apply returns_ret].
    destruct (KubeNovaSpec.Telemetry (KubeNova.Spec kubenova)) as [t|];
      [|apply returns_ret].
    destruct (TelemetryConfig.Enabled t); [|apply returns_ret].
    apply returns_bind; [by intros w; eexists _, _|intros; apply returns_ret].
Qed.

(** ** The phase and the Ready condition *)

Lemma setCondition_found now conditions newCondition :
  ∃ c, FindStatusCondition (setCondition now conditions newCondition)
         (Condition.Type_ newCondition) = Some c
       ∧ Condition.Status c = Condition.Status newCondition
       ∧ Condition.Reason c = Condition.Reason newCondition
       ∧ Condition.Message c = Condition.Message newCondition
       ∧ Condition.ObservedGeneration c = Condition.ObservedGeneration newCondition.
Proof.
  unfold FindStatusCondition.
  induction conditions as [|c rest IH]; simpl.
  - rewrite bool_decide_eq_true_2 by done. by eexists.
  - case_bool_decide as Hc; simpl.
    + rewrite bool_decide_eq_true_2 by done. by eexists.
    + by rewrite bool_decide_eq_false_2.
Qed.

(** The Ready condition that goes with a phase. *)
Definition readyConditionFor (phase : DeploymentPhase) (c : Condition.t) : Prop :=
  (phase = PhaseReady ∧ Condition.Status c = ConditionTrue
   ∧ Condition.Reason c = "AllComponentsReady")
  ∨ (phase = PhaseCreating ∧ Condition.Status c = ConditionFalse
     ∧ Condition.Reason c = "ComponentsNotReady").

Lemma resolvePhase_run kubenova allReady w :
  ∃ kn',
    resolvePhase kubenova allReady w = Done kn' w
    ∧ KubeNovaStatus.Phase (KubeNova.Status kn')
      = (if allReady then PhaseReady else PhaseCreating)
    ∧ ∃ c, FindStatusCondition (KubeNovaStatus.Conditions (KubeNova.Status kn'))
             ConditionTypeReady = Some c
           ∧ readyConditionFor (KubeNovaStatus.Phase (KubeNova.Status kn')) c.
Proof.
  unfold resolvePhase, readyConditionFor.
  destruct allReady; (eexists; split; [reflexivity|]); (split; [reflexivity|]);
    simpl.
  - edestruct setCondition_found as (c & Hf & Hs & Hr & _).
    exists c. split; [exact Hf|]. left. by split_and!.
  - edestruct setCondition_found as (c & Hf & Hs & Hr & _).
    exists c. split; [exact Hf|]. right. by split_and!.
Qed.

Lemma forallb_readReady evs :
  forallb readReady evs = true
  ↔ ∀ ev d, ev ∈ evs → workloadRead ev = Some d →
      DeploymentSpec.Replicas (Deployment.Spec d)
      = Some (DeploymentStatus.ReadyReplicas (Deployment.Status d)).
Proof.
  rewrite forallb_forall. split.
  - intros Hall ev d Hin Hd. apply list_elem_of_In, Hall in Hin.
    unfold readReady in Hin. rewrite Hd in Hin. by apply bool_decide_eq_true in Hin.
  - intros Hall ev Hin. apply list_elem_of_In in Hin. unfold readReady.
    destruct (workloadRead ev) as [d|] eqn:Hd; [|done].
    apply bool_decide_eq_true. by eapply Hall.
Qed.

(** The status aggregator reads the workload document of every managed
    component once (the seven backend services, then the web front end) and
    no other workload document.  When it returns, the phase of the root it
    hands back is Ready exactly when every document that these reads
    returned has a ready count equal to its desired count (a component
    whose document is absent or whose read failed is left out of the
    conjunction), and Creating otherwise; the Ready condition is recorded
    with status True and reason AllComponentsReady in the first case, with
    status False and reason ComponentsNotReady in the second.  It fails to
    return only when a document it read has no replica count. *)
Theorem phase_aggregation (kubenova : KubeNova.t) (w : World) :
  match checkComponentStatus kubenova w with
  | Done (kn', _) w' =>
      let phase := KubeNovaStatus.Phase (KubeNova.Status kn') in
      ∃ reads rest,
        trace w' = trace w ++ reads ++ rest
        ∧ Forall2 (readOf (KubeNova.Namespace kubenova))
            (backendServices ++ [webServiceName]) reads
        ∧ Forall noWorkloadRead rest
        ∧ (phase = PhaseReady ↔
           ∀ ev d, ev ∈ reads → workloadRead ev = Some d →
             DeploymentSpec.Replicas (Deployment.Spec d)
             = Some (DeploymentStatus.ReadyReplicas (Deployment.Status d)))
        ∧ (phase ≠ PhaseReady → phase = PhaseCreating)
        ∧ ∃ c, FindStatusCondition (KubeNovaStatus.Conditions (KubeNova.Status kn'))
                 ConditionTypeReady = Some c
               ∧ readyConditionFor phase c
  | Panic w' =>
      ∃ reads, trace w' = trace w ++ reads ∧ Exists nilReplicasRead reads
  end.
Proof.
  unfold checkComponentStatus, updateStatusWithRetry. cbv zeta.
  pose proof (observeComponents_events kubenova w) as Hobs.
  destruct (observeComponents kubenova w) as [[kn1 allReady] w1|w1] eqn:Hrun1;
    [rewrite (bind_run _ _ _ _ _ Hrun1)|by rewrite (bind_panic _ _ _ _ Hrun1)].
  destruct Hobs as (reads & Hreads & Ht1 & Hall).
  destruct (returns_updateAccessInfo kn1 (KubeNova.Namespace kubenova) w1)
    as (kn2 & w2 & Hrun2).
  rewrite (bind_run _ _ _ _ _ Hrun2).
  destruct (stable_Done _ _ _ _ _ (reads_updateAccessInfo _ _) Hrun2)
    as (evs2 & Ht2 & Hf2).
  destruct (resolvePhase_run kn2 allReady w2) as (kn3 & Hrun3 & Hphase & c & Hfind & Hc).
  rewrite (bind_run _ _ _ _ _ Hrun3).
  destruct (statusRetryLoop_attempts 3 0 kn3 w2)
    as (kn' & e & w' & n & evs & Hrun & _ & _ & _).
  rewrite Hrun.
  destruct (stable_Done _ _ _ _ _ (reads_statusRetryLoop 3 0 kn3) Hrun)
    as (evs3 & Ht3 & Hf3).
  apply statusRetryLoop_caller in Hrun as (Hst & _).
  cbv zeta. rewrite Hst. exists reads, (evs2 ++ evs3). split_and!.
  - by rewrite Ht3, Ht2, Ht1, <- !app_assoc.
  - exact Hreads.
  - by apply Forall_app.
  - rewrite <- forallb_readReady, <- Hall, Hphase. by destruct allReady.
  - rewrite Hphase. by destruct allReady.
  - by exists c.
Qed.

(** What a run of the aggregator hands back. *)
Definition aggregated (kubenova : KubeNova.t) (w : World) : option KubeNova.t :=
  fst <$> resultOf (checkComponentStatus kubenova w).

Definition readyConditionOf (kn : KubeNova.t) : option string :=
  Condition.Status
    <$> FindStatusCondition (KubeNovaStatus.Conditions (KubeNova.Status kn))
          ConditionTypeReady.

(** The components {Ready, Running} resolve to Creating, {Ready, Ready} to
    Ready, with the matching Ready condition. *)
Lemma phase_aggregation_examples :
  (aggregated sampleRoot readyRunningWorld ≫= (λ kn, serviceStateOf kn "portal-api")
   = Some ComponentStateReady
   ∧ aggregated sampleRoot readyRunningWorld ≫= (λ kn, serviceStateOf kn "portal-rpc")
     = Some ComponentStateRunning
   ∧ KubeNovaStatus.Phase ∘ KubeNova.Status <$> aggregated sampleRoot readyRunningWorld
     = Some PhaseCreating
   ∧ aggregated sampleRoot readyRunningWorld ≫= readyConditionOf
     = Some ConditionFalse)
  ∧ (aggregated sampleRoot readyReadyWorld ≫= (λ kn, serviceStateOf kn "portal-api")
     = Some ComponentStateReady
     ∧ aggregated sampleRoot readyReadyWorld ≫= (λ kn, serviceStateOf kn "portal-rpc")
       = Some ComponentStateReady
     ∧ KubeNovaStatus.Phase ∘ KubeNova.Status <$> aggregated sampleRoot readyReadyWorld
       = Some PhaseReady
     ∧ aggregated sampleRoot readyReadyWorld ≫= readyConditionOf
       = Some ConditionTrue).
Proof. split_and!; vm_compute; reflexivity. Qed.

(** The read of [portal-api] fails while the status of the previous pass
    records it as Pending: the pass resolves the phase to Ready, the Pending
    entry stays in the status, and that status is written to the store. *)
Lemma phase_ready_with_pending_component :
  let run := checkComponentStatus pendingRoot unreadableWorld in
  snd <$> resultOf run = Some None
  ∧ KubeNovaStatus.Phase ∘ KubeNova.Status <$> aggregated pendingRoot unreadableWorld
    = Some PhaseReady
  ∧ aggregated pendingRoot unreadableWorld ≫= (λ kn, serviceStateOf kn "portal-api")
    = Some ComponentStatePending
  ∧ OKubeNova <$> aggregated pendingRoot unreadableWorld
    = objects (finalWorld run) !! rootKey sampleReq.
Proof. cbv zeta. split_and!; vm_compute; reflexivity. Qed.

Lemma forallb_readReady_false evs :
  forallb readReady evs = false
  ↔ ∃ ev d, ev ∈ evs ∧ workloadRead ev = Some d
            ∧ DeploymentSpec.Replicas (Deployment.Spec d)
              ≠ Some (DeploymentStatus.ReadyReplicas (Deployment.Status d)).
Proof.
  induction evs as [|ev evs IH]; simpl.
  - split; [discriminate|]. intros (ev & d & Hin & _). by apply elem_of_nil in Hin.
  - rewrite andb_false_iff, IH. split.
    + intros [Hev|(ev' & d & Hin & Hd & Hne)].
      * unfold readReady in Hev. destruct (workloadRead ev) as [d|] eqn:Hd; [|done].
        apply bool_decide_eq_false in Hev. exists ev, d. split_and!; [by left|done|done].
      * exists ev', d. split_and!; [by right|done|done].
    + intros (ev' & d & Hin & Hd & Hne). apply elem_of_cons in Hin as [->|Hin].
      * left. unfold readReady. rewrite Hd. by apply bool_decide_eq_false.
      * right. by exists ev', d.
Qed.

(** C5 (as amended).  A component is classified Ready exactly when its
    ready count equals its desired count.  When the status aggregation
    returns, it has read the workload document of every managed component
    once, and the phase it hands back is Ready exactly when every document
    these reads returned has equal counts, and Creating exactly when one of
    them has not; a component whose read returned no document takes no part
    in the decision, whatever the status recorded for it.  The Ready
    condition matches the phase. *)
Theorem root_phase_resolution (kubenova : KubeNova.t) (w : World) :
  (∀ ready desired now,
     (ComponentStatus.State (serviceStatus ready desired now).1 = ComponentStateReady
      ↔ ready = desired)
     ∧ (ComponentStatus.State (webStatus ready desired now).1 = ComponentStateReady
        ↔ ready = desired))
  ∧ match checkComponentStatus kubenova w with
    | Done (kn', _) w' =>
        let phase := KubeNovaStatus.Phase (KubeNova.Status kn') in
        ∃ reads rest,
          trace w' = trace w ++ reads ++ rest
          ∧ Forall2 (readOf (KubeNova.Namespace kubenova))
              (backendServices ++ [webServiceName]) reads
          ∧ (phase = PhaseReady ↔
             ∀ ev d, ev ∈ reads → workloadRead ev = Some d →
               DeploymentSpec.Replicas (Deployment.Spec d)
               = Some (DeploymentStatus.ReadyReplicas (Deployment.Status d)))
          ∧ (phase = PhaseCreating ↔
             ∃ ev d, ev ∈ reads ∧ workloadRead ev = Some d
                     ∧ DeploymentSpec.Replicas (Deployment.Spec d)
                       ≠ Some (DeploymentStatus.ReadyReplicas (Deployment.Status d)))
          ∧ ∃ c, FindStatusCondition (KubeNovaStatus.Conditions (KubeNova.Status kn'))
                   ConditionTypeReady = Some c
                 ∧ readyConditionFor phase c
    | Panic _ => True
    end.
Proof.
  split.
  { intros ready desired now.
    destruct (serviceStatus_state ready desired now) as (Hs & _).
    destruct (webStatus_state ready desired now) as (Hw & _). by split. }
  unfold checkComponentStatus, updateStatusWithRetry. cbv zeta.
  pose proof (observeComponents_events kubenova w) as Hobs.
  destruct (observeComponents kubenova w) as [[kn1 allReady] w1|w1] eqn:Hrun1;
    [rewrite (bind_run _ _ _ _ _ Hrun1)|by rewrite (bind_panic _ _ _ _ Hrun1)].
  destruct Hobs as (reads & Hreads & Ht1 & Hall).
  destruct (returns_updateAccessInfo kn1 (KubeNova.Namespace kubenova) w1)
    as (kn2 & w2 & Hrun2).
  rewrite (bind_run _ _ _ _ _ Hrun2).
  destruct (stable_Done _ _ _ _ _ (reads_updateAccessInfo _ _) Hrun2)
    as (evs2 & Ht2 & _).
  destruct (resolvePhase_run kn2 allReady w2) as (kn3 & Hrun3 & Hphase & c & Hfind & Hc).
  rewrite (bind_run _ _ _ _ _ Hrun3).
  destruct (statusRetryLoop_attempts 3 0 kn3 w2)
    as (kn' & e & w' & n & evs & Hrun & _ & Ht3 & _).
  rewrite Hrun.
  apply statusRetryLoop_caller in Hrun as (Hst & _).
  cbv zeta. rewrite Hst. exists reads, (evs2 ++ evs). split_and!.
  - by rewrite Ht3, Ht2, Ht1, <- !app_assoc.
  - exact Hreads.
  - rewrite <- forallb_readReady, <- Hall, Hphase. by destruct allReady.
  - rewrite <- forallb_readReady_false, <- Hall, Hphase. by destruct allReady.
  - by exists c.
Qed.

(** * The workload update path *)

(** What the written document owes to the freshly fetched one and to the
    desired one; [identity] tells whether the service account name is among
    the fields taken from the desired document. *)
Definition spliced (identity : bool) (latest desired written : Deployment.t)
  : Prop :=
  let l := DeploymentSpec.podSpec (Deployment.Spec latest) in
  let d := DeploymentSpec.podSpec (Deployment.Spec desired) in
  let p := DeploymentSpec.podSpec (Deployment.Spec written) in
  (DeploymentSpec.Replicas (Deployment.Spec written)
   = DeploymentSpec.Replicas (Deployment.Spec desired)
   ∧ PodSpec.Containers p = PodSpec.Containers d
   ∧ PodSpec.Volumes p = PodSpec.Volumes d
   ∧ PodSpec.ImagePullSecrets p = PodSpec.ImagePullSecrets d
   ∧ PodSpec.ServiceAccountName p
     = PodSpec.ServiceAccountName (if identity then d else l))
  ∧ (Deployment.Meta written = Deployment.Meta latest
     ∧ Deployment.Status written = Deployment.Status latest
     ∧ DeploymentSpec.Selector (Deployment.Spec written)
       = DeploymentSpec.Selector (Deployment.Spec latest)
     ∧ DeploymentSpec.Strategy (Deployment.Spec written)
       = DeploymentSpec.Strategy (Deployment.Spec latest)
     ∧ PodTemplateSpec.Labels (DeploymentSpec.Template (Deployment.Spec written))
       = PodTemplateSpec.Labels (DeploymentSpec.Template (Deployment.Spec latest))
     ∧ PodTemplateSpec.Annotations (DeploymentSpec.Template (Deployment.Spec written))
       = PodTemplateSpec.Annotations
           (DeploymentSpec.Template (Deployment.Spec latest))
     ∧ PodSpec.RestartPolicy p = PodSpec.RestartPolicy l
     ∧ PodSpec.TerminationGracePeriodSeconds p
       = PodSpec.TerminationGracePeriodSeconds l
     ∧ PodSpec.DNSPolicy p = PodSpec.DNSPolicy l).

Lemma spliceService_spliced latest desired :
  spliced true latest desired (spliceService latest desired).
Proof. unfold spliced. by split_and!. Qed.

Lemma spliceWeb_spliced latest desired :
  spliced false latest desired (spliceWeb latest desired).
Proof. unfold spliced. by split_and!. Qed.

Lemma Update_run {T} `{Resource T} (t : T) w :
  let a := answer w (serveUpdate (wrap t) (objects w)) in
  Update t w
  = Done (asResult a.1)
      (logged w (CUpdate (wrap t)) a.1 (settled w (CUpdate (wrap t)) a.2)).
Proof. reflexivity. Qed.

(** The backend update path: the document handed to the store is the
    re-fetched one with the five fields assigned. *)
Lemma reconcileServiceDeployment_update kubenova namespace serviceName
    (deployment desired existing latest : Deployment.t) w w1 w2 :
  SetControllerReference kubenova deployment = Found desired →
  Get Deployment.t namespace (ObjectMeta.Name (Deployment.Meta desired)) w
  = Done (Found existing) w1 →
  deploymentSpecEqual (Deployment.Spec existing) (Deployment.Spec desired) = false →
  Get Deployment.t namespace (ObjectMeta.Name (Deployment.Meta desired)) w1
  = Done (Found latest) w2 →
  ∃ e w3 r,
    reconcileServiceDeployment kubenova namespace serviceName deployment w
    = Done e w3
    ∧ trace w3
      = trace w2 ++ [ECall (CUpdate (ODeployment (spliceService latest desired))) r].
Proof.
  intros Hset Hg1 Hdiff Hg2. unfold reconcileServiceDeployment.
  rewrite Hset. cbv zeta. rewrite (bind_run _ _ _ _ _ Hg1). cbv beta iota.
  rewrite Hdiff. cbn [negb]. rewrite (bind_run _ _ _ _ _ Hg2). cbv beta iota.
  rewrite (bind_run _ _ _ _ _ (Update_run _ w2)).
  destruct (asResult _); eexists _, _, _; split; reflexivity.
Qed.

(** The web update path: the same with four fields. *)
Lemma reconcileWebDeployment_update kubenova namespace
    (deployment desired existing latest : Deployment.t) w w1 w2 :
  SetControllerReference kubenova deployment = Found desired →
  Get Deployment.t namespace (ObjectMeta.Name (Deployment.Meta desired)) w
  = Done (Found existing) w1 →
  deploymentSpecEqual (Deployment.Spec existing) (Deployment.Spec desired) = false →
  Get Deployment.t namespace (ObjectMeta.Name (Deployment.Meta desired)) w1
  = Done (Found latest) w2 →
  ∃ e w3 r,
    reconcileWebDeployment kubenova namespace deployment w = Done e w3
    ∧ trace w3
      = trace w2 ++ [ECall (CUpdate (ODeployment (spliceWeb latest desired))) r].
Proof.
  intros Hset Hg1 Hdiff Hg2. unfold reconcileWebDeployment.
  rewrite Hset. cbv zeta. rewrite (bind_run _ _ _ _ _ Hg1). cbv beta iota.
  rewrite Hdiff. cbn [negb]. rewrite (bind_run _ _ _ _ _ Hg2). cbv beta iota.
  rewrite (bind_run _ _ _ _ _ (Update_run _ w2)).
  destruct (asResult _); eexists _, _, _; split; reflexivity.
Qed.

(** ** Network-expose documents are created, never overwritten *)

(** A call that overwrites or removes a network-expose document. *)
Definition overwritesService (ev : Event) : bool :=
  match ev with
  | ECall (CUpdate (OService _)) _
  | ECall (CStatusUpdate (OService _)) _
  | ECall (CDelete (OService _)) _ => true
  | _ => false
  end.

(** Every stored network-expose document is still there, as it was, and
    none of the new calls overwrites one. *)
Definition servicesCreateOnly (w w' : World) : Prop :=
  (∀ namespace name o,
     objects w !! ("Service", namespace, name) = Some o →
     objects w' !! ("Service", namespace, name) = Some o)
  ∧ grows (fun ev => overwritesService ev = false) w w'.

#[global] Instance servicesCreateOnly_preorder : PreOrder servicesCreateOnly.
Proof.
  split.
  - intros w. split; [done|reflexivity].
  - intros w1 w2 w3 [H12 G12] [H23 G23]. split; [|by etrans].
    intros ns n o Ho. by apply H23, H12.
Qed.

Lemma servicesCreateOnly_invoke c serve :
  (∀ r, overwritesService (ECall c r) = false) →
  (∀ w namespace name o,
     objects w !! ("Service", namespace, name) = Some o →
     (serve w).2 !! ("Service", namespace, name) = Some o) →
  stable servicesCreateOnly (invoke c serve).
Proof.
  intros Hc Hs w. split; [|by apply grows_invoke].
  intros ns n o Ho. rewrite invoke_run. simpl.
  rewrite settled_other_kind.
  - destruct (answer_cases w (serve w)) as [(e & _ & ->)|[_ ->]]; [done|by apply Hs].
  - intros o' Hw. specialize (Hc RDone).
    destruct c as [k|k|x|x|x|x]; simpl in Hw; try discriminate;
      injection Hw as <-; by destruct x.
Qed.

Lemma serveCreate_keeps (o : Object) (s : gmap Key Object) (k : Key) (v : Object) :
  s !! k = Some v → (serveCreate o s).2 !! k = Some v.
Proof.
  intros Hk. unfold serveCreate. destruct (s !! objKey o) eqn:Ho; simpl; [done|].
  rewrite lookup_insert_ne; [done|]. intros Heq. rewrite Heq in Ho. congruence.
Qed.

Lemma overwritesService_other_kind (o : Object) (r : Reply) :
  objKind o ≠ "Service" → overwritesService (ECall (CUpdate o) r) = false.
Proof. destruct o; simpl; try done. Qed.

Lemma servicesCreateOnly_Get T `{Resource T} namespace name :
  stable servicesCreateOnly (Get T namespace name).
Proof.
  apply stable_bind; [apply _| |intros; apply stable_ret; apply _].
  apply servicesCreateOnly_invoke; [done|]. intros w ns n o. by rewrite serveGet_store.
Qed.

Lemma servicesCreateOnly_ListNodes : stable servicesCreateOnly ListNodes.
Proof.
  apply stable_bind; [apply _| |intros; apply stable_ret; apply _].
  by apply servicesCreateOnly_invoke.
Qed.

Lemma servicesCreateOnly_Create {T} `{Resource T} (t : T) :
  stable servicesCreateOnly (Create t).
Proof.
  apply stable_bind; [apply _| |intros; apply stable_ret; apply _].
  apply servicesCreateOnly_invoke; [done|]. intros w ns n o. apply serveCreate_keeps.
Qed.

Lemma servicesCreateOnly_Update {T} `{Resource T} (t : T) :
  kindOf T ≠ "Service" → stable servicesCreateOnly (Update t).
Proof.
  intros Hk. apply stable_bind; [apply _| |intros; apply stable_ret; apply _].
  apply servicesCreateOnly_invoke.
  - intros r. apply overwritesService_other_kind. by rewrite wrap_kind.
  - intros w ns n o Ho. rewrite serveUpdate_other_kind; [done|]. by rewrite wrap_kind.
Qed.

Create HintDb expose discriminated.

#[local] Hint Resolve servicesCreateOnly_Get servicesCreateOnly_ListNodes : expose.
#[local] Hint Extern 1 (stable servicesCreateOnly (Create _)) =>
  apply servicesCreateOnly_Create : expose.
#[local] Hint Extern 1 (stable servicesCreateOnly (Update _)) =>
  apply servicesCreateOnly_Update; discriminate : expose.
#[local] Hint Extern 1 (stable servicesCreateOnly (ret _)) =>
  apply stable_ret; apply _ : expose.
#[local] Hint Extern 1 (stable servicesCreateOnly Now) =>
  apply stable_Now; apply _ : expose.

Ltac expose_walk := walk_with ltac:(eauto with expose).

Lemma servicesCreateOnly_createIfAbsent {T} `{Resource T} ns n (t : T) m1 m2 :
  stable servicesCreateOnly (createIfAbsent ns n t m1 m2).
Proof. unfold createIfAbsent. expose_walk. Qed.

Lemma servicesCreateOnly_syncConfigMap ns cm m1 m2 m3 :
  stable servicesCreateOnly (syncConfigMap ns cm m1 m2 m3).
Proof. unfold syncConfigMap. expose_walk. Qed.

Lemma servicesCreateOnly_setStatusPhase kn phase msg :
  stable servicesCreateOnly (setStatusPhase kn phase msg).
Proof. unfold setStatusPhase. expose_walk. Qed.

#[local] Hint Resolve servicesCreateOnly_syncConfigMap
  servicesCreateOnly_setStatusPhase : expose.
#[local] Hint Extern 1 (stable servicesCreateOnly (createIfAbsent _ _ _ _ _)) =>
  apply servicesCreateOnly_createIfAbsent : expose.

Section ExposeCreateOnly.

Context (b : Builders).

Lemma servicesCreateOnly_reconcileServiceDeployment kn ns name d :
  stable servicesCreateOnly (reconcileServiceDeployment kn ns name d).
Proof. unfold reconcileServiceDeployment. expose_walk. Qed.

Lemma servicesCreateOnly_reconcileServiceEntry kn ns entry :
  stable servicesCreateOnly (reconcileServiceEntry kn ns entry).
Proof.
  unfold reconcileServiceEntry. destruct entry as [name res].
  pose proof servicesCreateOnly_reconcileServiceDeployment. expose_walk.
Qed.

Lemma servicesCreateOnly_reconcileServices kn :
  stable servicesCreateOnly (reconcileServices b kn).
Proof.
  unfold reconcileServices. expose_walk.
  apply stable_forEach; [apply _|]. apply servicesCreateOnly_reconcileServiceEntry.
Qed.

Lemma servicesCreateOnly_reconcileWebDeployment kn ns d :
  stable servicesCreateOnly (reconcileWebDeployment kn ns d).
Proof. unfold reconcileWebDeployment. expose_walk. Qed.

Lemma servicesCreateOnly_reconcileWeb kn :
  stable servicesCreateOnly (reconcileWeb b kn).
Proof.
  unfold reconcileWeb. pose proof servicesCreateOnly_reconcileWebDeployment.
  expose_walk.
Qed.

End ExposeCreateOnly.




(** ** The calls of the update path *)

Definition isUpdate (ev : Event) : bool :=
  match ev with
  | ECall (CUpdate _) _ => true
  | _ => false
  end.

(** The calls one workload gets: either no update at all, or the stored
    document is read, found unequal to the desired one, read again, and the
    second document goes back to the store with the fields of the desired
    one spliced in. *)
Definition updatePath (identity : bool) (desired : Deployment.t)
    (evs : list Event) : Prop :=
  Forall (fun ev => isUpdate ev = false) evs
  ∨ ∃ k existing latest written r,
      evs = [ECall (CGet k) (RObject (ODeployment existing));
             ECall (CGet k) (RObject (ODeployment latest));
             ECall (CUpdate (ODeployment written)) r]
      ∧ deploymentSpecEqual (Deployment.Spec existing) (Deployment.Spec desired)
        = false
      ∧ spliced identity latest desired written.

Lemma Create_run {T} `{Resource T} (t : T) w :
  let a := answer w (serveCreate (wrap t) (objects w)) in
  Create t w
  = Done (asError a.1)
      (logged w (CCreate (wrap t)) a.1 (settled w (CCreate (wrap t)) a.2)).
Proof. reflexivity. Qed.

Lemma reconcileServiceDeployment_calls kubenova namespace serviceName deployment w :
  ∃ evs,
    trace (finalWorld
             (reconcileServiceDeployment kubenova namespace serviceName deployment w))
    = trace w ++ evs
    ∧ match SetControllerReference kubenova deployment with
      | Found desired => updatePath true desired evs
      | Failed _ => evs = []
      end.
Proof.
  unfold reconcileServiceDeployment.
  destruct (SetControllerReference kubenova deployment) as [desired|err];
    [|exists []; split; [by rewrite app_nil_r|done]].
  cbv zeta. rewrite (bind_run _ _ _ _ _ (Get_run Deployment.t _ _ w)). cbv zeta.
  set (k := (kindOf Deployment.t, namespace, ObjectMeta.Name (Deployment.Meta desired))).
  set (r1 := replyOf w _). set (w1 := logged w _ r1 _).
  destruct (asResult r1) as [existing|err] eqn:Hr1.
  - apply asResult_Deployment_Found in Hr1.
    destruct (deploymentSpecEqual _ _) eqn:Hdiff; cbn [negb].
    { exists [ECall (CGet k) r1]. split; [done|]. left. by repeat constructor. }
    rewrite (bind_run _ _ _ _ _ (Get_run Deployment.t _ _ w1)). cbv zeta. fold k.
    set (r2 := replyOf w1 _). set (w2 := logged w1 _ r2 _).
    destruct (asResult r2) as [latest|err] eqn:Hr2.
    + apply asResult_Deployment_Found in Hr2.
      rewrite (bind_run _ _ _ _ _ (Update_run _ w2)). cbv zeta.
      set (a := answer w2 _).
      exists [ECall (CGet k) r1; ECall (CGet k) r2;
              ECall (CUpdate (ODeployment (spliceService latest desired))) a.1].
      split.
      { destruct (asResult a.1); simpl; by rewrite <- !app_assoc. }
      right. exists k, existing, latest, (spliceService latest desired), a.1.
      rewrite Hr1, Hr2. split_and!; [done|done|apply spliceService_spliced].
    + exists [ECall (CGet k) r1; ECall (CGet k) r2].
      split; [simpl; by rewrite <- !app_assoc|]. left. by repeat constructor.
  - destruct (IsNotFound err).
    + rewrite (bind_run _ _ _ _ _ (Create_run _ w1)). cbv zeta.
      set (a := answer w1 _).
      exists [ECall (CGet k) r1; ECall (CCreate (ODeployment desired)) a.1].
      split; [|left; by repeat constructor].
      destruct (asError a.1); simpl; by rewrite <- !app_assoc.
    + exists [ECall (CGet k) r1]. split; [done|]. left. by repeat constructor.
Qed.

Lemma reconcileWebDeployment_calls kubenova namespace deployment w :
  ∃ evs,
    trace (finalWorld (reconcileWebDeployment kubenova namespace deployment w))
    = trace w ++ evs
    ∧ match SetControllerReference kubenova deployment with
      | Found desired => updatePath false desired evs
      | Failed _ => evs = []
      end.
Proof.
  unfold reconcileWebDeployment.
  destruct (SetControllerReference kubenova deployment) as [desired|err];
    [|exists []; split; [by rewrite app_nil_r|done]].
  cbv zeta. rewrite (bind_run _ _ _ _ _ (Get_run Deployment.t _ _ w)). cbv zeta.
  set (k := (kindOf Deployment.t, namespace, ObjectMeta.Name (Deployment.Meta desired))).
  set (r1 := replyOf w _). set (w1 := logged w _ r1 _).
  destruct (asResult r1) as [existing|err] eqn:Hr1.
  - apply asResult_Deployment_Found in Hr1.
    destruct (deploymentSpecEqual _ _) eqn:Hdiff; cbn [negb].
    { exists [ECall (CGet k) r1]. split; [done|]. left. by repeat constructor. }
    rewrite (bind_run _ _ _ _ _ (Get_run Deployment.t _ _ w1)). cbv zeta. fold k.
    set (r2 := replyOf w1 _). set (w2 := logged w1 _ r2 _).
    destruct (asResult r2) as [latest|err] eqn:Hr2.
    + apply asResult_Deployment_Found in Hr2.
      rewrite (bind_run _ _ _ _ _ (Update_run _ w2)). cbv zeta.
      set (a := answer w2 _).
      exists [ECall (CGet k) r1; ECall (CGet k) r2;
              ECall (CUpdate (ODeployment (spliceWeb latest desired))) a.1].
      split.
      { destruct (asResult a.1); simpl; by rewrite <- !app_assoc. }
      right. exists k, existing, latest, (spliceWeb latest desired), a.1.
      rewrite Hr1, Hr2. split_and!; [done|done|apply spliceWeb_spliced].
    + exists [ECall (CGet k) r1; ECall (CGet k) r2].
      split; [simpl; by rewrite <- !app_assoc|]. left. by repeat constructor.
  - destruct (IsNotFound err).
    + rewrite (bind_run _ _ _ _ _ (Create_run _ w1)). cbv zeta.
      set (a := answer w1 _).
      exists [ECall (CGet k) r1; ECall (CCreate (ODeployment desired)) a.1].
      split; [|left; by repeat constructor].
      destruct (asError a.1); simpl; by rewrite <- !app_assoc.
    + exists [ECall (CGet k) r1]. split; [done|]. left. by repeat constructor.
Qed.



(** * What the comparisons of the diff engine decide *)

(** The last element of a list that passes a test. *)
Fixpoint latest {A} (p : A → bool) (l : list A) : option A :=
  match l with
  | [] => None
  | x :: rest =>
      match latest p rest with
      | Some y => Some y
      | None => if p x then Some x else None
      end
  end.

(** A map filled by a loop over a list holds, under each key, the value of
    the last element that the loop stored under it. *)
Lemma foldl_insert_lookup {A V} (key : A → string) (val : A → V) (keep : A → bool)
    (step : gmap string V → A → gmap string V) (l : list A) :
  (∀ m x, step m x = if keep x then <[key x := val x]> m else m) →
  ∀ (m : gmap string V) (k : string),
    foldl step m l !! k
    = match latest (fun x => bool_decide (key x = k) && keep x) l with
      | Some x => Some (val x)
      | None => m !! k
      end.
Proof.
  intros Hstep. induction l as [|x rest IH]; intros m k; simpl; [done|].
  rewrite IH. destruct (latest _ rest) as [y|]; [done|].
  rewrite Hstep. destruct (keep x); [|by rewrite andb_false_r].
  rewrite andb_true_r. case_bool_decide as Hk.
  - subst k. by rewrite lookup_insert_eq.
  - by rewrite lookup_insert_ne.
Qed.

Lemma latest_Some {A} (p : A → bool) (l : list A) x :
  latest p l = Some x → x ∈ l ∧ p x = true.
Proof.
  induction l as [|y rest IH]; simpl; [done|].
  destruct (latest p rest) as [z|].
  - intros [= ->]. destruct IH as [Hin Hp]; [done|]. split; [by right|done].
  - destruct (p y) eqn:Hp; [|done]. intros [= ->]. split; [by left|done].
Qed.

Lemma latest_None {A} (p : A → bool) (l : list A) :
  latest p l = None ↔ ∀ x, x ∈ l → p x = false.
Proof.
  induction l as [|y rest IH]; simpl.
  - split; [intros _ x Hx; by apply not_elem_of_nil in Hx|done].
  - destruct (latest p rest) as [z|] eqn:Hl.
    + split; [done|]. intros Hall. apply latest_Some in Hl as [Hin Hp].
      rewrite Hall in Hp by (by right). done.
    + destruct (p y) eqn:Hp.
      * split; [done|]. intros Hall. rewrite Hall in Hp by (by left). done.
      * split; [|done]. intros _ x Hx. apply elem_of_cons in Hx as [->|Hx]; [done|].
        by apply IH.
Qed.

(** The last literal value a list of variables gives a name; a variable
    whose literal value is empty (one that takes its value from a reference,
    for instance) gives none. *)
Definition lastLiteral (l : list EnvVar.t) (name : string) : option string :=
  EnvVar.Value
    <$> latest (fun env => bool_decide (EnvVar.Name env = name)
                           && bool_decide (EnvVar.Value env ≠ "")) l.

Lemma envMap_lookup (l : list EnvVar.t) (name : string) :
  envMap l !! name = lastLiteral l name.
Proof.
  unfold envMap, lastLiteral.
  rewrite (foldl_insert_lookup EnvVar.Name EnvVar.Value
             (fun env => bool_decide (EnvVar.Value env ≠ ""))) by done.
  rewrite lookup_empty. by destruct (latest _ l).
Qed.

(** [compareEnvVars] reports two lists of variables equal exactly when
    they have the same length and give every name the same last non-empty
    literal value: the order of the variables, the references of variables
    without a literal value and the names of such variables are not
    compared. *)
Theorem compareEnvVars_spec (a b : list EnvVar.t) :
  compareEnvVars a b = true
  ↔ length a = length b ∧ ∀ name, lastLiteral a name = lastLiteral b name.
Proof.
  unfold compareEnvVars. case_bool_decide as Hlen.
  - split; [done|]. by intros [Hl _].
  - rewrite bool_decide_eq_true, map_eq_iff. split.
    + intros Heq. split; [done|]. intros name. rewrite <- !envMap_lookup. apply Heq.
    + intros [_ Heq] name. rewrite !envMap_lookup. apply Heq.
Qed.

Lemma mountMap_lookup (l : list VolumeMount.t) (name : string) :
  mountMap l !! name
  = latest (fun vm => bool_decide (VolumeMount.Name vm = name)) l.
Proof.
  unfold mountMap.
  rewrite (foldl_insert_lookup VolumeMount.Name id (fun _ => true)) by done.
  rewrite lookup_empty.
  assert (∀ l : list VolumeMount.t,
            latest (fun x => bool_decide (VolumeMount.Name x = name) && true) l
            = latest (fun vm => bool_decide (VolumeMount.Name vm = name)) l) as ->.
  { intros l'. induction l' as [|x rest IH]; simpl; [done|].
    by rewrite IH, andb_true_r. }
  by destruct (latest _ l).
Qed.

Lemma mountsMatch_spec aMap (b : list VolumeMount.t) :
  mountsMatch aMap b = true
  ↔ ∀ vm, vm ∈ b →
      ∃ existingVM, aMap !! VolumeMount.Name vm = Some existingVM
                    ∧ VolumeMount.MountPath existingVM = VolumeMount.MountPath vm.
Proof.
  induction b as [|vm rest IH]; simpl.
  - split; [intros _ vm Hvm; by apply not_elem_of_nil in Hvm|done].
  - destruct (aMap !! VolumeMount.Name vm) as [existingVM|] eqn:Ha.
    + case_bool_decide as Hp.
      * split; [done|]. intros Hall.
        destruct (Hall vm) as (e & He & Hpath); [by left|]. congruence.
      * rewrite IH. split.
        -- intros Hall vm' [->|Hin]%elem_of_cons; [by exists existingVM|by apply Hall].
        -- intros Hall vm' Hin. apply Hall. by right.
    + split; [done|]. intros Hall.
      destruct (Hall vm) as (e & He & _); [by left|]. congruence.
Qed.

(** [compareVolumeMounts] reports two lists of mounts equal exactly when
    they have the same length and every desired mount has the mount path of
    the last observed mount of its name: the read-only flag and the
    sub-path are not compared, and of two observed mounts of one name only
    the last counts. *)
Theorem compareVolumeMounts_spec (a b : list VolumeMount.t) :
  compareVolumeMounts a b = true
  ↔ length a = length b
    ∧ ∀ vm, vm ∈ b →
        ∃ existingVM,
          latest (fun x => bool_decide (VolumeMount.Name x = VolumeMount.Name vm)) a
          = Some existingVM
          ∧ VolumeMount.MountPath existingVM = VolumeMount.MountPath vm.
Proof.
  unfold compareVolumeMounts. case_bool_decide as Hlen.
  - split; [done|]. by intros [Hl _].
  - rewrite mountsMatch_spec. split.
    + intros Hall. split; [done|]. intros vm Hvm. rewrite <- mountMap_lookup.
      by apply Hall.
    + intros [_ Hall] vm Hvm. rewrite mountMap_lookup. by apply Hall.
Qed.

Lemma volumeNames_lookup (l : list Volume.t) (name : string) :
  default false (volumeNames l !! name) = true
  ↔ ∃ v, v ∈ l ∧ Volume.Name v = name.
Proof.
  unfold volumeNames.
  rewrite (foldl_insert_lookup Volume.Name (fun _ => true) (fun _ => true)) by done.
  rewrite lookup_empty.
  destruct (latest _ l) as [v|] eqn:Hl; simpl.
  - apply latest_Some in Hl as [Hin Hp]. rewrite andb_true_r in Hp.
    apply bool_decide_eq_true in Hp. split; [|done]. intros _. by exists v.
  - split; [done|]. intros (v & Hin & Hn).
    pose proof (proj1 (latest_None _ _) Hl v Hin) as Hp. simpl in Hp.
    rewrite andb_true_r in Hp. by apply bool_decide_eq_false in Hp.
Qed.

Lemma volumesMatch_spec aMap (b : list Volume.t) :
  volumesMatch aMap b = true
  ↔ ∀ v, v ∈ b → default false (aMap !! Volume.Name v) = true.
Proof.
  induction b as [|v rest IH]; simpl.
  - split; [intros _ v Hv; by apply not_elem_of_nil in Hv|done].
  - destruct (default false (aMap !! Volume.Name v)) eqn:Ha; simpl.
    + rewrite IH. split.
      * intros Hall v' [->|Hin]%elem_of_cons; [done|by apply Hall].
      * intros Hall v' Hin. apply Hall. by right.
    + split; [done|]. intros Hall. rewrite Hall in Ha by (by left). done.
Qed.

(** [compareVolumes] reports two lists of volumes equal exactly when they
    have the same length and the name of every desired volume is the name of
    some observed volume: what a volume is made from is not compared. *)
Theorem compareVolumes_spec (a b : list Volume.t) :
  compareVolumes a b = true
  ↔ length a = length b
    ∧ ∀ v, v ∈ b → ∃ v', v' ∈ a ∧ Volume.Name v' = Volume.Name v.
Proof.
  unfold compareVolumes. case_bool_decide as Hlen.
  - split; [done|]. by intros [Hl _].
  - rewrite volumesMatch_spec. split.
    + intros Hall. split; [done|]. intros v Hv. apply volumeNames_lookup.
      by apply Hall.
    + intros [_ Hall] v Hv. apply volumeNames_lookup. by apply Hall.
Qed.

(** * What the validator accepts *)

Definition validDatabase (db : DatabaseConfig.t) : Prop :=
  DatabaseConfig.Host db ≠ "" ∧ DatabaseConfig.Database db ≠ ""
  ∧ DatabaseConfig.User db ≠ "" ∧ DatabaseConfig.Password db ≠ ""
  ∧ 0 < DatabaseConfig.Port db ≤ 65535.

Definition validCache (cache : CacheConfig.t) : Prop :=
  CacheConfig.Host cache ≠ "" ∧ 0 < CacheConfig.Port cache ≤ 65535
  ∧ (CacheConfig.Type_ cache = "node" ∨ CacheConfig.Type_ cache = "cluster").

Definition validStorage (storage : StorageConfig.t) : Prop :=
  StorageConfig.Endpoint storage ≠ "" ∧ StorageConfig.AccessKey storage ≠ ""
  ∧ StorageConfig.SecretKey storage ≠ "" ∧ StorageConfig.Bucket storage ≠ ""
  ∧ ∀ tls, StorageConfig.TLS storage = Some tls →
      MinIOTLSConfig.Enabled tls = true → MinIOTLSConfig.SecretName tls ≠ "".

Definition validTelemetry (telemetry : option TelemetryConfig.t) : Prop :=
  ∀ t, telemetry = Some t →
    TelemetryConfig.Enabled t = true → TelemetryConfig.JaegerEndpoint t ≠ "".

Definition validJWT (jwt : JWTConfig.t) : Prop :=
  (32 ≤ String.length (JWTConfig.AccessSecret jwt))%nat
  ∧ (32 ≤ String.length (JWTConfig.RefreshSecret jwt))%nat.

Definition validWeb (web : WebConfig.t) : Prop :=
  (WebConfig.ExposeType web = "ingress"
   ∧ ∃ ing, WebConfig.Ingress web = Some ing
            ∧ IngressConfig.Host ing ≠ ""
            ∧ ∀ tls, IngressConfig.TLS ing = Some tls →
                IngressTLSConfig.Enabled tls = true →
                IngressTLSConfig.SecretName tls ≠ "")
  ∨ (WebConfig.ExposeType web = "nodeport"
     ∧ ∀ np https, WebConfig.NodePort web = Some np →
         NodePortConfig.HTTPS np = Some https →
         NodePortHTTPSConfig.Enabled https = true →
         NodePortHTTPSConfig.SecretName https ≠ "").

Lemma validateDatabase_accepts db : validateDatabase db = None ↔ validDatabase db.
Proof.
  unfold validateDatabase, validDatabase.
  repeat (case_bool_decide; simpl); intuition (try discriminate; try lia; try done).
Qed.

Lemma validateCache_accepts cache : validateCache cache = None ↔ validCache cache.
Proof.
  unfold validateCache, validCache.
  repeat (case_bool_decide; simpl); intuition (try discriminate; try lia; try done).
Qed.

Lemma validateStorage_accepts storage :
  validateStorage storage = None ↔ validStorage storage.
Proof.
  unfold validateStorage, validStorage, ValidateMinIOTLS.
  repeat (case_bool_decide; simpl);
    try (split; [discriminate|intros (? & ? & ? & ? & _); done]).
  destruct (StorageConfig.TLS storage) as [tls|].
  - destruct (MinIOTLSConfig.Enabled tls) eqn:He; simpl.
    + case_bool_decide as Hs; simpl.
      * split; [discriminate|]. intros (_ & _ & _ & _ & Htls). by destruct (Htls tls).
      * split; [|done]. intros _. split_and!; try done. by intros tls' [= <-] _.
    + split; [|done]. intros _. split_and!; try done. intros tls' [= <-] He'.
      rewrite He in He'. discriminate.
  - split; [|done]. intros _. split_and!; try done.
Qed.

Lemma validateTelemetry_accepts kn :
  (if IsTelemetryEnabled kn then
     match KubeNovaSpec.Telemetry (KubeNova.Spec kn) with
     | Some t => ValidateTelemetryConfig t
     | None => None
     end
   else None) = None
  ↔ validTelemetry (KubeNovaSpec.Telemetry (KubeNova.Spec kn)).
Proof.
  unfold IsTelemetryEnabled, validTelemetry, ValidateTelemetryConfig.
  destruct (KubeNovaSpec.Telemetry (KubeNova.Spec kn)) as [t|]; [|done].
  destruct (TelemetryConfig.Enabled t) eqn:He; simpl.
  - case_bool_decide as Hj.
    + split; [discriminate|]. intros Ht. by destruct (Ht t).
    + split; [|done]. by intros _ t' [= <-] _.
  - split; [|done]. intros _ t' [= <-] He'. rewrite He in He'. discriminate.
Qed.

Lemma validateJWT_accepts jwt : validateJWT jwt = None ↔ validJWT jwt.
Proof.
  unfold validateJWT, validJWT.
  repeat (case_bool_decide; simpl); split; try discriminate; try done; try lia;
    intros [Ha Hr];
    repeat match goal with
           | H : _ = "" |- _ => rewrite H in *; simpl in *
           end; lia.
Qed.

Lemma ValidateWebConfig_accepts web : ValidateWebConfig web = None ↔ validWeb web.
Proof.
  unfold ValidateWebConfig, validWeb.
  case_bool_decide as Hi.
  - rewrite Hi. destruct (WebConfig.Ingress web) as [ing|].
    + case_bool_decide as Hh.
      * split; [discriminate|].
        intros [(_ & ing' & [= <-] & Hh' & _)|[? _]]; done.
      * destruct (IngressConfig.TLS ing) as [tls|] eqn:Ht.
        -- destruct (IngressTLSConfig.Enabled tls) eqn:He; simpl.
           ++ case_bool_decide as Hs.
              ** split; [discriminate|].
                 intros [(_ & ing' & [= <-] & _ & Htls)|[? _]]; [|done].
                 by destruct (Htls tls).
              ** split; [|done]. intros _. left. split; [done|]. exists ing.
                 split_and!; try done. intros tls' Ht'. rewrite Ht in Ht'.
                 by injection Ht' as <-.
           ++ split; [|done]. intros _. left. split; [done|]. exists ing.
              split_and!; try done. intros tls' Ht' He'. rewrite Ht in Ht'.
              injection Ht' as <-. rewrite He in He'. discriminate.
        -- split; [|done]. intros _. left. split; [done|]. exists ing.
           split_and!; try done. intros tls' Ht'. rewrite Ht in Ht'. discriminate.
    + split; [discriminate|]. intros [(_ & ing' & ? & _)|[? _]]; done.
  - case_bool_decide as Hn.
    + destruct (WebConfig.NodePort web) as [np|].
      * destruct (NodePortConfig.HTTPS np) as [https|] eqn:Ht.
        -- destruct (NodePortHTTPSConfig.Enabled https) eqn:He; simpl.
           ++ case_bool_decide as Hs.
              ** split; [discriminate|]. intros [[? _]|[_ Hs']]; [done|].
                 by destruct (Hs' np https).
              ** split; [|done]. intros _. right. split; [done|].
                 intros np' https' [= <-] Ht'. rewrite Ht in Ht'.
                 by injection Ht' as <-.
           ++ split; [|done]. intros _. right. split; [done|].
              intros np' https' [= <-] Ht' He'. rewrite Ht in Ht'.
              injection Ht' as <-. rewrite He in He'. discriminate.
        -- split; [|done]. intros _. right. split; [done|].
           intros np' https' [= <-] Ht'. rewrite Ht in Ht'. discriminate.
      * split; [|done]. intros _. right. split; [done|]. by intros np' https' ?.
    + split; [discriminate|]. intros [[? _]|[? _]]; done.
Qed.

(** The validator accepts a root entity exactly when: the database host,
    name, user and password are not empty and its port lies in 1..65535;
    the cache host is not empty, its port lies in 1..65535 and its type is
    node or cluster; the storage end point, access key, secret key and
    bucket are not empty, and a certificate secret is named when storage
    TLS is enabled; a Jaeger end point is given when telemetry is enabled;
    both token secrets are at least 32 bytes long; and the web front end is
    exposed either through an ingress that is configured with a host (and
    names a certificate secret when its TLS is enabled) or through a node
    port (naming a certificate secret when HTTPS is enabled). *)
Theorem ValidateKubeNova_accepts (kn : KubeNova.t) :
  let spec := KubeNova.Spec kn in
  ValidateKubeNova kn = None
  ↔ validDatabase (KubeNovaSpec.Database spec)
    ∧ validCache (KubeNovaSpec.Cache spec)
    ∧ validStorage (KubeNovaSpec.Storage spec)
    ∧ validTelemetry (KubeNovaSpec.Telemetry spec)
    ∧ validJWT (ServicesConfig.JWT (KubeNovaSpec.Services spec))
    ∧ validWeb (KubeNovaSpec.Web spec).
Proof.
  cbv zeta. unfold ValidateKubeNova.
  rewrite <- validateDatabase_accepts, <- validateCache_accepts,
    <- validateStorage_accepts, <- validateJWT_accepts, <- ValidateWebConfig_accepts,
    <- validateTelemetry_accepts.
  destruct (validateDatabase _); [by split; [|intros [? _]]|].
  destruct (validateCache _); [by split; [|intros (_ & ? & _)]|].
  destruct (validateStorage _); [by split; [|intros (_ & _ & ? & _)]|].
  destruct (if IsTelemetryEnabled kn then _ else _);
    [by split; [|intros (_ & _ & _ & ? & _)]|].
  destruct (validateJWT _); [by split; [|intros (_ & _ & _ & _ & ? & _)]|].
  destruct (ValidateWebConfig _); [by split; [|intros (_ & _ & _ & _ & _ & ?)]|].
  done.
Qed.

(** * The calls of a pass *)

(** Runs all of whose calls pass a test [P] that every read, every listing,
    every write of the status sub-resource, every pause, and every creation
    or update of a document that is not a root entity passes. *)
Section CallsOfAPass.

Variable P : Event → Prop.
Hypothesis P_get : ∀ k r, P (ECall (CGet k) r).
Hypothesis P_list : ∀ kind r, P (ECall (CList kind) r).
Hypothesis P_status : ∀ o r, P (ECall (CStatusUpdate o) r).
Hypothesis P_sleep : ∀ ms, P (ESleep ms).
Hypothesis P_create : ∀ o r, objKind o ≠ KubeNovaKind → P (ECall (CCreate o) r).
Hypothesis P_update : ∀ o r, objKind o ≠ KubeNovaKind → P (ECall (CUpdate o) r).

Lemma calls_Create {T} `{Resource T} (t : T) :
  kindOf T ≠ KubeNovaKind → stable (grows P) (Create t).
Proof.
  intros Hk. apply stable_bind; [apply _| |intros; apply stable_ret; apply _].
  apply grows_invoke. intros r. apply P_create. by rewrite wrap_kind.
Qed.

Lemma calls_Update {T} `{Resource T} (t : T) :
  kindOf T ≠ KubeNovaKind → stable (grows P) (Update t).
Proof.
  intros Hk. apply stable_bind; [apply _| |intros; apply stable_ret; apply _].
  apply grows_invoke. intros r. apply P_update. by rewrite wrap_kind.
Qed.

Create HintDb calls discriminated.

#[local] Hint Extern 1 (stable (grows P) (Get _ _ _)) =>
  apply grows_Get; intros; apply P_get : calls.
#[local] Hint Extern 1 (stable (grows P) (StatusUpdate _)) =>
  apply grows_StatusUpdate; intros; apply P_status : calls.
#[local] Hint Extern 1 (stable (grows P) ListNodes) =>
  apply grows_ListNodes; intros; apply P_list : calls.
#[local] Hint Extern 1 (stable (grows P) (Sleep _)) =>
  apply grows_Sleep; apply P_sleep : calls.
#[local] Hint Extern 1 (stable (grows P) (Create _)) =>
  apply calls_Create; discriminate : calls.
#[local] Hint Extern 1 (stable (grows P) (Update _)) =>
  apply calls_Update; discriminate : calls.
#[local] Hint Extern 1 (stable (grows P) (ret _)) =>
  apply stable_ret; apply _ : calls.
#[local] Hint Extern 1 (stable (grows P) (deref _)) =>
  apply stable_deref; apply _ : calls.
#[local] Hint Extern 1 (stable (grows P) Now) => apply stable_Now; apply _ : calls.

Ltac calls_walk := walk_with ltac:(eauto with calls).

Lemma calls_setStatusPhase kn phase msg :
  stable (grows P) (setStatusPhase kn phase msg).
Proof. unfold setStatusPhase. calls_walk. Qed.

Lemma calls_SetStatusCondition kn c : stable (grows P) (SetStatusCondition kn c).
Proof. unfold SetStatusCondition. calls_walk. Qed.

Lemma calls_statusRetryLoop remaining : ∀ i kn,
  stable (grows P) (statusRetryLoop remaining i kn).
Proof. induction remaining as [|remaining IH]; intros i kn; simpl; calls_walk. Qed.

Lemma calls_createIfAbsent {T} `{Resource T} ns n (t : T) m1 m2 :
  kindOf T ≠ KubeNovaKind → stable (grows P) (createIfAbsent ns n t m1 m2).
Proof.
  intros Hk. pose proof (calls_Create (T:=T)). unfold createIfAbsent. calls_walk.
Qed.

Lemma calls_getNodeIP : stable (grows P) getNodeIP.
Proof. unfold getNodeIP. calls_walk. Qed.

Lemma calls_getWebNodePort kn ns : stable (grows P) (getWebNodePort kn ns).
Proof. unfold getWebNodePort. calls_walk. Qed.

Lemma calls_syncConfigMap ns cm m1 m2 m3 :
  stable (grows P) (syncConfigMap ns cm m1 m2 m3).
Proof. unfold syncConfigMap. calls_walk. Qed.

#[local] Hint Resolve calls_setStatusPhase calls_SetStatusCondition
  calls_statusRetryLoop calls_getNodeIP calls_getWebNodePort calls_syncConfigMap
  : calls.
#[local] Hint Extern 1 (stable (grows P) (createIfAbsent _ _ _ _ _)) =>
  apply calls_createIfAbsent; discriminate : calls.

Lemma calls_reconcileValidation kn : stable (grows P) (reconcileValidation kn).
Proof. unfold reconcileValidation. calls_walk. Qed.

Lemma calls_reconcileNamespace kn : stable (grows P) (reconcileNamespace kn).
Proof. unfold reconcileNamespace. calls_walk. Qed.

Lemma calls_reconcileRBAC kn : stable (grows P) (reconcileRBAC kn).
Proof. unfold reconcileRBAC. calls_walk. Qed.

Lemma calls_updateAccessInfo kn ns : stable (grows P) (updateAccessInfo kn ns).
Proof. unfold updateAccessInfo. calls_walk. Qed.

Lemma calls_checkServiceStatus ns acc name :
  stable (grows P) (checkServiceStatus ns acc name).
Proof. unfold checkServiceStatus. calls_walk. Qed.

Lemma calls_checkComponentStatus kn : stable (grows P) (checkComponentStatus kn).
Proof.
  unfold checkComponentStatus, observeComponents, checkWebStatus, resolvePhase,
    updateStatusWithRetry.
  pose proof calls_updateAccessInfo. pose proof calls_checkServiceStatus.
  pose proof (fun A B f l H => stable_foldM (grows P) (A:=A) (B:=B) f l H).
  calls_walk.
Qed.

Lemma calls_stageFailed kn prefix err : stable (grows P) (stageFailed kn prefix err).
Proof. unfold stageFailed, updateStatusWithRetry. calls_walk. Qed.

Context (b : Builders).

Lemma calls_reconcileSecret kn : stable (grows P) (reconcileSecret b kn).
Proof. unfold reconcileSecret. calls_walk. Qed.

Lemma calls_reconcileConfigMaps kn : stable (grows P) (reconcileConfigMaps b kn).
Proof. unfold reconcileConfigMaps. apply stable_forEach; [apply _|]. calls_walk. Qed.

Lemma calls_reconcileServiceDeployment kn ns name d :
  stable (grows P) (reconcileServiceDeployment kn ns name d).
Proof. unfold reconcileServiceDeployment. calls_walk. Qed.

Lemma calls_reconcileServiceEntry kn ns entry :
  stable (grows P) (reconcileServiceEntry kn ns entry).
Proof.
  unfold reconcileServiceEntry. destruct entry as [name res].
  pose proof calls_reconcileServiceDeployment. calls_walk.
Qed.

Lemma calls_reconcileServices kn : stable (grows P) (reconcileServices b kn).
Proof.
  unfold reconcileServices. calls_walk.
  apply stable_forEach; [apply _|]. apply calls_reconcileServiceEntry.
Qed.

Lemma calls_reconcileWebDeployment kn ns d :
  stable (grows P) (reconcileWebDeployment kn ns d).
Proof. unfold reconcileWebDeployment. calls_walk. Qed.

Lemma calls_reconcileWeb kn : stable (grows P) (reconcileWeb b kn).
Proof. unfold reconcileWeb. pose proof calls_reconcileWebDeployment. calls_walk. Qed.

Lemma calls_runPipeline kn : stable (grows P) (runPipeline b kn).
Proof.
  unfold runPipeline.
  pose proof calls_reconcileValidation. pose proof calls_reconcileNamespace.
  pose proof calls_reconcileRBAC. pose proof calls_reconcileSecret.
  pose proof calls_reconcileConfigMaps. pose proof calls_reconcileServices.
  pose proof calls_reconcileWeb. pose proof calls_checkComponentStatus.
  pose proof calls_stageFailed. calls_walk.
Qed.

End CallsOfAPass.

(** ** What a pass deletes and what it writes of the root *)

(** A call that creates, overwrites or deletes a root entity through the
    main resource (not through the status sub-resource). *)
Definition writesRoot (ev : Event) : bool :=
  match ev with
  | ECall (CCreate (OKubeNova _)) _
  | ECall (CUpdate (OKubeNova _)) _
  | ECall (CDelete (OKubeNova _)) _ => true
  | _ => false
  end.

Definition pipelineCall (ev : Event) : Prop :=
  isDelete ev = false ∧ writesRoot ev = false.

(** A delete call, if it is one, asks for a cluster-scoped binding. *)
Definition deletesOnlyBinding (ev : Event) : Prop :=
  isDelete ev = true →
  ∃ crb r, ev = ECall (CDelete (OClusterRoleBinding crb)) r.

Lemma pipelineCall_other_kind (c : Object → Call) o r :
  (c = CCreate ∨ c = CUpdate) → objKind o ≠ KubeNovaKind →
  pipelineCall (ECall (c o) r).
Proof. intros [-> | ->] Hk; by destruct o. Qed.

(** The pipeline of stages, whatever its outcome, never asks the store to
    delete anything, and never creates, overwrites or deletes a root entity:
    of the root it writes the status sub-resource only. *)
Theorem pipeline_calls (b : Builders) (kubenova : KubeNova.t) (w : World) :
  ∃ evs, trace (finalWorld (runPipeline b kubenova w)) = trace w ++ evs
         ∧ Forall pipelineCall evs.
Proof.
  apply (calls_runPipeline pipelineCall); try done.
  - intros o r Hk. apply (pipelineCall_other_kind CCreate); [by left|done].
  - intros o r Hk. apply (pipelineCall_other_kind CUpdate); [by right|done].
Qed.

Lemma grows_Update P {T} `{Resource T} (t : T) :
  (∀ r, P (ECall (CUpdate (wrap t)) r)) → stable (grows P) (Update t).
Proof.
  intros Hp. apply stable_bind; [apply _| |intros; apply stable_ret; apply _].
  by apply grows_invoke.
Qed.

Lemma grows_Delete P {T} `{Resource T} (t : T) :
  (∀ r, P (ECall (CDelete (wrap t)) r)) → stable (grows P) (Delete t).
Proof.
  intros Hp. apply stable_bind; [apply _| |intros; apply stable_ret; apply _].
  by apply grows_invoke.
Qed.

Lemma deletes_reconcileDelete kn :
  stable (grows deletesOnlyBinding) (reconcileDelete kn).
Proof.
  unfold reconcileDelete, updateStatusWithRetry.
  apply stable_bind; [apply _|by apply calls_setStatusPhase|]. intros kn1.
  apply stable_bind; [apply _|by apply calls_statusRetryLoop|]. intros [kn2 e].
  cbv zeta. apply stable_bind; [apply _|by apply grows_Get|]. intros g.
  apply stable_bind; [apply _| |].
  - destruct g as [crb|err]; [|apply stable_ret; apply _].
    apply stable_bind; [apply _| |].
    + apply grows_Delete. intros r _. by eexists _, _.
    + intros [err|]; [destruct (negb _)|]; apply stable_ret; apply _.
  - intros [err|]; [apply stable_ret; apply _|].
    apply stable_bind; [apply _|by apply grows_Update|].
    intros [u|err]; apply stable_ret; apply _.
Qed.

(** The only documents a pass ever asks the store to delete are
    cluster-scoped bindings; and a pass whose read of the root returns a
    root that is not marked for deletion (or returns an error) asks for no
    deletion at all. *)
Theorem reconcile_deletes_only_binding (b : Builders) (req : string * string)
    (w : World) :
  ∃ evs, trace (finalWorld (Reconcile b req w)) = trace w ++ evs
         ∧ Forall deletesOnlyBinding evs
         ∧ ((∀ kn w1, Get KubeNova.t req.1 req.2 w = Done (Found kn) w1 →
               IsZero (ObjectMeta.DeletionTimestamp (KubeNova.Meta kn)) = true) →
            Forall (fun ev => isDelete ev = false) evs).
Proof.
  unfold Reconcile.
  destruct (Get KubeNova.t req.1 req.2 w) as [g w1|w1] eqn:Hget;
    [rewrite (bind_run _ _ _ _ _ Hget)|rewrite (bind_panic _ _ _ _ Hget)].
  2: { rewrite Get_run in Hget. discriminate. }
  destruct (stable_Done _ _ _ _ _
              (grows_Get (fun ev => isDelete ev = false) KubeNova.t req.1 req.2
                 (fun _ => eq_refl)) Hget) as (evs1 & Ht1 & Hf1).
  assert (∀ (m : M (CtrlResult.t * option error)),
            stable (grows (fun ev => isDelete ev = false)) m →
            ∃ evs, trace (finalWorld (m w1)) = trace w ++ evs
                   ∧ Forall deletesOnlyBinding evs
                   ∧ Forall (fun ev => isDelete ev = false) evs) as Hquiet.
  { intros m Hm. destruct (Hm w1) as (evs2 & Ht2 & Hf2).
    exists (evs1 ++ evs2). split_and!.
    - by rewrite Ht2, Ht1, app_assoc.
    - eapply Forall_impl; [by apply Forall_app|]. intros ev Hev Hd. congruence.
    - by apply Forall_app. }
  destruct g as [kn|err].
  - destruct (IsZero _) eqn:Hz; simpl.
    + edestruct Hquiet as (evs & Ht & Hb & Hn); [|by exists evs].
      destruct (negb (ContainsFinalizer _ _)).
      * apply stable_bind; [apply _|by apply grows_Update|].
        intros [u|err]; apply stable_ret; apply _.
      * destruct (_ && _); [apply stable_ret; apply _|].
        by apply calls_runPipeline.
    + destruct (deletes_reconcileDelete kn w1) as (evs2 & Ht2 & Hf2).
      exists (evs1 ++ evs2). split_and!.
      * by rewrite Ht2, Ht1, app_assoc.
      * apply Forall_app. split; [|done].
        eapply Forall_impl; [exact Hf1|]. intros ev Hev Hd. congruence.
      * intros Hlive. rewrite (Hlive kn w1 eq_refl) in Hz. discriminate.
  - edestruct Hquiet as (evs & Ht & Hb & Hn); [|by exists evs].
    destruct (IsNotFound err); apply stable_ret; apply _.
Qed.

(** On [driftWorld] the root is live. *)
Lemma reconcile_deletes_only_binding_witness :
  ∃ evs,
    trace (finalWorld (Reconcile sampleBuilders sampleReq driftWorld))
    = trace driftWorld ++ evs
    ∧ Forall (fun ev => isDelete ev = false) evs.
Proof.
  destruct (reconcile_deletes_only_binding sampleBuilders sampleReq driftWorld)
    as (evs & Ht & _ & Hlive).
  exists evs. split; [exact Ht|]. apply Hlive.
  intros kn w1 Hget.
  change (Get KubeNova.t sampleReq.1 sampleReq.2 driftWorld)
    with (Get KubeNova.t (KubeNova.Namespace sampleRoot) (KubeNova.Name sampleRoot)
            driftWorld) in Hget.
  rewrite (Get_root_found sampleRoot driftWorld sampleRoot) in Hget;
    [|exact I|vm_compute; reflexivity].
  by injection Hget as <- _.
Defined.

(** ** A pass that fails *)

(** The root [kn] with the status [setStatusPhase] gives it at time [now]. *)
Definition phased (kn : KubeNova.t) (phase : DeploymentPhase) (message : string)
    (now : Time) : KubeNova.t :=
  let st := KubeNova.Status kn in
  KubeNova.withStatus
    (KubeNovaStatus.mk phase (KubeNovaStatus.Conditions st)
       (KubeNovaStatus.ComponentStatus st) (KubeNovaStatus.AccessInfo st)
       message now (KubeNova.Generation kn))
    kn.

(** What a failed pass leaves behind: it asks for a retry in a minute; its
    calls are those of the stages it went through, followed by at least one
    and at most three attempts of the status writer to record a status
    whose phase is Failed, whose message ends with the error, and whose
    observed generation is the generation of the root; and when the last of
    these attempts ends with a write that the store acknowledges, the store
    holds a root with that status under the key of the written object. *)
Definition failureRecorded (kn : KubeNova.t) (w : World) (res : CtrlResult.t)
    (err : error) (w' : World) : Prop :=
  res = CtrlResult.mk false Minute
  ∧ ∃ status pre n evs prefix,
      trace w' = trace w ++ pre ++ evs
      ∧ Forall pipelineCall pre
      ∧ (1 ≤ n ≤ 3)%nat ∧ attempts (KubeNova.withStatus status kn) 0 n evs
      ∧ KubeNovaStatus.Phase status = PhaseFailed
      ∧ KubeNovaStatus.ObservedGeneration status = KubeNova.Generation kn
      ∧ KubeNovaStatus.Message status = prefix +:+ Error err
      ∧ (∀ o stored,
           last evs = Some (ECall (CStatusUpdate o) (RObject (OKubeNova stored))) →
           objects w' !! objKey o = Some (OKubeNova stored)
           ∧ KubeNova.Status stored = status).

Lemma stageFailed_run kn prefix err w :
  let failed := phased kn PhaseFailed (prefix +:+ Error err) (clock w) in
  ∃ w' n evs,
    stageFailed kn prefix err w = Done (CtrlResult.mk false Minute, Some err) w'
    ∧ trace w' = trace w ++ evs ∧ (1 ≤ n ≤ 3)%nat
    ∧ attempts failed 0 n evs
    ∧ (∀ o stored,
         last evs = Some (ECall (CStatusUpdate o) (RObject (OKubeNova stored))) →
         objects w' !! objKey o = Some (OKubeNova stored)
         ∧ KubeNova.Status stored = KubeNova.Status failed).
Proof.
  intros failed. unfold stageFailed, updateStatusWithRetry.
  rewrite (bind_run _ _ _ failed w) by reflexivity.
  destruct (statusRetryLoop_records 3 0 failed w)
    as (kn' & e & w' & n & evs & Hrun & Hn & Hpos & Ht & Ha & Hlast & _).
  rewrite (bind_run _ _ _ _ _ Hrun). exists w', n, evs.
  split_and!; [done|done|by apply Hpos|done|done|].
  intros o stored Hl. destruct (Hlast o stored Hl) as (Hst & Hstatus & _).
  by split.
Qed.

Lemma pipelineCall_create o r :
  objKind o ≠ KubeNovaKind → pipelineCall (ECall (CCreate o) r).
Proof. apply (pipelineCall_other_kind CCreate). by left. Qed.

Lemma pipelineCall_update o r :
  objKind o ≠ KubeNovaKind → pipelineCall (ECall (CUpdate o) r).
Proof. apply (pipelineCall_other_kind CUpdate). by right. Qed.

Lemma fail_exit kn kn' prefix err w w1 :
  grows pipelineCall w w1 →
  KubeNova.Meta kn' = KubeNova.Meta kn → KubeNova.Spec kn' = KubeNova.Spec kn →
  ∃ w', stageFailed kn' prefix err w1
        = Done (CtrlResult.mk false Minute, Some err) w'
        ∧ failureRecorded kn w (CtrlResult.mk false Minute) err w'.
Proof.
  intros (pre & Ht1 & Hpre) Hmeta Hspec.
  destruct (stageFailed_run kn' prefix err w1)
    as (w' & n & evs & Hrun & Ht & Hn & Ha & Hlast).
  exists w'. split; [exact Hrun|]. split; [done|].
  set (failed := phased kn' PhaseFailed (prefix +:+ Error err) (clock w1)) in *.
  assert (failed = KubeNova.withStatus (KubeNova.Status failed) kn) as Heq.
  { subst failed. unfold phased. destruct kn, kn'. simpl in *. by subst. }
  rewrite Heq in Ha.
  exists (KubeNova.Status failed), pre, n, evs, prefix.
  split_and!; [|done|lia|lia|done|reflexivity| |reflexivity|exact Hlast].
  - by rewrite Ht, Ht1, app_assoc.
  - simpl. unfold KubeNova.Generation. by rewrite Hmeta.
Qed.

Lemma reconcileValidation_run kn w :
  ∃ kn1, reconcileValidation kn w = Done (kn1, ValidateKubeNova kn) w
         ∧ KubeNova.Meta kn1 = KubeNova.Meta kn
         ∧ KubeNova.Spec kn1 = KubeNova.Spec kn.
Proof.
  unfold reconcileValidation.
  rewrite (bind_run _ _ _ (phased kn PhaseValidating "正在验证配置" (clock w)) w)
    by reflexivity.
  change (ValidateKubeNova (phased kn PhaseValidating "正在验证配置" (clock w)))
    with (ValidateKubeNova kn).
  destruct (ValidateKubeNova kn); (eexists; split; [reflexivity|by split]).
Qed.

Lemma reconcileServices_root b kn w :
  match reconcileServices b kn w with
  | Done (kn1, _) _ =>
      KubeNova.Meta kn1 = KubeNova.Meta kn ∧ KubeNova.Spec kn1 = KubeNova.Spec kn
  | Panic _ => True
  end.
Proof.
  unfold reconcileServices.
  rewrite (bind_run _ _ _ (phased kn PhaseCreating "正在部署后端服务" (clock w)) w)
    by reflexivity.
  cbv zeta. unfold bind. by destruct (forEach _ _ w).
Qed.

(** A pass through the pipeline that returns an error ends as
    [failureRecorded] says. *)
Lemma runPipeline_failure (b : Builders) (kubenova : KubeNova.t) (w : World) :
  match runPipeline b kubenova w with
  | Done (res, Some err) w' => failureRecorded kubenova w res err w'
  | _ => True
  end.
Proof.
  pose proof (fun kn => calls_reconcileNamespace pipelineCall
                          (fun _ _ => conj eq_refl eq_refl) kn) as Hns.
  pose proof (fun kn => calls_reconcileRBAC pipelineCall
                          (fun _ _ => conj eq_refl eq_refl)
                          pipelineCall_create kn) as Hrbac.
  pose proof (fun kn => calls_reconcileSecret pipelineCall
                          (fun _ _ => conj eq_refl eq_refl)
                          (fun _ _ => conj eq_refl eq_refl)
                          pipelineCall_create pipelineCall_update b kn) as Hsec.
  pose proof (fun kn => calls_reconcileConfigMaps pipelineCall
                          (fun _ _ => conj eq_refl eq_refl)
                          pipelineCall_create pipelineCall_update b kn) as Hcm.
  pose proof (fun kn => calls_reconcileServices pipelineCall
                          (fun _ _ => conj eq_refl eq_refl)
                          pipelineCall_create pipelineCall_update b kn) as Hsvc.
  pose proof (fun kn => calls_reconcileWeb pipelineCall
                          (fun _ _ => conj eq_refl eq_refl)
                          pipelineCall_create pipelineCall_update b kn) as Hweb.
  unfold runPipeline.
  destruct (reconcileValidation_run kubenova w) as (kn1 & Hval & Hm1 & Hs1).
  rewrite (bind_run _ _ _ _ _ Hval).
  destruct (ValidateKubeNova kubenova) as [err|].
  { destruct (fail_exit kubenova kn1 "配置验证失败: " err w w)
      as (w' & -> & Hrec); [reflexivity|done|done|]. exact Hrec. }
  destruct (reconcileNamespace kn1 w) as [e2 w2|w2] eqn:H2;
    [rewrite (bind_run _ _ _ _ _ H2)|by rewrite (bind_panic _ _ _ _ H2)].
  pose proof (stable_Done _ _ _ _ _ (Hns kn1) H2) as G2.
  destruct e2 as [err|].
  { destruct (fail_exit kubenova kn1 "Namespace 错误: " err w w2)
      as (w' & -> & Hrec); [done|done|done|]. exact Hrec. }
  destruct (reconcileRBAC kn1 w2) as [e3 w3|w3] eqn:H3;
    [rewrite (bind_run _ _ _ _ _ H3)|by rewrite (bind_panic _ _ _ _ H3)].
  pose proof (stable_Done _ _ _ _ _ (Hrbac kn1) H3) as G3.
  assert (grows pipelineCall w w3) as G3' by (by etrans).
  destruct e3 as [err|].
  { destruct (fail_exit kubenova kn1 "创建 RBAC 资源失败: " err w w3)
      as (w' & -> & Hrec); [done|done|done|]. exact Hrec. }
  destruct (reconcileSecret b kn1 w3) as [e4 w4|w4] eqn:H4;
    [rewrite (bind_run _ _ _ _ _ H4)|by rewrite (bind_panic _ _ _ _ H4)].
  pose proof (stable_Done _ _ _ _ _ (Hsec kn1) H4) as G4.
  assert (grows pipelineCall w w4) as G4' by (by etrans).
  destruct e4 as [err|].
  { destruct (fail_exit kubenova kn1 "创建 Secret 失败: " err w w4)
      as (w' & -> & Hrec); [done|done|done|]. exact Hrec. }
  destruct (reconcileConfigMaps b kn1 w4) as [e5 w5|w5] eqn:H5;
    [rewrite (bind_run _ _ _ _ _ H5)|by rewrite (bind_panic _ _ _ _ H5)].
  pose proof (stable_Done _ _ _ _ _ (Hcm kn1) H5) as G5.
  assert (grows pipelineCall w w5) as G5' by (by etrans).
  destruct e5 as [err|].
  { destruct (fail_exit kubenova kn1 "创建 ConfigMap 失败: " err w w5)
      as (w' & -> & Hrec); [done|done|done|]. exact Hrec. }
  pose proof (reconcileServices_root b kn1 w5) as Hroot.
  destruct (reconcileServices b kn1 w5) as [[kn6 e6] w6|w6] eqn:H6;
    [rewrite (bind_run _ _ _ _ _ H6)|by rewrite (bind_panic _ _ _ _ H6)].
  destruct Hroot as [Hm6 Hs6].
  pose proof (stable_Done _ _ _ _ _ (Hsvc kn1) H6) as G6.
  assert (grows pipelineCall w w6) as G6' by (by etrans).
  destruct e6 as [err|].
  { destruct (fail_exit kubenova kn6 "部署后端服务失败: " err w w6)
      as (w' & -> & Hrec); [done|congruence|congruence|]. exact Hrec. }
  destruct (reconcileWeb b kn6 w6) as [e7 w7|w7] eqn:H7;
    [rewrite (bind_run _ _ _ _ _ H7)|by rewrite (bind_panic _ _ _ _ H7)].
  pose proof (stable_Done _ _ _ _ _ (Hweb kn6) H7) as G7.
  assert (grows pipelineCall w w7) as G7' by (by etrans).
  destruct e7 as [err|].
  { destruct (fail_exit kubenova kn6 "部署 Web 前端失败: " err w w7)
      as (w' & -> & Hrec); [done|congruence|congruence|]. exact Hrec. }
  unfold bind. destruct (checkComponentStatus kn6 w7) as [[kn8 [e8|]] w8|w8]; done.
Qed.


(** A pass through the pipeline that returns an error has asked for a
    retry in a minute and has tried, in at least one and at most three
    attempts of the status writer made after the calls of the stages, to
    record a status with phase Failed, a message that ends with the error,
    and an observed generation equal to the root's generation: each attempt
    reads the root and, when the read returns it, writes it with that
    status; when the last write is acknowledged the store holds that status,
    so the failed pass has advanced the observed generation.  A pass over a
    root entity that the validator rejects always ends that way, with the
    validator's error. *)
Theorem failed_pass_recorded (b : Builders) (kubenova : KubeNova.t) (w : World) :
  match runPipeline b kubenova w with
  | Done (res, Some err) w' => failureRecorded kubenova w res err w'
  | _ => True
  end
  ∧ (∀ err, ValidateKubeNova kubenova = Some err →
       ∃ res w', runPipeline b kubenova w = Done (res, Some err) w').
Proof.
  split; [apply runPipeline_failure|].
  intros err Hv. unfold runPipeline.
  destruct (reconcileValidation_run kubenova w) as (kn1 & Hval & Hm1 & Hs1).
  rewrite (bind_run _ _ _ _ _ Hval), Hv.
  destruct (fail_exit kubenova kn1 "配置验证失败: " err w w)
    as (w' & Hrun & _); [reflexivity|done|done|]. by eexists _, _.
Qed.

(** A root entity that names no database host. *)
Definition invalidRoot : KubeNova.t :=
  KubeNova.mk (sampleMeta 2 [kubenovaFinalizer] None)
    (KubeNovaSpec.mk None
       (DatabaseConfig.mk "" 3306 "kubenova" "nova" "secret")
       (KubeNovaSpec.Cache sampleSpec) (KubeNovaSpec.Storage sampleSpec) None
       (KubeNovaSpec.Services sampleSpec) (KubeNovaSpec.Web sampleSpec))
    staleStatus.

(** The status stored for a root. *)
Definition statusStored (w : World) (k : Key) : option KubeNovaStatus.t :=
  match objects w !! k with
  | Some (OKubeNova kn) => Some (KubeNova.Status kn)
  | _ => None
  end.

(** The rejected root of generation 2 is stored with a status that observed
    generation 1; after the pass the stored status is Failed and has
    observed generation 2. *)
Lemma failed_pass_recorded_witness :
  let w := worldOf [OKubeNova invalidRoot] [] [] in
  (∃ res w',
     runPipeline sampleBuilders invalidRoot w
     = Done (res, Some (wrapf "数据库配置错误: " (Errorf "数据库主机地址不能为空"))) w')
  ∧ KubeNovaStatus.ObservedGeneration <$> statusStored w (rootKey sampleReq) = Some 1
  ∧ KubeNovaStatus.ObservedGeneration
      <$> statusStored (finalWorld (runPipeline sampleBuilders invalidRoot w))
            (rootKey sampleReq)
    = Some 2
  ∧ KubeNovaStatus.Phase
      <$> statusStored (finalWorld (runPipeline sampleBuilders invalidRoot w))
            (rootKey sampleReq)
    = Some PhaseFailed.
Proof.
  cbv zeta. split.
  - destruct (failed_pass_recorded sampleBuilders invalidRoot
                (worldOf [OKubeNova invalidRoot] [] [])) as [_ Hrejected].
    apply Hrejected. vm_compute. reflexivity.
  - split_and!; vm_compute; reflexivity.
Defined.

(** * The documents the builders make *)

(** ** The web workload and its network-expose document *)

(** A pod template is consistent when every mount of its first container
    names a volume of the pod, every volume of the pod is mounted, and no
    two volumes share a name. *)
Definition mountsResolve (mounts : list VolumeMount.t) (volumes : list Volume.t)
  : Prop :=
  Forall (fun vm => Exists (fun v => Volume.Name v = VolumeMount.Name vm) volumes)
         mounts
  ∧ Forall (fun v => Exists (fun vm => VolumeMount.Name vm = Volume.Name v) mounts)
           volumes
  ∧ NoDup (Volume.Name <$> volumes).

Ltac pick_one :=
  solve [repeat first [by apply Exists_cons_hd | apply Exists_cons_tl]].

Ltac each_one :=
  repeat first [apply Forall_nil_2 | apply Forall_cons_2; [pick_one|]].

Ltac distinct_names := simpl; apply (bool_decide_unpack _); vm_compute; exact I.

(** Whatever the root entity, the web workload the builder makes is
    consistent: its mounts and volumes name each other (the certificate
    volume and its mount come and go together), the selector of the
    workload and the selector of its network-expose document are the same
    and select the labels of the pod template, and every port of the
    network-expose document targets a port the container declares under the
    same name. *)
Theorem web_workload_consistent (kn : KubeNova.t) (namespace : string) :
  let deployment := buildWebDeployment kn namespace in
  let service := buildWebService kn namespace in
  let template := DeploymentSpec.Template (Deployment.Spec deployment) in
  mountsResolve (getWebVolumeMounts kn) (getWebVolumes kn namespace)
  ∧ (∃ c, PodSpec.Containers (PodTemplateSpec.Spec template) = [c]
          ∧ Container.VolumeMounts c = getWebVolumeMounts kn
          ∧ Container.Ports c = getWebPorts kn)
  ∧ PodSpec.Volumes (PodTemplateSpec.Spec template) = getWebVolumes kn namespace
  ∧ ServiceSpec.Selector (Service.Spec service)
    = DeploymentSpec.Selector (Deployment.Spec deployment)
  ∧ DeploymentSpec.Selector (Deployment.Spec deployment)
    ⊆ PodTemplateSpec.Labels template
  ∧ Forall (fun sp =>
              Exists (fun cp => ContainerPort.Name cp = ServicePort.Name sp
                                ∧ ContainerPort.Port cp = ServicePort.TargetPort sp)
                     (getWebPorts kn))
           (ServiceSpec.Ports (Service.Spec service)).
Proof.
  cbv zeta. split_and!.
  - unfold mountsResolve, getWebVolumeMounts, getWebVolumes.
    destruct (nodePortHTTPS kn) as [https|]; [case_bool_decide|];
      (split_and!; [each_one|each_one|distinct_names]).
  - unfold buildWebDeployment. case_bool_decide; by eexists.
  - unfold buildWebDeployment. by case_bool_decide.
  - unfold buildWebService, buildWebDeployment. by repeat case_bool_decide.
  - unfold buildWebDeployment, webLabels. simpl.
    apply map_singleton_subseteq_l. reflexivity.
  - unfold buildWebService, getWebPorts.
    repeat case_bool_decide; simpl;
      destruct (nodePortHTTPS kn) as [https|] eqn:Hhttps;
      try (unfold nodePortHTTPS in Hhttps;
           rewrite bool_decide_eq_false_2 in Hhttps by done; discriminate);
      try destruct (WebConfig.NodePort _) as [np|]; try case_bool_decide;
      simpl; each_one.
Qed.

(** ** The cluster-scoped binding *)

Lemma string_app_assoc (s1 s2 s3 : string) : (s1 +:+ s2) +:+ s3 = s1 +:+ s2 +:+ s3.
Proof.
  induction s1 as [|ch s1 IH]; [done|].
  change (String ch ((s1 +:+ s2) +:+ s3) = String ch (s1 +:+ s2 +:+ s3)).
  by rewrite IH.
Qed.

(** Every stored document is still there, as it was. *)
Definition keepsAll (w w' : World) : Prop :=
  ∀ k o, objects w !! k = Some o → objects w' !! k = Some o.

#[global] Instance keepsAll_preorder : PreOrder keepsAll.
Proof.
  split; [by intros w k o|].
  intros w1 w2 w3 H12 H23 k o Ho. by apply H23, H12.
Qed.

Lemma keepsAll_invoke c serve :
  isWrite c = false →
  (∀ w k o, objects w !! k = Some o → (serve w).2 !! k = Some o) →
  stable keepsAll (invoke c serve).
Proof.
  intros Hc Hs w k o Ho. rewrite invoke_run. simpl. rewrite settled_other by done.
  destruct (answer_cases w (serve w)) as [(e & _ & ->)|[_ ->]]; [done|by apply Hs].
Qed.

Lemma keepsAll_Get T `{Resource T} namespace name :
  stable keepsAll (Get T namespace name).
Proof.
  apply stable_bind; [apply _| |intros; apply stable_ret; apply _].
  apply keepsAll_invoke; [done|]. intros w k o. by rewrite serveGet_store.
Qed.

Lemma keepsAll_Create {T} `{Resource T} (t : T) : stable keepsAll (Create t).
Proof.
  apply stable_bind; [apply _| |intros; apply stable_ret; apply _].
  apply keepsAll_invoke; [done|]. intros w k o. apply serveCreate_keeps.
Qed.

Lemma keepsAll_createIfAbsent {T} `{Resource T} ns n (t : T) m1 m2 :
  stable keepsAll (createIfAbsent ns n t m1 m2).
Proof.
  unfold createIfAbsent.
  apply stable_bind; [apply _|apply keepsAll_Get|]. intros [found|err].
  - apply stable_ret; apply _.
  - destruct (IsNotFound err); [|apply stable_ret; apply _].
    apply stable_bind; [apply _|apply keepsAll_Create|].
    intros [e|]; apply stable_ret; apply _.
Qed.

Lemma keepsAll_reconcileRBAC kn : stable keepsAll (reconcileRBAC kn).
Proof.
  unfold reconcileRBAC. cbv zeta.
  destruct (SetControllerReference _ _) as [sa|err]; [|apply stable_ret; apply _].
  apply stable_bind; [apply _|apply keepsAll_createIfAbsent|].
  intros [e|]; [apply stable_ret; apply _|apply keepsAll_createIfAbsent].
Qed.

(** The name of the cluster-scoped binding joins the namespace and the name
    of the root with a dash, so the root [c] of the namespace [a-b] and the
    root [b-c] of the namespace [a] have one binding name, under which the
    deletion of either root looks the binding up, while the bindings built
    for them name accounts of different namespaces; and the RBAC stage
    leaves the binding it finds under that name as it is, whatever its
    subject. *)
Theorem binding_shared_between_roots (knA knB : KubeNova.t) (a b c : string) :
  KubeNova.Namespace knA = a +:+ "-" +:+ b → KubeNova.Name knA = c →
  KubeNova.Namespace knB = a → KubeNova.Name knB = b +:+ "-" +:+ c →
  let crbA := BuildClusterRoleBinding knA (KubeNova.Namespace knA) in
  let crbB := BuildClusterRoleBinding knB (KubeNova.Namespace knB) in
  objKey (OClusterRoleBinding crbA) = objKey (OClusterRoleBinding crbB)
  ∧ crbNameOf knA = crbNameOf knB
  ∧ Subject.Namespace <$> ClusterRoleBinding.Subjects crbA = [a +:+ "-" +:+ b]
  ∧ Subject.Namespace <$> ClusterRoleBinding.Subjects crbB = [a]
  ∧ ∀ w stored,
      objects w !! objKey (OClusterRoleBinding crbA) = Some stored →
      objects (finalWorld (reconcileRBAC knB w)) !! objKey (OClusterRoleBinding crbB)
      = Some stored.
Proof.
  intros HnsA HnA HnsB HnB. cbv zeta.
  assert (crbNameOf knA = crbNameOf knB) as Hname.
  { unfold crbNameOf. rewrite HnsA, HnA, HnsB, HnB.
    by rewrite !string_app_assoc. }
  assert (objKey (OClusterRoleBinding
                    (BuildClusterRoleBinding knA (KubeNova.Namespace knA)))
          = objKey (OClusterRoleBinding
                      (BuildClusterRoleBinding knB (KubeNova.Namespace knB))))
    as Hkey.
  { unfold objKey. simpl. f_equal. exact Hname. }
  split_and!; [exact Hkey|exact Hname|by simpl; rewrite HnsA|by simpl; rewrite HnsB|].
  intros w stored Hs. rewrite <- Hkey. by apply keepsAll_reconcileRBAC.
Qed.

(** Two such roots. *)
Definition rootNamed (namespace name : string) : KubeNova.t :=
  KubeNova.mk
    (ObjectMeta.mk name namespace ∅ ∅ 7%nat 2 None [kubenovaFinalizer] [])
    sampleSpec staleStatus.

Lemma binding_shared_between_roots_witness :
  crbNameOf (rootNamed "team-a" "nova") = crbNameOf (rootNamed "team" "a-nova")
  ∧ crbNameOf (rootNamed "team-a" "nova") = "kube-nova-team-a-nova-cluster-admin".
Proof.
  split; [|reflexivity].
  exact (proj1 (proj2 (binding_shared_between_roots
                         (rootNamed "team-a" "nova") (rootNamed "team" "a-nova")
                         "team" "a" "nova" eq_refl eq_refl eq_refl eq_refl))).
Defined.

(** ** Deleting a root whose binding name another root shares *)

(** The live root [nova] of the namespace [team-a]. *)
Definition liveRoot : KubeNova.t := rootNamed "team-a" "nova".

(** The root [a-nova] of the namespace [team], once its deletion was
    requested. *)
Definition leavingRoot : KubeNova.t :=
  KubeNova.mk
    (ObjectMeta.mk "a-nova" "team" ∅ ∅ 7%nat 2 (Some 900) [kubenovaFinalizer] [])
    sampleSpec staleStatus.

(** The binding as the RBAC stage stores it for the live root. *)
Definition liveBinding : ClusterRoleBinding.t :=
  ClusterRoleBinding.withMeta
    (ObjectMeta.withResourceVersion 1%nat
       (ClusterRoleBinding.Meta (BuildClusterRoleBinding liveRoot "team-a")))
    (BuildClusterRoleBinding liveRoot "team-a").

Definition sharedBindingKey : Key :=
  ("ClusterRoleBinding", "", "kube-nova-team-a-nova-cluster-admin").

(** Both roots are stored, with the binding of the live one. *)
Definition sharedNameWorld : World :=
  worldOf [OKubeNova liveRoot; OKubeNova leavingRoot;
           OClusterRoleBinding liveBinding] [] [].

(** C10, at the failing input.  The name the deletion lifecycle looks up is
    the name the builder gives the binding, but that name does not tell the
    roots [team-a/nova] and [team/a-nova] apart.  The binding stored under
    it is the one the RBAC stage created for the live root [team-a/nova]
    (its subject is the account of [team-a]), and the RBAC stage of
    [team/a-nova] leaves it as it is; the deletion of [team/a-nova] then
    deletes that binding (the fifth call of the pass) and succeeds, while
    [team-a/nova] stays stored, live, without its binding. *)
Theorem deletion_removes_binding_of_live_root :
  let run := Reconcile sampleBuilders ("team", "a-nova") sharedNameWorld in
  crbNameOf leavingRoot
  = ObjectMeta.Name
      (ClusterRoleBinding.Meta (BuildClusterRoleBinding leavingRoot "team"))
  ∧ crbNameOf leavingRoot = crbNameOf liveRoot
  ∧ objects (finalWorld (reconcileRBAC liveRoot (worldOf [OKubeNova liveRoot] [] [])))
      !! sharedBindingKey
    = Some (OClusterRoleBinding liveBinding)
  ∧ objects (finalWorld (reconcileRBAC (rootNamed "team" "a-nova") sharedNameWorld))
      !! sharedBindingKey
    = Some (OClusterRoleBinding liveBinding)
  ∧ Subject.Namespace <$> ClusterRoleBinding.Subjects liveBinding = ["team-a"]
  ∧ resultOf run = Some (CtrlResult.zero, None)
  ∧ trace (finalWorld run) !! 4%nat
    = Some (ECall (CDelete (OClusterRoleBinding liveBinding)) RDone)
  ∧ objects (finalWorld run) !! sharedBindingKey = None
  ∧ objects (finalWorld run) !! rootKey ("team-a", "nova") = Some (OKubeNova liveRoot)
  ∧ ObjectMeta.DeletionTimestamp (KubeNova.Meta liveRoot) = None
  ∧ objects (finalWorld run) !! rootKey ("team", "a-nova") = None.
Proof. cbv zeta. split_and!; vm_compute; reflexivity. Qed.

(** * The node address and the node port *)

(** A node [getNodeIP] can take an address from: it is ready and has an
    external or an internal address. *)
Definition usableNode (node : Node.t) : Prop :=
  nodeIsReady node = true
  ∧ (firstAddress isExternalIP (Node.Addresses node) ≠ None
     ∨ firstAddress isInternalIP (Node.Addresses node) ≠ None).

(** The address taken from a node: its first external address, its first
    internal address when it has no external one. *)
Definition preferredAddress (node : Node.t) : option string :=
  match firstAddress isExternalIP (Node.Addresses node) with
  | Some a => Some a
  | None => firstAddress isInternalIP (Node.Addresses node)
  end.

Lemma readyNodeIP_skip pre rest :
  Forall (fun node => ¬ usableNode node) pre →
  readyNodeIP (pre ++ rest) = readyNodeIP rest.
Proof.
  induction 1 as [|node pre Hn _ IH]; simpl; [done|].
  destruct (nodeIsReady node) eqn:Hr; simpl; [|done].
  destruct (firstAddress isExternalIP _) as [a|] eqn:He.
  { destruct Hn. split; [done|]. left. by rewrite He. }
  destruct (firstAddress isInternalIP _) as [a|] eqn:Hi; [|done].
  destruct Hn. split; [done|]. right. by rewrite Hi.
Qed.

Lemma readyNodeIP_none items :
  Forall (fun node => ¬ usableNode node) items → readyNodeIP items = None.
Proof.
  intros Hall. rewrite <- (app_nil_r items). by rewrite readyNodeIP_skip.
Qed.

Lemma firstAddress_elem (p : NodeAddress.t → bool) addrs a :
  firstAddress p addrs = Some a →
  ∃ addr, addr ∈ addrs ∧ p addr = true ∧ NodeAddress.Address addr = a.
Proof.
  unfold firstAddress. destruct (List.find p addrs) as [addr|] eqn:Hf; [|done].
  intros [= <-]. apply find_some in Hf as [Hin Hp]. exists addr.
  split_and!; [by apply list_elem_of_In|done|done].
Qed.

(** [getNodeIP] lists the nodes once and never fails.  When the listing
    fails it returns the empty string.  Otherwise it returns the preferred
    address (the first external one, else the first internal one) of the
    first listed node that is ready and has such an address; when no listed
    node is, it returns the first external or internal address of the first
    listed node, and the empty string when there is none. *)
Theorem node_ip_choice (w : World) :
  ∃ ip r,
    getNodeIP w = Done ip (logged w (CList "Node") r (objects w))
    ∧ match nextFault w with
      | Some e => r = RError e ∧ ip = ""
      | None =>
          r = RNodes (nodes w)
          ∧ (∀ pre node post,
               nodes w = pre ++ node :: post →
               Forall (fun n => ¬ usableNode n) pre → usableNode node →
               preferredAddress node = Some ip)
          ∧ (Forall (fun n => ¬ usableNode n) (nodes w) →
             ip = match nodes w with
                  | first :: _ =>
                      default ""
                        (firstAddress
                           (fun addr => isExternalIP addr || isInternalIP addr)
                           (Node.Addresses first))
                  | [] => ""
                  end)
      end.
Proof.
  unfold getNodeIP, bind. rewrite ListNodes_run.
  destruct (nextFault w) as [e|]; simpl.
  - by eexists "", (RError e).
  - eexists (pickNodeIP (nodes w)), (RNodes (nodes w)).
    split_and!; [reflexivity|reflexivity| |].
    + intros pre node post Hitems Hpre [Hready Haddr]. unfold pickNodeIP.
      rewrite Hitems. rewrite bool_decide_eq_false_2
        by (rewrite length_app; simpl; lia).
      rewrite (readyNodeIP_skip pre (node :: post) Hpre). simpl.
      rewrite Hready. simpl. unfold preferredAddress.
      destruct (firstAddress isExternalIP _) as [a|]; [done|].
      destruct (firstAddress isInternalIP _) as [a|]; [done|].
      by destruct Haddr.
    + intros Hall. unfold pickNodeIP. rewrite (readyNodeIP_none _ Hall).
      destruct (nodes w) as [|first rest]; [done|].
      by rewrite bool_decide_eq_false_2.
Qed.

(** A cluster of three nodes: the first is not ready, the second is ready
    and reports a host name only, the third is ready and reports an
    internal and an external address. *)
Definition sampleNodes : list Node.t :=
  [Node.mk "node-1" [NodeCondition.mk NodeReady ConditionFalse]
     [NodeAddress.mk NodeExternalIP "203.0.113.7"];
   Node.mk "node-2" [NodeCondition.mk NodeReady ConditionTrue]
     [NodeAddress.mk NodeHostName "node-2"];
   Node.mk "node-3" [NodeCondition.mk NodeReady ConditionTrue]
     [NodeAddress.mk NodeInternalIP "10.0.0.5";
      NodeAddress.mk NodeExternalIP "198.51.100.9"]].

Lemma node_ip_choice_witness :
  ∃ w', getNodeIP (worldOf [] sampleNodes []) = Done "198.51.100.9" w'.
Proof.
  destruct (node_ip_choice (worldOf [] sampleNodes []))
    as (ip & r & Hrun & _ & Hfirst & _).
  eexists. rewrite Hrun. f_equal.
  specialize (Hfirst (take 2 sampleNodes) _ [] eq_refl).
  assert (Some "198.51.100.9" = Some ip) as [= <-]; [|reflexivity].
  apply Hfirst.
  - repeat constructor.
    + intros [Hr _]. discriminate.
    + intros [_ [Ha|Ha]]; by apply Ha.
  - split; [reflexivity|]. by left.
Defined.

(** [p] is the node port of the first port of the list that has the name
    [name] and a positive node port. *)
Definition firstAssigned (name : string) (ports : list ServicePort.t) (p : Z)
  : Prop :=
  ∃ pre port post,
    ports = pre ++ port :: post
    ∧ unassigned name pre
    ∧ ServicePort.Name port = name ∧ ServicePort.NodePort port = p ∧ 0 < p.

Lemma findNodePort_spec name ports :
  match findNodePort name ports with
  | Some p => firstAssigned name ports p
  | None => unassigned name ports
  end.
Proof.
  unfold findNodePort. induction ports as [|port ports IH]; simpl; [constructor|].
  destruct (bool_decide (ServicePort.Name port = name)
            && bool_decide (ServicePort.NodePort port > 0)) eqn:Hp; simpl.
  - apply andb_true_iff in Hp as [Hn Hpos].
    apply bool_decide_eq_true in Hn, Hpos.
    exists [], port, ports. split_and!; [done|constructor|done|done|lia].
  - assert (¬ (ServicePort.Name port = name ∧ 0 < ServicePort.NodePort port)) as Hno.
    { intros [Hn Hpos]. apply andb_false_iff in Hp as [Hp|Hp];
        apply bool_decide_eq_false in Hp; [done|lia]. }
    destruct (List.find _ ports) as [found|]; simpl in *.
    + destruct IH as (pre & q & post & -> & Hpre & Hn & Hq & Hpos).
      exists (port :: pre), q, post. split_and!; [done|by constructor|done|done|done].
    + by constructor.
Qed.

(** The port of the configuration, 30080 when none is configured. *)
Definition configuredNodePort (kn : KubeNova.t) : Z :=
  match WebConfig.NodePort (KubeNovaSpec.Web (KubeNova.Spec kn)) with
  | Some np =>
      if bool_decide (NodePortConfig.HTTPPort np > 0)
      then NodePortConfig.HTTPPort np else 30080
  | None => 30080
  end.

(** HTTPS is enabled on the node port. *)
Definition nodePortHTTPSEnabled (kn : KubeNova.t) : bool :=
  match WebConfig.NodePort (KubeNovaSpec.Web (KubeNova.Spec kn)) with
  | Some np =>
      match NodePortConfig.HTTPS np with
      | Some https => NodePortHTTPSConfig.Enabled https
      | None => false
      end
  | None => false
  end.

(** The port [getWebNodePort] takes from the reply [r] to its read of the
    network-expose document of the web front end: when the reply is that
    document, the first positive node port named [https] if HTTPS is
    enabled and there is one, else the first positive node port named
    [http], else the configured port; the configured port when the read
    failed. *)
Definition portChosen (kn : KubeNova.t) (r : Reply) (p : Z) : Prop :=
  match r with
  | RObject (OService svc) =>
      let ports := ServiceSpec.Ports (Service.Spec svc) in
      let noHTTPS := nodePortHTTPSEnabled kn = false ∨ unassigned "https" ports in
      (nodePortHTTPSEnabled kn = true ∧ firstAssigned "https" ports p)
      ∨ (noHTTPS ∧ firstAssigned "http" ports p)
      ∨ (noHTTPS ∧ unassigned "http" ports ∧ p = configuredNodePort kn)
  | _ => p = configuredNodePort kn
  end.

(** [getWebNodePort] never fails.  Outside node-port mode it returns 0
    without a call.  In node-port mode it reads the network-expose document
    of the web front end once and returns a positive port, chosen from the
    reply as [portChosen] says. *)
Theorem web_node_port (kn : KubeNova.t) (namespace : string) (w : World) :
  let web := KubeNovaSpec.Web (KubeNova.Spec kn) in
  ∃ p w',
    getWebNodePort kn namespace w = Done p w'
    ∧ (WebConfig.ExposeType web ≠ "nodeport" → p = 0 ∧ w' = w)
    ∧ (WebConfig.ExposeType web = "nodeport" →
       0 < p
       ∧ ∃ r, w' = logged w (CGet ("Service", namespace, "kube-nova-web")) r
                     (objects w)
              ∧ portChosen kn r p).
Proof.
  cbv zeta. unfold getWebNodePort. cbv zeta.
  fold (configuredNodePort kn). fold (nodePortHTTPSEnabled kn).
  assert (0 < configuredNodePort kn) as Hconf.
  { unfold configuredNodePort. destruct (WebConfig.NodePort _) as [np|]; [|lia].
    case_bool_decide; lia. }
  case_bool_decide as Hmode.
  { eexists 0, w. split_and!; [reflexivity|done|done]. }
  rewrite (bind_run _ _ _ _ _ (Get_run Service.t namespace webServiceName w)).
  cbv zeta. set (r := replyOf w _).
  change (kindOf Service.t, namespace, webServiceName)
    with ("Service", namespace, "kube-nova-web").
  destruct (asResult r) as [webSvc|err] eqn:Hr.
  - assert (r = RObject (OService webSvc)) as Hsvc.
    { destruct r as [o| | |e]; simpl in Hr; try discriminate.
      destruct o; simpl in Hr; try discriminate. by injection Hr as ->. }
    pose proof (findNodePort_spec "https" (ServiceSpec.Ports (Service.Spec webSvc)))
      as Hhttps.
    pose proof (findNodePort_spec "http" (ServiceSpec.Ports (Service.Spec webSvc)))
      as Hhttp.
    assert (∀ name ports p, firstAssigned name ports p → 0 < p) as Hpos.
    { by intros name ports p (pre & port & post & _ & _ & _ & _ & Hp). }
    destruct (nodePortHTTPSEnabled kn) eqn:He.
    + destruct (findNodePort "https" _) as [p|].
      * eexists p, _. split_and!; [reflexivity|done|]. intros _.
        split; [by eapply Hpos|]. exists r. split; [done|].
        rewrite Hsvc. simpl. rewrite He. by left.
      * destruct (findNodePort "http" _) as [p|].
        -- eexists p, _. split_and!; [reflexivity|done|]. intros _.
           split; [by eapply Hpos|]. exists r. split; [done|].
           rewrite Hsvc. simpl. rewrite He. right; left. split; [by right|done].
        -- eexists _, _. split_and!; [reflexivity|done|]. intros _.
           split; [done|]. exists r. split; [done|].
           rewrite Hsvc. simpl. rewrite He. right; right.
           split_and!; [by right|done|done].
    + destruct (findNodePort "http" _) as [p|].
      * eexists p, _. split_and!; [reflexivity|done|]. intros _.
        split; [by eapply Hpos|]. exists r. split; [done|].
        rewrite Hsvc. simpl. rewrite He. right; left. split; [by left|done].
      * eexists _, _. split_and!; [reflexivity|done|]. intros _.
        split; [done|]. exists r. split; [done|].
        rewrite Hsvc. simpl. rewrite He. right; right.
        split_and!; [by left|done|done].
  - eexists _, _. split_and!; [reflexivity|done|]. intros _. split; [done|].
    exists r. split; [done|].
    destruct r as [o| | |e]; simpl in *; try done.
    destruct o; simpl in Hr; try done.
Qed.

(** On [nodePortWorld] HTTPS is off and the stored document assigns the
    node port 31080 to its port [http]: that port is returned, not the
    configured 30080. *)
Lemma web_node_port_witness :
  ∃ p w', getWebNodePort sampleRoot "prod" nodePortWorld = Done p w'
          ∧ 0 < p
          ∧ resultOf (getWebNodePort sampleRoot "prod" nodePortWorld) = Some 31080
          ∧ configuredNodePort sampleRoot = 30080.
Proof.
  destruct (web_node_port sampleRoot "prod" nodePortWorld)
    as (p & w' & Hrun & _ & Hmode).
  exists p, w'. destruct (Hmode eq_refl) as [Hpos _].
  split_and!; [exact Hrun|exact Hpos|vm_compute; reflexivity|reflexivity].
Defined.

(** * The access information *)

(** The first part of [updateAccessInfo]: the web URL. *)
Definition decideWebURL (kubenova : KubeNova.t) (namespace : string)
    (info : AccessInfo.t) : M AccessInfo.t :=
  let web := KubeNovaSpec.Web (KubeNova.Spec kubenova) in
  match (if bool_decide (WebConfig.ExposeType web = "ingress")
         then WebConfig.Ingress web else None) with
  | Some ing =>
      let protocol :=
        match IngressConfig.TLS ing with
        | Some tls => if IngressTLSConfig.Enabled tls then "https" else "http"
        | None => "http"
        end in
      ret (AccessInfo.withWebURL
             (protocol +:+ "://" +:+ IngressConfig.Host ing) info)
  | None =>
      if bool_decide (WebConfig.ExposeType web = "nodeport") then
        let* g := Get Service.t namespace webServiceName in
        match g with
        | Found webSvc =>
            let ports := ServiceSpec.Ports (Service.Spec webSvc) in
            let httpPort := lastNodePort "http" ports in
            let httpsPort := lastNodePort "https" ports in
            let* nodeIP := getNodeIP in
            ret (AccessInfo.withWebURL (nodePortURL nodeIP httpPort httpsPort) info)
        | Failed _ => ret (AccessInfo.withWebURL "Service 创建中..." info)
        end
      else ret info
  end.

Lemma updateAccessInfo_split kubenova namespace :
  updateAccessInfo kubenova namespace
  = bind (decideWebURL kubenova namespace
            (default AccessInfo.zero
               (KubeNovaStatus.AccessInfo (KubeNova.Status kubenova))))
         (finishAccessInfo kubenova namespace).
Proof. reflexivity. Qed.

(** The web URL apart, the first part leaves the record as it is. *)
Definition sameButWebURL (info info' : AccessInfo.t) : Prop :=
  AccessInfo.DatabaseEndpoint info' = AccessInfo.DatabaseEndpoint info
  ∧ AccessInfo.CacheEndpoint info' = AccessInfo.CacheEndpoint info
  ∧ AccessInfo.StorageEndpoint info' = AccessInfo.StorageEndpoint info
  ∧ AccessInfo.StorageConsoleURL info' = AccessInfo.StorageConsoleURL info
  ∧ AccessInfo.JaegerUIURL info' = AccessInfo.JaegerUIURL info
  ∧ AccessInfo.ServiceEndpoints info' = AccessInfo.ServiceEndpoints info.

Lemma decideWebURL_run kubenova namespace info w :
  ∃ info' w', decideWebURL kubenova namespace info w = Done info' w'
              ∧ sameButWebURL info info'.
Proof.
  unfold decideWebURL. cbv zeta.
  destruct (if bool_decide _ then _ else None) as [ing|]; [by eexists _, _|].
  case_bool_decide; [|by eexists _, _].
  rewrite (bind_run _ _ _ _ _ (Get_run Service.t namespace webServiceName w)).
  cbv zeta. destruct (asResult _) as [webSvc|err]; [|by eexists _, _].
  match goal with
  | |- context [bind getNodeIP _ ?w1] =>
      destruct (getNodeIP_run w1) as (w2 & Hn & _)
  end.
  rewrite (bind_run _ _ _ _ _ Hn). by eexists _, _.
Qed.

Lemma endpoints_lookup namespace (old : gmap string string) (k : string) :
  foldl (fun m svc => <[svc := svc +:+ "." +:+ namespace +:+ ".svc.cluster.local"]> m)
        old backendServices !! k
  = if bool_decide (k ∈ backendServices)
    then Some (k +:+ "." +:+ namespace +:+ ".svc.cluster.local")
    else old !! k.
Proof.
  rewrite (foldl_insert_lookup id
             (fun svc => svc +:+ "." +:+ namespace +:+ ".svc.cluster.local")
             (fun _ => true)) by done.
  destruct (latest _ backendServices) as [svc|] eqn:Hl.
  - apply latest_Some in Hl as [Hin Hk]. rewrite andb_true_r in Hk.
    apply bool_decide_eq_true in Hk. simpl in Hk. subst svc.
    by rewrite bool_decide_eq_true_2.
  - rewrite bool_decide_eq_false_2; [done|]. intros Hin.
    pose proof (proj1 (latest_None _ _) Hl k Hin) as Hk. simpl in Hk.
    by rewrite bool_decide_eq_true_2 in Hk.
Qed.

(** [updateAccessInfo] never fails and changes nothing of the root but the
    access information of its status.  In the record it leaves, every
    backend service has the end point [service.namespace.svc.cluster.local]
    and the other end points of the record it found are kept; the database,
    cache and storage end points are those the specification gives; the
    storage console URL is kept, and the Jaeger URL is written only when
    telemetry is enabled.  In ingress mode with an
    ingress block it makes no call, and the web URL is the ingress host
    under [https] when ingress TLS is enabled and under [http] otherwise;
    when the mode is neither that nor node port, it makes no call and keeps
    the web URL. *)
Theorem access_info_endpoints (kubenova : KubeNova.t) (namespace : string)
    (w : World) :
  let spec := KubeNova.Spec kubenova in
  let web := KubeNovaSpec.Web spec in
  let old :=
    default AccessInfo.zero (KubeNovaStatus.AccessInfo (KubeNova.Status kubenova)) in
  ∃ kn' w' info endpoints,
    updateAccessInfo kubenova namespace w = Done kn' w'
    ∧ kn' = KubeNova.withStatus
              (KubeNovaStatus.withAccessInfo (Some info) (KubeNova.Status kubenova))
              kubenova
    ∧ AccessInfo.ServiceEndpoints info = Some endpoints
    ∧ (∀ k, endpoints !! k
            = if bool_decide (k ∈ backendServices)
              then Some (k +:+ "." +:+ namespace +:+ ".svc.cluster.local")
              else default ∅ (AccessInfo.ServiceEndpoints old) !! k)
    ∧ AccessInfo.DatabaseEndpoint info
      = GetDatabaseEndpoint (KubeNovaSpec.Database spec)
    ∧ AccessInfo.CacheEndpoint info = GetCacheEndpoint (KubeNovaSpec.Cache spec)
    ∧ AccessInfo.StorageEndpoint info
      = GetStorageEndpoint (KubeNovaSpec.Storage spec)
    ∧ AccessInfo.StorageConsoleURL info = AccessInfo.StorageConsoleURL old
    ∧ AccessInfo.JaegerUIURL info
      = match KubeNovaSpec.Telemetry spec with
        | Some t =>
            if TelemetryConfig.Enabled t then TelemetryConfig.JaegerEndpoint t
            else AccessInfo.JaegerUIURL old
        | None => AccessInfo.JaegerUIURL old
        end
    ∧ (∀ ing, WebConfig.ExposeType web = "ingress" →
         WebConfig.Ingress web = Some ing →
         w' = w
         ∧ AccessInfo.WebURL info
           = match IngressConfig.TLS ing with
             | Some tls => if IngressTLSConfig.Enabled tls then "https" else "http"
             | None => "http"
             end +:+ "://" +:+ IngressConfig.Host ing)
    ∧ ((WebConfig.ExposeType web = "ingress" → WebConfig.Ingress web = None) →
       WebConfig.ExposeType web ≠ "nodeport" →
       w' = w ∧ AccessInfo.WebURL info = AccessInfo.WebURL old).
Proof.
  cbv zeta. rewrite updateAccessInfo_split.
  set (old := default AccessInfo.zero _).
  destruct (decideWebURL_run kubenova namespace old w)
    as (info1 & w1 & Hrun1 & Hd & Hc & Hs & Hsc & Hj & He).
  rewrite (bind_run _ _ _ _ _ Hrun1).
  assert ((∀ ing, WebConfig.ExposeType (KubeNovaSpec.Web (KubeNova.Spec kubenova))
                  = "ingress" →
             WebConfig.Ingress (KubeNovaSpec.Web (KubeNova.Spec kubenova)) = Some ing →
             w1 = w
             ∧ AccessInfo.WebURL info1
               = match IngressConfig.TLS ing with
                 | Some tls =>
                     if IngressTLSConfig.Enabled tls then "https" else "http"
                 | None => "http"
                 end +:+ "://" +:+ IngressConfig.Host ing)
          ∧ ((WebConfig.ExposeType (KubeNovaSpec.Web (KubeNova.Spec kubenova))
              = "ingress" →
              WebConfig.Ingress (KubeNovaSpec.Web (KubeNova.Spec kubenova)) = None) →
             WebConfig.ExposeType (KubeNovaSpec.Web (KubeNova.Spec kubenova))
             ≠ "nodeport" →
             w1 = w ∧ AccessInfo.WebURL info1 = AccessInfo.WebURL old)) as [Hing Hnone].
  { unfold decideWebURL in Hrun1. cbv zeta in Hrun1. split.
    - intros ing Hmode Hi. rewrite Hmode, Hi in Hrun1. simpl in Hrun1.
      by injection Hrun1 as <- <-.
    - intros Hi Hnp. case_bool_decide as Hmode.
      + rewrite (Hi Hmode) in Hrun1.
        rewrite bool_decide_eq_false_2 in Hrun1 by done.
        by injection Hrun1 as <- <-.
      + rewrite bool_decide_eq_false_2 in Hrun1 by done.
        by injection Hrun1 as <- <-. }
  unfold finishAccessInfo, IsTelemetryEnabled, bind, deref, ret. cbv zeta.
  destruct (KubeNovaSpec.Telemetry (KubeNova.Spec kubenova)) as [t|];
    [destruct (TelemetryConfig.Enabled t)|];
    (eexists _, _, _, _; split_and!;
       [reflexivity|reflexivity|reflexivity
       |intros k; rewrite endpoints_lookup, He; reflexivity
       |reflexivity|reflexivity|reflexivity|by simpl|by simpl
       |exact Hing|exact Hnone]).
Qed.

(** * The observed generation *)

(** What every result of a computation satisfies. *)
Definition yields {A} (Q : A → Prop) (m : M A) : Prop :=
  ∀ w a w', m w = Done a w' → Q a.

Lemma yields_ret {A} (Q : A → Prop) a : Q a → yields Q (ret a).
Proof. intros Hq w a' w' [= <- _]. exact Hq. Qed.

Lemma yields_bind {A B} (Q' : A → Prop) (Q : B → Prop) (m : M A) (f : A → M B) :
  yields Q' m → (∀ a, Q' a → yields Q (f a)) → yields Q (bind m f).
Proof.
  intros Hm Hf w b w'. unfold bind. destruct (m w) as [a w1|w1] eqn:Hrun; [|done].
  intros Hrun'. exact (Hf a (Hm _ _ _ Hrun) _ _ _ Hrun').
Qed.

Lemma yields_any {A} (m : M A) : yields (fun _ => True) m.
Proof. by intros w a w' _. Qed.

Lemma stable_bind_post (R : relation World) `{!PreOrder R} {A B} (Q : A → Prop)
    (m : M A) (f : A → M B) :
  yields Q m → stable R m → (∀ a, Q a → stable R (f a)) → stable R (bind m f).
Proof.
  intros Hq Hm Hf w. rewrite finalWorld_bind. specialize (Hm w).
  destruct (m w) as [a w1|w1] eqn:Hrun; simpl in Hm; [|done].
  etransitivity; [exact Hm|]. apply Hf. exact (Hq _ _ _ Hrun).
Qed.

(** The in-memory root is the one the pass started from, up to its status,
    and its status observes the generation [g]. *)
Definition sameMeta (kn kn' : KubeNova.t) : Prop :=
  KubeNova.Meta kn' = KubeNova.Meta kn.

Definition observes (g : Z) (kn : KubeNova.t) : Prop :=
  KubeNovaStatus.ObservedGeneration (KubeNova.Status kn) = g.

Lemma setStatusPhase_observes kn phase msg :
  yields (fun kn' => sameMeta kn kn' ∧ observes (KubeNova.Generation kn) kn')
         (setStatusPhase kn phase msg).
Proof. by intros w a w' [= <- _]. Qed.

Lemma SetStatusCondition_observes kn c :
  yields (fun kn' => sameMeta kn kn'
                     ∧ KubeNovaStatus.ObservedGeneration (KubeNova.Status kn')
                       = KubeNovaStatus.ObservedGeneration (KubeNova.Status kn))
         (SetStatusCondition kn c).
Proof. by intros w a w' [= <- _]. Qed.

Lemma reconcileValidation_meta kn :
  yields (fun p => sameMeta kn p.1) (reconcileValidation kn).
Proof.
  unfold reconcileValidation.
  eapply yields_bind; [apply setStatusPhase_observes|]. intros kn1 [H1 _].
  destruct (ValidateKubeNova kn1);
    (eapply yields_bind; [apply SetStatusCondition_observes|]);
    intros kn2 [H2 _]; apply yields_ret; unfold sameMeta in *; simpl; congruence.
Qed.

Lemma reconcileServices_meta b kn :
  yields (fun p => sameMeta kn p.1) (reconcileServices b kn).
Proof.
  unfold reconcileServices.
  eapply yields_bind; [apply setStatusPhase_observes|]. intros kn1 [H1 _].
  cbv zeta. eapply yields_bind; [apply yields_any|].
  intros e _. by apply yields_ret.
Qed.

Lemma checkWebStatus_meta namespace kn allReady :
  yields (fun p => sameMeta kn p.1) (checkWebStatus namespace kn allReady).
Proof.
  unfold checkWebStatus. eapply yields_bind; [apply yields_any|].
  intros [d|err] _; [|by apply yields_ret].
  eapply yields_bind; [apply yields_any|]. intros desired _.
  eapply yields_bind; [apply yields_any|]. intros now _.
  destruct (webStatus _ _ _). by apply yields_ret.
Qed.

Lemma observeComponents_meta kn :
  yields (fun p => sameMeta kn p.1) (observeComponents kn).
Proof.
  unfold observeComponents. cbv zeta.
  eapply yields_bind; [apply yields_any|]. intros [services allReady] _.
  apply (checkWebStatus_meta _ (withServicesStatus services kn)).
Qed.

Lemma updateAccessInfo_meta kn namespace :
  yields (sameMeta kn) (updateAccessInfo kn namespace).
Proof.
  rewrite updateAccessInfo_split. eapply yields_bind; [apply yields_any|].
  intros info _ w a w' Hrun.
  destruct (finishAccessInfo_run kn namespace info w) as (info' & Hfin & _).
  rewrite Hfin in Hrun. by injection Hrun as <- _.
Qed.

Lemma resolvePhase_observes kn allReady :
  yields (fun kn' => sameMeta kn kn' ∧ observes (KubeNova.Generation kn) kn')
         (resolvePhase kn allReady).
Proof.
  unfold resolvePhase.
  destruct allReady;
    (eapply yields_bind; [apply setStatusPhase_observes|]);
    intros kn1 [H1 Ho] w a w' Hrun;
    apply SetStatusCondition_observes in Hrun as [H2 Ho2];
    unfold sameMeta, observes in *; split; congruence.
Qed.

(** A status write carries the observed generation [g]. *)
Definition writesObserved (g : Z) (ev : Event) : Prop :=
  match ev with
  | ECall (CStatusUpdate o) _ =>
      match o with
      | OKubeNova kn => observes g kn
      | _ => False
      end
  | _ => True
  end.

Section ObservedGeneration.

Variable g : Z.

#[local] Abbreviation observed := (grows (writesObserved g)).

Create HintDb observed discriminated.

#[local] Hint Extern 1 (stable observed (Get _ _ _)) =>
  apply grows_Get; intros; exact I : observed.
#[local] Hint Extern 1 (stable observed (Sleep _)) =>
  apply grows_Sleep; exact I : observed.
#[local] Hint Extern 1 (stable observed (ret _)) =>
  apply stable_ret; apply _ : observed.
#[local] Hint Extern 1 (stable observed (deref _)) =>
  apply stable_deref; apply _ : observed.
#[local] Hint Extern 1 (stable observed Now) => apply stable_Now; apply _ : observed.
#[local] Hint Extern 1 (stable observed (StatusUpdate _)) =>
  apply grows_StatusUpdate; intros; assumption : observed.

Ltac observed_walk := walk_with ltac:(eauto with observed).

Lemma observed_statusRetryLoop remaining : ∀ i kn,
  observes g kn → stable observed (statusRetryLoop remaining i kn).
Proof.
  induction remaining as [|remaining IH]; intros i kn Hkn; simpl; [observed_walk|].
  pose proof (IH (i + 1) kn Hkn).
  assert (∀ latest : KubeNova.t,
            writesObserved g
              (ECall (CStatusUpdate
                        (wrap (KubeNova.withStatus (KubeNova.Status kn) latest)))
                 RDone)) as Hwrite by (intros latest; exact Hkn).
  observed_walk.
Qed.

Lemma observed_stageFailed kn prefix err :
  KubeNova.Generation kn = g → stable observed (stageFailed kn prefix err).
Proof.
  intros Hg. unfold stageFailed, updateStatusWithRetry.
  eapply stable_bind_post;
    [apply _|apply setStatusPhase_observes|observed_walk|].
  intros kn1 [_ Ho]. rewrite Hg in Ho.
  pose proof (observed_statusRetryLoop 3 0 kn1 Ho). observed_walk.
Qed.

Lemma observed_observeComponents kn : stable observed (observeComponents kn).
Proof.
  unfold observeComponents, checkWebStatus. cbv zeta.
  apply stable_bind; [apply _| |].
  - apply stable_foldM; [apply _|]. intros acc name.
    apply calls_checkServiceStatus. by intros.
  - observed_walk.
Qed.

Lemma observed_checkComponentStatus kn :
  KubeNova.Generation kn = g → stable observed (checkComponentStatus kn).
Proof.
  intros Hg. unfold checkComponentStatus, updateStatusWithRetry. cbv zeta.
  eapply stable_bind_post;
    [apply _|apply observeComponents_meta|apply observed_observeComponents|].
  intros [kn1 allReady] H1. simpl in H1.
  eapply stable_bind_post;
    [apply _|apply updateAccessInfo_meta
    |apply calls_updateAccessInfo; by intros|].
  intros kn2 H2.
  eapply stable_bind_post;
    [apply _|apply resolvePhase_observes|unfold resolvePhase; observed_walk|].
  intros kn3 [H3 Ho]. apply observed_statusRetryLoop.
  unfold observes, sameMeta, KubeNova.Generation in *. congruence.
Qed.

Lemma observed_runPipeline b kn :
  KubeNova.Generation kn = g → stable observed (runPipeline b kn).
Proof.
  intros Hg. unfold runPipeline.
  eapply stable_bind_post;
    [apply _|apply reconcileValidation_meta|apply calls_reconcileValidation|].
  intros [kn1 e1] H1. simpl in H1.
  assert (KubeNova.Generation kn1 = g) as Hg1
    by (unfold sameMeta, KubeNova.Generation in *; congruence).
  pose proof (observed_stageFailed kn1) as Hfail1.
  destruct e1 as [err|]; [by apply Hfail1|].
  apply stable_bind; [apply _|apply calls_reconcileNamespace; by intros|].
  intros [err|]; [by apply Hfail1|].
  apply stable_bind; [apply _|apply calls_reconcileRBAC; by intros|].
  intros [err|]; [by apply Hfail1|].
  apply stable_bind; [apply _|apply calls_reconcileSecret; by intros|].
  intros [err|]; [by apply Hfail1|].
  apply stable_bind; [apply _|apply calls_reconcileConfigMaps; by intros|].
  intros [err|]; [by apply Hfail1|].
  eapply stable_bind_post;
    [apply _|apply reconcileServices_meta|apply calls_reconcileServices; by intros|].
  intros [kn6 e6] H6. simpl in H6.
  assert (KubeNova.Generation kn6 = g) as Hg6
    by (unfold sameMeta, KubeNova.Generation in *; congruence).
  destruct e6 as [err|]; [by apply observed_stageFailed|].
  apply stable_bind; [apply _|apply calls_reconcileWeb; by intros|].
  intros [err|]; [by apply observed_stageFailed|].
  apply stable_bind; [apply _|by apply observed_checkComponentStatus|].
  intros [kn8 [e8|]]; apply stable_ret; apply _.
Qed.

End ObservedGeneration.



(** * Ownership of the created documents *)

(** A document is controlled by the root [name] of [namespace] when its
    owner references hold the controller reference of that root, and it
    lives in the root's namespace. *)
Definition controlledBy (namespace name : string) (m : ObjectMeta.t) : Prop :=
  OwnerReference.mk KubeNovaKind name true true ∈ ObjectMeta.OwnerReferences m
  ∧ (namespace ≠ "" → ObjectMeta.Namespace m = namespace).

Lemma upsertOwnerRef_elem ref refs : ref ∈ upsertOwnerRef ref refs.
Proof.
  induction refs as [|r rest IH]; simpl; [by left|].
  destruct (referSameObject r ref); [by left|by right].
Qed.

Lemma setControllerReferenceMeta_controlled kn m m' :
  setControllerReferenceMeta kn m = Found m' →
  controlledBy (KubeNova.Namespace kn) (KubeNova.Name kn) m'.
Proof.
  unfold setControllerReferenceMeta. cbv zeta.
  destruct (bool_decide (KubeNova.Namespace kn ≠ "")
            && bool_decide (ObjectMeta.Namespace m = "")); [done|].
  destruct (bool_decide (KubeNova.Namespace kn ≠ "")
            && bool_decide (KubeNova.Namespace kn ≠ ObjectMeta.Namespace m))
    eqn:Hcross; [done|].
  assert (KubeNova.Namespace kn ≠ "" →
          ObjectMeta.Namespace m = KubeNova.Namespace kn) as Hns.
  { intros Hne. apply andb_false_iff in Hcross as [Hc|Hc].
    - by apply bool_decide_eq_false in Hc.
    - apply bool_decide_eq_false in Hc. symmetry. by apply dec_stable. }
  intros Hset.
  assert (m' = ObjectMeta.withOwnerReferences
                 (upsertOwnerRef (controllerRef kn) (ObjectMeta.OwnerReferences m)) m)
    as ->.
  { destruct (List.find _ _) as [existing|]; [|by injection Hset].
    destruct (negb _); [done|by injection Hset]. }
  split; [apply upsertOwnerRef_elem|exact Hns].
Qed.

(** Replacing the metadata of a typed document. *)
Class MetaLaw (T : Type) `{Resource T} :=
  meta_law : ∀ m (t : T), metaOf (withMetaOf m t) = m.

#[global] Instance Deployment_meta : MetaLaw Deployment.t.
Proof. by intros m t. Qed.
#[global] Instance Service_meta : MetaLaw Service.t.
Proof. by intros m t. Qed.
#[global] Instance ConfigMap_meta : MetaLaw ConfigMap.t.
Proof. by intros m t. Qed.
#[global] Instance Secret_meta : MetaLaw Secret.t.
Proof. by intros m t. Qed.
#[global] Instance ServiceAccount_meta : MetaLaw ServiceAccount.t.
Proof. by intros m t. Qed.
#[global] Instance Ingress_meta : MetaLaw Ingress.t.
Proof. by intros m t. Qed.

Lemma SetControllerReference_controlled {T} `{MetaLaw T} kn (t t' : T) :
  SetControllerReference kn t = Found t' →
  controlledBy (KubeNova.Namespace kn) (KubeNova.Name kn) (metaOf t').
Proof.
  unfold SetControllerReference.
  destruct (setControllerReferenceMeta kn (metaOf t)) as [m'|] eqn:Hset; [|done].
  intros [= <-]. rewrite meta_law.
  by apply setControllerReferenceMeta_controlled in Hset.
Qed.

(** What a pass may create: a cluster-scoped binding without owner, and
    documents controlled by the root. *)
Definition createdRight (namespace name : string) (ev : Event) : Prop :=
  match ev with
  | ECall (CCreate o) _ =>
      if bool_decide (objKind o = "ClusterRoleBinding")
      then ObjectMeta.OwnerReferences (objMeta o) = []
           ∧ ObjectMeta.Namespace (objMeta o) = ""
      else controlledBy namespace name (objMeta o)
  | _ => True
  end.

Lemma owned_Create namespace name {T} `{Resource T} (t : T) :
  kindOf T ≠ "ClusterRoleBinding" → controlledBy namespace name (metaOf t) →
  stable (grows (createdRight namespace name)) (Create t).
Proof.
  intros Hk Ht. apply stable_bind; [apply _| |intros; apply stable_ret; apply _].
  apply grows_invoke. intros r. simpl. rewrite wrap_kind.
  by rewrite bool_decide_eq_false_2.
Qed.

Create HintDb own discriminated.

#[local] Hint Extern 1 (stable (grows (createdRight _ _)) (Get _ _ _)) =>
  apply grows_Get; intros; exact I : own.
#[local] Hint Extern 1 (stable (grows (createdRight _ _)) (Update _)) =>
  apply grows_Update; intros; exact I : own.
#[local] Hint Extern 1 (stable (grows (createdRight _ _)) (Create _)) =>
  apply owned_Create; [discriminate|assumption] : own.
#[local] Hint Extern 1 (stable (grows (createdRight _ _)) (ret _)) =>
  apply stable_ret; apply _ : own.
#[local] Hint Extern 1 (stable (grows (createdRight _ _)) getNodeIP) =>
  apply calls_getNodeIP; intros; exact I : own.
#[local] Hint Extern 1 (stable (grows (createdRight _ _)) (getWebNodePort _ _)) =>
  apply calls_getWebNodePort; intros; exact I : own.

(** The walk keeps what a successful [SetControllerReference] says of its
    result. *)
Ltac own_walk :=
  repeat first
    [ progress intros
    | progress cbv zeta
    | solve [eauto with own]
    | match goal with
      | |- stable _ (match SetControllerReference ?kn ?t with _ => _ end) =>
          let Href := fresh "Href" in
          destruct (SetControllerReference kn t) eqn:Href;
          [apply SetControllerReference_controlled in Href|]
      end
    | apply stable_bind; [apply _| |]
    | match goal with
      | |- stable _ (match ?x with _ => _ end) => destruct x
      | |- stable _ (if ?x then _ else _) => destruct x
      | |- stable _ (let '(_, _) := ?x in _) => destruct x
      end ].

Lemma owned_createIfAbsent namespace name {T} `{Resource T} ns n (t : T) m1 m2 :
  kindOf T ≠ "ClusterRoleBinding" → controlledBy namespace name (metaOf t) →
  stable (grows (createdRight namespace name)) (createIfAbsent ns n t m1 m2).
Proof.
  intros Hk Ht. pose proof (owned_Create namespace name t Hk Ht).
  unfold createIfAbsent. own_walk.
Qed.

Lemma owned_syncConfigMap namespace name ns cm m1 m2 m3 :
  controlledBy namespace name (metaOf cm) →
  stable (grows (createdRight namespace name)) (syncConfigMap ns cm m1 m2 m3).
Proof. intros Hcm. unfold syncConfigMap. own_walk. Qed.

#[local] Hint Extern 1 (stable (grows (createdRight _ _)) (createIfAbsent _ _ _ _ _)) =>
  apply owned_createIfAbsent; [discriminate|assumption] : own.
#[local] Hint Extern 1 (stable (grows (createdRight _ _)) (syncConfigMap _ _ _ _ _)) =>
  apply owned_syncConfigMap; assumption : own.

Lemma owned_binding namespace name kn ns :
  stable (grows (createdRight namespace name))
    (createIfAbsent "" (ObjectMeta.Name (metaOf (BuildClusterRoleBinding kn ns)))
       (BuildClusterRoleBinding kn ns)
       "创建 ClusterRoleBinding 失败: " "获取 ClusterRoleBinding 失败: ").
Proof.
  assert (stable (grows (createdRight namespace name))
            (Create (BuildClusterRoleBinding kn ns))).
  { apply stable_bind; [apply _| |intros; apply stable_ret; apply _].
    apply grows_invoke. by intros r. }
  unfold createIfAbsent. own_walk.
Qed.

Section OwnedStages.

Context (b : Builders).

#[local] Notation "'owns' kn" := (grows (createdRight (KubeNova.Namespace kn) (KubeNova.Name kn))) (at level 10, kn at level 9).

Lemma owned_reconcileRBAC kn : stable (owns kn) (reconcileRBAC kn).
Proof.
  unfold reconcileRBAC. pose proof (owned_binding (KubeNova.Namespace kn)
                                      (KubeNova.Name kn) kn (KubeNova.Namespace kn)).
  own_walk.
Qed.

Lemma owned_reconcileSecret kn : stable (owns kn) (reconcileSecret b kn).
Proof. unfold reconcileSecret. own_walk. Qed.

Lemma owned_reconcileConfigMaps kn : stable (owns kn) (reconcileConfigMaps b kn).
Proof. unfold reconcileConfigMaps. apply stable_forEach; [apply _|]. own_walk. Qed.

Lemma owned_reconcileServiceDeployment kn ns name d :
  stable (owns kn) (reconcileServiceDeployment kn ns name d).
Proof. unfold reconcileServiceDeployment. own_walk. Qed.

Lemma owned_reconcileServiceEntry kn ns entry :
  stable (owns kn) (reconcileServiceEntry kn ns entry).
Proof.
  unfold reconcileServiceEntry. destruct entry as [name res].
  pose proof (owned_reconcileServiceDeployment kn). own_walk.
Qed.

Lemma owned_reconcileWebDeployment kn ns d :
  stable (owns kn) (reconcileWebDeployment kn ns d).
Proof. unfold reconcileWebDeployment. own_walk. Qed.

Lemma owned_reconcileWeb kn : stable (owns kn) (reconcileWeb b kn).
Proof.
  unfold reconcileWeb. pose proof (owned_reconcileWebDeployment kn). own_walk.
Qed.

Lemma owns_sameMeta kn kn' :
  sameMeta kn kn' →
  createdRight (KubeNova.Namespace kn') (KubeNova.Name kn')
  = createdRight (KubeNova.Namespace kn) (KubeNova.Name kn).
Proof.
  unfold sameMeta, KubeNova.Namespace, KubeNova.Name. by intros ->.
Qed.

Lemma owned_reconcileServices kn : stable (owns kn) (reconcileServices b kn).
Proof.
  unfold reconcileServices.
  eapply stable_bind_post;
    [apply _|apply setStatusPhase_observes|apply calls_setStatusPhase|].
  intros kn1 [H1 _]. cbv zeta. rewrite <- (owns_sameMeta kn kn1 H1).
  apply stable_bind; [apply _| |intros; apply stable_ret; apply _].
  apply stable_forEach; [apply _|]. apply owned_reconcileServiceEntry.
Qed.

Lemma owned_runPipeline kn : stable (owns kn) (runPipeline b kn).
Proof.
  unfold runPipeline.
  eapply stable_bind_post;
    [apply _|apply reconcileValidation_meta|apply calls_reconcileValidation|].
  intros [kn1 e1] H1. simpl in H1. rewrite <- (owns_sameMeta kn kn1 H1).
  assert (∀ kn' prefix err, stable (owns kn1) (stageFailed kn' prefix err)) as Hfail
    by (intros; apply calls_stageFailed; by intros).
  destruct e1 as [err|]; [by apply Hfail|].
  apply stable_bind; [apply _|apply calls_reconcileNamespace; by intros|].
  intros [err|]; [by apply Hfail|].
  apply stable_bind; [apply _|apply owned_reconcileRBAC|].
  intros [err|]; [by apply Hfail|].
  apply stable_bind; [apply _|apply owned_reconcileSecret|].
  intros [err|]; [by apply Hfail|].
  apply stable_bind; [apply _|apply owned_reconcileConfigMaps|].
  intros [err|]; [by apply Hfail|].
  eapply stable_bind_post;
    [apply _|apply reconcileServices_meta|apply owned_reconcileServices|].
  intros [kn6 e6] H6. simpl in H6. rewrite <- (owns_sameMeta kn1 kn6 H6).
  destruct e6 as [err|]; [by apply calls_stageFailed; intros|].
  apply stable_bind; [apply _|apply owned_reconcileWeb|].
  intros [err|]; [by apply calls_stageFailed; intros|].
  apply stable_bind; [apply _|apply calls_checkComponentStatus; by intros|].
  intros [kn8 [e8|]]; apply stable_ret; apply _.
Qed.

End OwnedStages.

(** Whatever the builders return and the store answers, every document a
    pass through the pipeline creates carries the controller reference of
    the root the pass works for and lives in the namespace of that root;
    the one exception is the cluster-scoped binding, which is created
    without a namespace and without any owner reference. *)
Theorem created_documents_owned (b : Builders) (kubenova : KubeNova.t) (w : World) :
  ∃ evs,
    trace (finalWorld (runPipeline b kubenova w)) = trace w ++ evs
    ∧ ∀ o r,
        ECall (CCreate o) r ∈ evs →
        if bool_decide (objKind o = "ClusterRoleBinding")
        then ObjectMeta.OwnerReferences (objMeta o) = []
             ∧ ObjectMeta.Namespace (objMeta o) = ""
        else controllerRef kubenova ∈ ObjectMeta.OwnerReferences (objMeta o)
             ∧ (KubeNova.Namespace kubenova ≠ "" →
                ObjectMeta.Namespace (objMeta o) = KubeNova.Namespace kubenova).
Proof.
  destruct (owned_runPipeline b kubenova w) as (evs & Ht & Hall).
  exists evs. split; [exact Ht|]. intros o r Hin.
  rewrite Forall_forall in Hall. exact (Hall _ Hin).
Qed.

(** On a store that holds the root and its namespace only, the first pass
    creates the account with the controller reference of the root and the
    binding without owner. *)
Lemma created_documents_owned_example :
  let w := worldOf [OKubeNova sampleRoot; prodNamespace] [] [] in
  let created k :=
    ObjectMeta.OwnerReferences ∘ objMeta
      <$> objects (finalWorld (runPipeline sampleBuilders sampleRoot w)) !! k in
  created ("ServiceAccount", "prod", "kube-nova-sa") = Some [controllerRef sampleRoot]
  ∧ created ("ClusterRoleBinding", "", "kube-nova-prod-nova-cluster-admin") = Some []
  ∧ created ("Deployment", "prod", "portal-api") = Some [controllerRef sampleRoot]
  ∧ created ("Service", "prod", "kube-nova-web") = Some [controllerRef sampleRoot].
Proof. cbv zeta. split_and!; vm_compute; reflexivity. Qed.
